(** * Risk-scoring configuration editor

    A model of the two React components that edit weighted risk rules:

    - the API-backed editor (second document of
      [src/components/AppSidebar.tsx]), which loads the configuration with a
      GET and stores it with a POST;
    - the local editor ([src/pages/RiskConfiguration.tsx]), which keeps the
      configuration in [localStorage].

    Both share, word for word, [getAvailableFields], [addCondition],
    [removeCondition] and [updateCondition]; these are modelled once.

    Conventions of the model.
    - Numbers.  In the main model a JavaScript [number] is an integer of
      [Z]: identifiers are integers and weights are whole percentages.  The
      weight input also accepts fractions, and sums of fractions are
      rounded.  The editing operations are therefore modelled a second time
      on IEEE 754 doubles ([Module Double]); what depends on rounding is
      stated, or refuted, there.  On whole numbers of moderate size
      ([wholeRange]) the doubles of the source are the integers of the main
      model: this is proved down to the IEEE 754 operations
      ([applyEdits_whole]), and a statement that depends on exact sums says
      for which weights it speaks and what the doubles are.
    - A JavaScript object whose keys are fixed by an interface is a record;
      an optional key ([configId?], [riskFieldId?], [currentField?]) is an
      [option].
    - The pair [(field: keyof RiskCondition, value: any)] of
      [updateCondition] is an [Assignment]: a key together with a value of
      the type the interface gives that key.
    - [fieldOptions] is an association list in the order of the object
      literal, which is the order [Object.values] enumerates.  The property
      access [fieldOptions[key]] also finds what every object inherits from
      [Object.prototype] ([getProperty]).
    - React state, toasts, the network and [localStorage] are fields of a
      [World]; an event handler is a program of the monad [M] and runs from
      its first statement to its last without interleaving. *)

From Stdlib Require Import ZArith String List Lia DecimalString Floats.
From Stdlib Require Uint63.
From stdpp Require Import base list strings gmap.
Import ListNotations.
Local Open Scope Z_scope.

(** ** Data model *)

(** [status: "incomplete" | "complete"] *)
Inductive Status : Type := incomplete | complete.

Module RiskCondition.
Record t : Type := mk {
  id : string;
  field : string;
  operator : string;
  value : string;
  weight : Z;
  dataType : string;
  configId : option Z;
  riskFieldId : option Z
}.
End RiskCondition.

Module RiskCategory.
Record t : Type := mk {
  id : string;
  name : string;
  conditions : list RiskCondition.t;
  totalWeight : Z;
  status : Status
}.
End RiskCategory.

Module ApiConfigItem.
Record t : Type := mk {
  ConfigId : Z;
  RiskFieldId : Z;
  Operator : string;
  Value : string;
  WeightPercentage : Z;
  CreatedAt : string;
  IsEnabled : bool;
  FieldName : string;
  DisplayName : string
}.
End ApiConfigItem.

(** An entry of [fieldOptions]; the local editor's entries carry no
    [riskFieldId]. *)
Module FieldOption.
Record t : Type := mk {
  name : string;
  dataType : string;
  riskFieldId : option Z
}.
End FieldOption.

(** The object literal [fieldOptions]: category key, then its entries. *)
Definition FieldOptions : Type := list (string * list FieldOption.t).

(** The own property [key] of [fieldOptions]: the entries written under [key]
    in the object literal, [None] when the literal has no such key. *)
Fixpoint lookupKey (fieldOptions : FieldOptions) (key : string)
  : option (list FieldOption.t) :=
  match fieldOptions with
  | [] => None
  | (k, entries) :: rest =>
      if String.eqb k key then Some entries else lookupKey rest key
  end.

(** [Object.values(fieldOptions).flat()] *)
Definition flatOptions (fieldOptions : FieldOptions) : list FieldOption.t :=
  concat (map snd fieldOptions).

(** The property names every object literal inherits from [Object.prototype]. *)
Definition objectPrototypeKeys : list string :=
  [ "constructor"; "__defineGetter__"; "__defineSetter__"; "hasOwnProperty";
    "__lookupGetter__"; "__lookupSetter__"; "isPrototypeOf";
    "propertyIsEnumerable"; "toString"; "valueOf"; "__proto__";
    "toLocaleString" ].

(** What the property access [fieldOptions[key]] evaluates to: the array of an
    own key; a member inherited from [Object.prototype] (a function, or for
    [__proto__] the prototype object), which is neither [undefined] nor an
    array; or [undefined]. *)
Inductive Property : Type :=
| ownEntries (entries : list FieldOption.t)
| inheritedMember
| undefinedProperty.

(** [fieldOptions[key]] *)
Definition getProperty (fieldOptions : FieldOptions) (key : string) : Property :=
  match lookupKey fieldOptions key with
  | Some entries => ownEntries entries
  | None =>
      if existsb (String.eqb key) objectPrototypeKeys then inheritedMember
      else undefinedProperty
  end.

(** ** JavaScript primitives used by the components *)

(** A call returns a value or throws. *)
Inductive Outcome (A : Type) : Type :=
| returned (a : A)
| thrown.
Arguments returned {A} a.
Arguments thrown {A}.

(** [n.toString()] for a whole number [n] below [10^21] in absolute value:
    its decimal digits.  (From [10^21] on JavaScript writes an exponent; a
    time stamp or a row id is far below.) *)
Definition toString (n : Z) : string := NilZero.string_of_int (Z.to_int n).

(** [Number(w) || 0]: a falsy number is replaced by [0]. *)
Definition numberOr0 (w : Z) : Z := if w =? 0 then 0 else w.

(** [a || b] where [a] is an optional number: [undefined] and [0] are falsy. *)
Definition orElse (a b : option Z) : option Z :=
  match a with
  | Some n => if n =? 0 then b else Some n
  | None => b
  end.

(** [s || d] where [s] is an optional string: [undefined] and the empty string
    are falsy. *)
Definition orString (s : option string) (d : string) : string :=
  match s with
  | Some x => if String.eqb x "" then d else x
  | None => d
  end.

(** [arr.includes(x)] on strings. *)
Definition includes (arr : list string) (x : string) : bool :=
  existsb (String.eqb x) arr.

(** [x === y] where [y] is an optional string. *)
Definition eqOpt (x : string) (y : option string) : bool :=
  match y with
  | Some s => String.eqb x s
  | None => false
  end.

(** [conds.reduce((sum, c) => sum + c.weight, 0)] on whole numbers.  The
    source adds doubles ([Double.sumWeights]); the two agree while the
    absolute values of the weights add up to less than [2^53]
    ([sumWeights_whole]). *)
Definition sumWeights (conds : list RiskCondition.t) : Z :=
  fold_left (fun sum c => sum + RiskCondition.weight c) conds 0.

(** [conds.reduce((sum, c) => sum + (Number(c.weight) || 0), 0)] on whole
    numbers; on doubles it is [Double.sumWeightsOr0], with the same agreement
    ([sumWeightsOr0_whole]). *)
Definition sumWeightsOr0 (conds : list RiskCondition.t) : Z :=
  fold_left (fun sum c => sum + numberOr0 (RiskCondition.weight c)) conds 0.

(** [total === 100 ? "complete" : "incomplete"] *)
Definition statusOf (total : Z) : Status :=
  if total =? 100 then complete else incomplete.

(** ** Editing operations shared by both components *)

(** [getAvailableFields(categoryId, currentField?)].  The optional call
    [fieldOptions[categoryId]?.filter(...)] is skipped only when the property
    is [undefined]; on an inherited member, which has no [filter], it throws a
    [TypeError]. *)
Definition getAvailableFields (fieldOptions : FieldOptions)
    (categories : list RiskCategory.t)
    (categoryId : string) (currentField : option string)
  : Outcome (list FieldOption.t) :=
  let category :=
    find (fun cat => String.eqb (RiskCategory.id cat) categoryId) categories in
  let usedFields :=
    match category with
    | Some cat => map RiskCondition.field (RiskCategory.conditions cat)
    | None => []
    end in
  match getProperty fieldOptions categoryId with
  | ownEntries entries =>
      returned
        (List.filter
           (fun field =>
              negb (includes usedFields (FieldOption.name field))
              || eqOpt (FieldOption.name field) currentField)
           entries)
  | inheritedMember => thrown
  | undefinedProperty => returned []
  end.

(** The condition [addCondition] creates; [now] is [Date.now()]. *)
Definition newCondition (now : Z) : RiskCondition.t :=
  RiskCondition.mk (toString now) "" ">" "" 0 "Number" None None.

(** [{ ...cat, conditions: conds }] *)
Definition withConditions (cat : RiskCategory.t)
    (conds : list RiskCondition.t) : RiskCategory.t :=
  RiskCategory.mk (RiskCategory.id cat) (RiskCategory.name cat) conds
    (RiskCategory.totalWeight cat) (RiskCategory.status cat).

(** [{ ...cat, conditions: conds, totalWeight: total, status: st }] *)
Definition withTotals (cat : RiskCategory.t)
    (conds : list RiskCondition.t) (total : Z) (st : Status) : RiskCategory.t :=
  RiskCategory.mk (RiskCategory.id cat) (RiskCategory.name cat) conds total st.

(** [addCondition()]: [activeCategory] is
    [categories.find((cat) => cat.id === activeTab)]. *)
Definition addCondition (activeTab : string) (now : Z)
    (categories : list RiskCategory.t) : list RiskCategory.t :=
  match find (fun cat => String.eqb (RiskCategory.id cat) activeTab) categories with
  | None => categories
  | Some _ =>
      map (fun cat =>
             if String.eqb (RiskCategory.id cat) activeTab
             then withConditions cat (RiskCategory.conditions cat ++ [newCondition now])
             else cat)
          categories
  end.

(** [removeCondition(conditionId)] *)
Definition removeCondition (activeTab conditionId : string)
    (prev : list RiskCategory.t) : list RiskCategory.t :=
  map (fun cat =>
         if String.eqb (RiskCategory.id cat) activeTab
         then
           let kept :=
             List.filter
               (fun c => negb (String.eqb (RiskCondition.id c) conditionId))
               (RiskCategory.conditions cat) in
           withTotals cat kept (sumWeights kept) (statusOf (sumWeights kept))
         else cat)
      prev.

(** A key of [RiskCondition] with a value for it. *)
Inductive Assignment : Type :=
| set_id (v : string)
| set_field (v : string)
| set_operator (v : string)
| set_value (v : string)
| set_weight (v : Z)
| set_dataType (v : string)
| set_configId (v : option Z)
| set_riskFieldId (v : option Z).

(** [{ ...c, [field]: value }] *)
Definition assign (c : RiskCondition.t) (a : Assignment) : RiskCondition.t :=
  let '(RiskCondition.mk i f o v w d ci rf) := c in
  match a with
  | set_id x => RiskCondition.mk x f o v w d ci rf
  | set_field x => RiskCondition.mk i x o v w d ci rf
  | set_operator x => RiskCondition.mk i f x v w d ci rf
  | set_value x => RiskCondition.mk i f o x w d ci rf
  | set_weight x => RiskCondition.mk i f o v x d ci rf
  | set_dataType x => RiskCondition.mk i f o v w x ci rf
  | set_configId x => RiskCondition.mk i f o v w d x rf
  | set_riskFieldId x => RiskCondition.mk i f o v w d ci x
  end.

(** The weight [updateCondition] stores for a requested [value]:
    [Math.min(Number(value), 100 - otherWeights)], on whole numbers; on
    doubles it is [Double.cappedWeight], which agrees for weights and a
    request within [wholeRange] ([cappedWeight_whole]). *)
Definition cappedWeight (conditionId : string) (value : Z)
    (conds : list RiskCondition.t) : Z :=
  let otherWeights :=
    sumWeightsOr0
      (List.filter
         (fun cond => negb (String.eqb (RiskCondition.id cond) conditionId))
         conds) in
  Z.min value (100 - otherWeights).

(** [updateCondition(conditionId, field, value)] *)
Definition updateCondition (activeTab conditionId : string) (a : Assignment)
    (prev : list RiskCategory.t) : list RiskCategory.t :=
  map (fun cat =>
         if negb (String.eqb (RiskCategory.id cat) activeTab) then cat
         else
           let newConditions :=
             map (fun c =>
                    if String.eqb (RiskCondition.id c) conditionId then
                      match a with
                      | set_weight value =>
                          assign c
                            (set_weight
                               (cappedWeight conditionId value
                                  (RiskCategory.conditions cat)))
                      | _ => assign c a
                      end
                    else c)
                 (RiskCategory.conditions cat) in
           let totalWeight := sumWeightsOr0 newConditions in
           withTotals cat newConditions totalWeight (statusOf totalWeight))
      prev.

(** ** The editing operations on double-precision numbers

    A JavaScript [number] is an IEEE 754 binary64 value, and the weight input
    accepts fractions.  Where rounding matters the operations above are read
    again, line by line, with [weight] and [totalWeight] as such values:
    Rocq's primitive [float], whose [+], [-], [<] and [==] are those of
    binary64 with rounding to nearest, ties to even. *)

Module Double.

Module RiskCondition.
Record t : Type := mk {
  id : string;
  field : string;
  operator : string;
  value : string;
  weight : float;
  dataType : string;
  configId : option Z;
  riskFieldId : option Z
}.
End RiskCondition.

Module RiskCategory.
Record t : Type := mk {
  id : string;
  name : string;
  conditions : list RiskCondition.t;
  totalWeight : float;
  status : Status
}.
End RiskCategory.

(** [Number(w) || 0]: [0], [-0] and [NaN] are falsy. *)
Definition numberOr0 (w : float) : float :=
  if (is_nan w || (w =? 0)%float)%bool then 0%float else w.

(** [Math.min(a, b)]: [NaN] when either is [NaN]; [-0] is below [+0]. *)
Definition Math_min (a b : float) : float :=
  if (is_nan a || is_nan b)%bool then nan
  else if (a <? b)%float then a
  else if (b <? a)%float then b
  else if get_sign a then a else b.

(** [conds.reduce((sum, c) => sum + c.weight, 0)] *)
Definition sumWeights (conds : list RiskCondition.t) : float :=
  fold_left (fun sum c => (sum + RiskCondition.weight c)%float) conds 0%float.

(** [conds.reduce((sum, c) => sum + (Number(c.weight) || 0), 0)] *)
Definition sumWeightsOr0 (conds : list RiskCondition.t) : float :=
  fold_left (fun sum c => (sum + numberOr0 (RiskCondition.weight c))%float)
    conds 0%float.

(** [total === 100 ? "complete" : "incomplete"] *)
Definition statusOf (total : float) : Status :=
  if (total =? 100)%float then complete else incomplete.

Definition newCondition (now : Z) : RiskCondition.t :=
  RiskCondition.mk (toString now) "" ">" "" 0%float "Number" None None.

Definition withConditions (cat : RiskCategory.t)
    (conds : list RiskCondition.t) : RiskCategory.t :=
  RiskCategory.mk (RiskCategory.id cat) (RiskCategory.name cat) conds
    (RiskCategory.totalWeight cat) (RiskCategory.status cat).

Definition withTotals (cat : RiskCategory.t)
    (conds : list RiskCondition.t) (total : float) (st : Status)
  : RiskCategory.t :=
  RiskCategory.mk (RiskCategory.id cat) (RiskCategory.name cat) conds total st.

(** [addCondition()] *)
Definition addCondition (activeTab : string) (now : Z)
    (categories : list RiskCategory.t) : list RiskCategory.t :=
  match find (fun cat => String.eqb (RiskCategory.id cat) activeTab) categories with
  | None => categories
  | Some _ =>
      map (fun cat =>
             if String.eqb (RiskCategory.id cat) activeTab
             then withConditions cat (RiskCategory.conditions cat ++ [newCondition now])
             else cat)
          categories
  end.

(** [removeCondition(conditionId)] *)
Definition removeCondition (activeTab conditionId : string)
    (prev : list RiskCategory.t) : list RiskCategory.t :=
  map (fun cat =>
         if String.eqb (RiskCategory.id cat) activeTab
         then
           let kept :=
             List.filter
               (fun c => negb (String.eqb (RiskCondition.id c) conditionId))
               (RiskCategory.conditions cat) in
           withTotals cat kept (sumWeights kept) (statusOf (sumWeights kept))
         else cat)
      prev.

Inductive Assignment : Type :=
| set_id (v : string)
| set_field (v : string)
| set_operator (v : string)
| set_value (v : string)
| set_weight (v : float)
| set_dataType (v : string)
| set_configId (v : option Z)
| set_riskFieldId (v : option Z).

(** [{ ...c, [field]: value }] *)
Definition assign (c : RiskCondition.t) (a : Assignment) : RiskCondition.t :=
  let '(RiskCondition.mk i f o v w d ci rf) := c in
  match a with
  | set_id x => RiskCondition.mk x f o v w d ci rf
  | set_field x => RiskCondition.mk i x o v w d ci rf
  | set_operator x => RiskCondition.mk i f x v w d ci rf
  | set_value x => RiskCondition.mk i f o x w d ci rf
  | set_weight x => RiskCondition.mk i f o v x d ci rf
  | set_dataType x => RiskCondition.mk i f o v w x ci rf
  | set_configId x => RiskCondition.mk i f o v w d x rf
  | set_riskFieldId x => RiskCondition.mk i f o v w d ci x
  end.

(** [Math.min(Number(value), 100 - otherWeights)] *)
Definition cappedWeight (conditionId : string) (value : float)
    (conds : list RiskCondition.t) : float :=
  let otherWeights :=
    sumWeightsOr0
      (List.filter
         (fun cond => negb (String.eqb (RiskCondition.id cond) conditionId))
         conds) in
  Math_min value (100 - otherWeights)%float.

(** [updateCondition(conditionId, field, value)] *)
Definition updateCondition (activeTab conditionId : string) (a : Assignment)
    (prev : list RiskCategory.t) : list RiskCategory.t :=
  map (fun cat =>
         if negb (String.eqb (RiskCategory.id cat) activeTab) then cat
         else
           let newConditions :=
             map (fun c =>
                    if String.eqb (RiskCondition.id c) conditionId then
                      match a with
                      | set_weight value =>
                          assign c
                            (set_weight
                               (cappedWeight conditionId value
                                  (RiskCategory.conditions cat)))
                      | _ => assign c a
                      end
                    else c)
                 (RiskCategory.conditions cat) in
           let totalWeight := sumWeightsOr0 newConditions in
           withTotals cat newConditions totalWeight (statusOf totalWeight))
      prev.

(** One call of an editing operation, and a sequence of calls. *)
Inductive Edit : Type :=
| add_condition (activeTab : string) (now : Z)
| remove_condition (activeTab conditionId : string)
| update_condition (activeTab conditionId : string) (a : Assignment).

Definition applyEdit (cats : list RiskCategory.t) (e : Edit)
  : list RiskCategory.t :=
  match e with
  | add_condition tab now => addCondition tab now cats
  | remove_condition tab conditionId => removeCondition tab conditionId cats
  | update_condition tab conditionId a => updateCondition tab conditionId a cats
  end.

Definition applyEdits (edits : list Edit) (cats : list RiskCategory.t)
  : list RiskCategory.t :=
  fold_left applyEdit edits cats.

(** The same number: the same double, or two zeros of either sign. *)
Definition sameNumber (a b : float) : Prop :=
  a = b \/ ((a =? 0)%float = true /\ (b =? 0)%float = true).

(** The total of a category is what adding the weights of its conditions from
    left to right, starting from 0, gives in double precision. *)
Definition sumsCorrectly (cat : RiskCategory.t) : Prop :=
  sameNumber (RiskCategory.totalWeight cat)
    (fold_left (fun sum c => (sum + RiskCondition.weight c)%float)
       (RiskCategory.conditions cat) 0%float).

(** No weight is [NaN]. *)
Definition numeric (cats : list RiskCategory.t) : bool :=
  forallb
    (fun cat =>
       forallb (fun c => negb (is_nan (RiskCondition.weight c)))
         (RiskCategory.conditions cat))
    cats.

(** No weight is [NaN] before, during or after a sequence of calls. *)
Fixpoint numericRun (edits : list Edit) (cats : list RiskCategory.t) : bool :=
  numeric cats
  && match edits with
     | [] => true
     | e :: rest => numericRun rest (applyEdit cats e)
     end.

(** The value of a finite double, in units of [2^-1074]: every finite double
    is a whole number of these. *)
Definition scaled (x : float) : option Z :=
  match Prim2SF x with
  | S754_zero _ => Some 0
  | S754_finite s m e =>
      Some ((if s then -1 else 1) * Z.pos m * 2 ^ (e + 1074))
  | _ => None
  end.

(** The sum of the weights as real numbers, in the same units. *)
Definition exactSum (conds : list RiskCondition.t) : option Z :=
  fold_left
    (fun sum c =>
       match sum, scaled (RiskCondition.weight c) with
       | Some a, Some x => Some (a + x)
       | _, _ => None
       end)
    conds (Some 0).

(** The total is the sum of the weights as real numbers. *)
Definition exactlySummed (cat : RiskCategory.t) : bool :=
  bool_decide
    (scaled (RiskCategory.totalWeight cat)
     = exactSum (RiskCategory.conditions cat)).

(** A category without conditions, and three conditions added to it within
    three milliseconds, for the examples. *)
Definition emptyFinancial : list RiskCategory.t :=
  [ RiskCategory.mk "financial" "Financial & Credit" [] 0%float incomplete ].

Definition threeAdded : list Edit :=
  [ add_condition "financial" 1730000000001;
    add_condition "financial" 1730000000002;
    add_condition "financial" 1730000000003 ].

End Double.

(** ** The platform: JSON, network, toasts, storage *)

(** The JSON values the components serialise. *)
#[warnings="-register-all"]
Inductive Json : Type :=
| JNumber (n : Z)
| JString (s : string)
| JArray (items : list Json)
| JObject (members : list (string * Json)).

(** A present optional key [k: n] of an object literal; an [undefined] value
    is left out by [JSON.stringify]. *)
Definition optionalMember (k : string) (n : option Z) : list (string * Json) :=
  match n with
  | Some x => [(k, JNumber x)]
  | None => []
  end.

Definition jsonOfStatus (s : Status) : Json :=
  match s with
  | incomplete => JString "incomplete"
  | complete => JString "complete"
  end.

Definition jsonOfCondition (c : RiskCondition.t) : Json :=
  JObject
    ([("id", JString (RiskCondition.id c));
      ("field", JString (RiskCondition.field c));
      ("operator", JString (RiskCondition.operator c));
      ("value", JString (RiskCondition.value c));
      ("weight", JNumber (RiskCondition.weight c));
      ("dataType", JString (RiskCondition.dataType c))]
     ++ optionalMember "configId" (RiskCondition.configId c)
     ++ optionalMember "riskFieldId" (RiskCondition.riskFieldId c)).

Definition jsonOfCategory (cat : RiskCategory.t) : Json :=
  JObject
    [("id", JString (RiskCategory.id cat));
     ("name", JString (RiskCategory.name cat));
     ("conditions", JArray (map jsonOfCondition (RiskCategory.conditions cat)));
     ("totalWeight", JNumber (RiskCategory.totalWeight cat));
     ("status", jsonOfStatus (RiskCategory.status cat))].

Definition jsonOfCategories (categories : list RiskCategory.t) : Json :=
  JArray (map jsonOfCategory categories).

(** [variant] of a toast: absent, or ["destructive"]. *)
Inductive ToastVariant : Type := plain | destructive.

Record Toast : Type := mkToast {
  title : string;
  description : string;
  variant : ToastVariant
}.

(** A call of [fetch]: [fetch(url)] is a GET without headers or body. *)
Record Request : Type := mkRequest {
  method : string;
  url : string;
  headers : list (string * string);
  body : option string
}.

(** What the components read of a response: [response.ok], and the result of
    [await response.json()]: [None] when that promise rejects or its value is
    not a list of items, so that the handler throws before it writes any
    state. *)
Record Response : Type := mkResponse {
  ok : bool;
  json : option (list ApiConfigItem.t)
}.

(** The promise [fetch] returns either rejects or resolves to a response. *)
Inductive FetchResult : Type :=
| rejected
| resolved (r : Response).

(** What the browser supplies while one handler runs. *)
Record Platform : Type := mkPlatform {
  network : Request -> FetchResult;
  JSON_stringify : Json -> string;
  Date_now : Z
}.

(** The component's state and what it has done to the outside. [toasts] and
    [requests] are logs, oldest first. *)
Record World : Type := mkWorld {
  categories : list RiskCategory.t;
  activeTab : string;
  loading : bool;
  toasts : list Toast;
  requests : list Request;
  localStorage : gmap string string
}.

(** ** Handlers as programs *)

Definition M (A : Type) : Type := Platform -> World -> Outcome A * World.

Definition ret {A : Type} (a : A) : M A := fun _ w => (returned a, w).

Definition bind {A B : Type} (m : M A) (k : A -> M B) : M B :=
  fun p w =>
    match m p w with
    | (returned a, w') => k a p w'
    | (thrown, w') => (thrown, w')
    end.

Notation "x <- m ;; k" := (bind m (fun x => k))
  (at level 100, m at next level, right associativity).
Notation "m ;; k" := (bind m (fun _ => k))
  (at level 100, right associativity).

(** [throw new Error(...)] *)
Definition throw {A : Type} : M A := fun _ w => (thrown, w).

(** [try { body } catch (error) { handler } finally { finalizer }] *)
Definition tryCatchFinally (body handler finalizer : M unit) : M unit :=
  fun p w =>
    let '(r, w1) :=
      match body p w with
      | (returned a, w') => (returned a, w')
      | (thrown, w') => handler p w'
      end in
    match finalizer p w1 with
    | (returned _, w2) => (r, w2)
    | (thrown, w2) => (thrown, w2)
    end.

(** The value of the state variable [categories]. *)
Definition getCategories : M (list RiskCategory.t) :=
  fun _ w => (returned (categories w), w).

Definition getActiveTab : M string :=
  fun _ w => (returned (activeTab w), w).

(** [setCategories((prev) => f(prev))]; [setCategories(v)] is the constant
    update. *)
Definition setCategories (f : list RiskCategory.t -> list RiskCategory.t)
  : M unit :=
  fun _ w =>
    (returned tt,
     mkWorld (f (categories w)) (activeTab w) (loading w) (toasts w)
       (requests w) (localStorage w)).

Definition setActiveTab (tab : string) : M unit :=
  fun _ w =>
    (returned tt,
     mkWorld (categories w) tab (loading w) (toasts w) (requests w)
       (localStorage w)).

Definition setLoading (b : bool) : M unit :=
  fun _ w =>
    (returned tt,
     mkWorld (categories w) (activeTab w) b (toasts w) (requests w)
       (localStorage w)).

(** [toast({ title, description, variant })] *)
Definition toast (t : Toast) : M unit :=
  fun _ w =>
    (returned tt,
     mkWorld (categories w) (activeTab w) (loading w) (toasts w ++ [t])
       (requests w) (localStorage w)).

(** [await fetch(...)]: the request is sent, then the promise settles. *)
Definition fetch (req : Request) : M Response :=
  fun p w =>
    let w' :=
      mkWorld (categories w) (activeTab w) (loading w) (toasts w)
        (requests w ++ [req]) (localStorage w) in
    match network p req with
    | rejected => (thrown, w')
    | resolved r => (returned r, w')
    end.

(** [await response.json()] *)
Definition responseJson (r : Response) : M (list ApiConfigItem.t) :=
  match json r with
  | Some data => ret data
  | None => throw
  end.

(** [JSON.stringify(v)] *)
Definition stringify (v : Json) : M string :=
  fun p w => (returned (JSON_stringify p v), w).

(** [Date.now()] *)
Definition dateNow : M Z := fun p w => (returned (Date_now p), w).

(** [localStorage.setItem(key, value)] *)
Definition setItem (key value : string) : M unit :=
  fun _ w =>
    (returned tt,
     mkWorld (categories w) (activeTab w) (loading w) (toasts w) (requests w)
       (<[key := value]> (localStorage w))).

(** The world a handler leaves behind. *)
Definition exec {A : Type} (m : M A) (p : Platform) (w : World) : World :=
  snd (m p w).

(** The handlers both components have. *)
Definition onAddCondition : M unit :=
  tab <- getActiveTab ;;
  now <- dateNow ;;
  setCategories (addCondition tab now).

Definition onRemoveCondition (conditionId : string) : M unit :=
  tab <- getActiveTab ;;
  setCategories (removeCondition tab conditionId).

Definition onUpdateCondition (conditionId : string) (a : Assignment) : M unit :=
  tab <- getActiveTab ;;
  setCategories (updateCondition tab conditionId a).

(** [previewRules()] *)
Definition previewRules : M unit :=
  toast (mkToast "Rules Preview" "Opening rules preview..." plain).

(** ** Loading and saving through the API *)

(** [entries.includes(fieldInfo)], where [fieldInfo] is an entry found in the
    table.  JavaScript compares the two objects by identity; the entries of
    each table below are pairwise different records, so there the same object
    is the same record. *)
Definition sameOption (a b : FieldOption.t) : bool :=
  String.eqb (FieldOption.name a) (FieldOption.name b)
  && String.eqb (FieldOption.dataType a) (FieldOption.dataType b)
  && bool_decide (FieldOption.riskFieldId a = FieldOption.riskFieldId b).

Definition includesOption (entries : list FieldOption.t)
    (fieldInfo : FieldOption.t) : bool :=
  existsb (sameOption fieldInfo) entries.

(** [Object.values(fieldOptions).flat().find(f => f.name === displayName)] *)
Definition findField (fieldOptions : FieldOptions) (displayName : string)
  : option FieldOption.t :=
  find (fun f => String.eqb (FieldOption.name f) displayName)
    (flatOptions fieldOptions).

(** The predicate of [data.filter(...)] in [fetchConfigurations]:
    [fieldInfo && Object.values(fieldOptions[category.id] || []).includes(fieldInfo)].
    [Object.values] of a member inherited from [Object.prototype] is empty, as
    it is of [[]], so only an own key contributes entries. *)
Definition belongsTo (fieldOptions : FieldOptions) (categoryId : string)
    (item : ApiConfigItem.t) : bool :=
  match findField fieldOptions (ApiConfigItem.DisplayName item) with
  | Some fieldInfo =>
      includesOption
        (match lookupKey fieldOptions categoryId with
         | Some entries => entries
         | None => []
         end)
        fieldInfo
  | None => false
  end.

(** The object [fetchConfigurations] builds from a response item. *)
Definition toCondition (fieldOptions : FieldOptions) (item : ApiConfigItem.t)
  : RiskCondition.t :=
  RiskCondition.mk
    (toString (ApiConfigItem.ConfigId item))
    (ApiConfigItem.DisplayName item)
    (ApiConfigItem.Operator item)
    (ApiConfigItem.Value item)
    (ApiConfigItem.WeightPercentage item)
    (orString
       (option_map FieldOption.dataType
          (findField fieldOptions (ApiConfigItem.DisplayName item)))
       "Number")
    (Some (ApiConfigItem.ConfigId item))
    (Some (ApiConfigItem.RiskFieldId item)).

(** [transformedCategories] of [fetchConfigurations] *)
Definition transformCategories (fieldOptions : FieldOptions)
    (categories : list RiskCategory.t) (data : list ApiConfigItem.t)
  : list RiskCategory.t :=
  map (fun category =>
         let categoryConditions :=
           map (toCondition fieldOptions)
             (List.filter (belongsTo fieldOptions (RiskCategory.id category)) data) in
         let totalWeight := sumWeights categoryConditions in
         withTotals category categoryConditions totalWeight (statusOf totalWeight))
      categories.

(** [a || d] where [a] is an optional number and [d] a number. *)
Definition orNumber (a : option Z) (d : Z) : Z :=
  match a with
  | Some n => if n =? 0 then d else n
  | None => d
  end.

(** [condition.riskFieldId || ...find(f => f.name === condition.field)?.riskFieldId || 1] *)
Definition riskFieldIdOf (fieldOptions : FieldOptions) (condition : RiskCondition.t)
  : Z :=
  orNumber
    (orElse (RiskCondition.riskFieldId condition)
       (match findField fieldOptions (RiskCondition.field condition) with
        | Some f => FieldOption.riskFieldId f
        | None => None
        end))
    1.

(** One element of [allConditions] in [saveConfigurations]. *)
Definition saveItem (fieldOptions : FieldOptions) (condition : RiskCondition.t)
  : Json :=
  JObject
    [("RiskFieldId", JNumber (riskFieldIdOf fieldOptions condition));
     ("Operator", JString (RiskCondition.operator condition));
     ("Value", JString (RiskCondition.value condition));
     ("WeightPercentage", JNumber (RiskCondition.weight condition))].

(** [allConditions] of [saveConfigurations] *)
Definition allConditions (fieldOptions : FieldOptions)
    (categories : list RiskCategory.t) : list Json :=
  flat_map
    (fun category => map (saveItem fieldOptions) (RiskCategory.conditions category))
    categories.

Module Api.

Definition fieldOptions : FieldOptions :=
  [ ("financial",
      [ FieldOption.mk "Loan Amount" "Number" (Some 1);
        FieldOption.mk "Outstanding Balance" "Number" (Some 2);
        FieldOption.mk "Days Past Due (DPD)" "Number" (Some 3);
        FieldOption.mk "Repayment History Score" "Number" (Some 4);
        FieldOption.mk "Credit Score (Experian/Equifax)" "Number" (Some 5);
        FieldOption.mk "Credit Utilisation Ratio" "Percentage" (Some 6);
        FieldOption.mk "Previous Defaults (count)" "Number" (Some 7);
        FieldOption.mk "Cost-to-Collect Estimate" "Number" (Some 8) ]);
    ("identity",
      [ FieldOption.mk "Name Match %" "Percentage" (Some 9);
        FieldOption.mk "Address Match %" "Percentage" (Some 10);
        FieldOption.mk "DOB Match" "Boolean" (Some 11);
        FieldOption.mk "National Insurance Number Match" "Boolean" (Some 12);
        FieldOption.mk "Identity Match Score (Weighted)" "Number" (Some 13) ]);
    ("property",
      [ FieldOption.mk "Years at Current Address" "Number" (Some 14);
        FieldOption.mk "Property Owned (Yes/No)" "Boolean" (Some 15);
        FieldOption.mk "Property Value" "Number" (Some 16);
        FieldOption.mk "Home Ownership Status" "Text" (Some 17);
        FieldOption.mk "Vehicle Owned (Yes/No)" "Boolean" (Some 18);
        FieldOption.mk "Stability Score" "Number" (Some 19) ]);
    ("contactability",
      [ FieldOption.mk "Contact Numbers Available (count)" "Number" (Some 20);
        FieldOption.mk "Validated Phone Number (Yes/No)" "Boolean" (Some 21);
        FieldOption.mk "Mobile Number Verified" "Boolean" (Some 22);
        FieldOption.mk "Number of Contactable Channels" "Number" (Some 23);
        FieldOption.mk "Agent Recovery Success Rate" "Percentage" (Some 24) ]);
    ("risk",
      [ FieldOption.mk "Criminal Record Flag (Yes/No)" "Boolean" (Some 25);
        FieldOption.mk "History of Defaults/CCJs" "Boolean" (Some 26);
        FieldOption.mk "Recent Missed Payments" "Number" (Some 27);
        FieldOption.mk "Same Name Cases Flag" "Boolean" (Some 28);
        FieldOption.mk "Loan Application Address Risk" "Text" (Some 29) ]) ].

(** The argument of [useState<RiskCategory[]>]. *)
Definition initialCategories : list RiskCategory.t :=
  [ RiskCategory.mk "financial" "Financial & Credit" [] 0 incomplete;
    RiskCategory.mk "identity" "Identity & Verification" [] 0 incomplete;
    RiskCategory.mk "property" "Property & Stability" [] 0 incomplete;
    RiskCategory.mk "contactability" "Contactability & Behaviour" [] 0 incomplete;
    RiskCategory.mk "risk" "Risk Factors" [] 0 incomplete ].

Definition initialWorld : World :=
  mkWorld initialCategories "financial" false [] [] ∅.

Definition getConfigRequest : Request :=
  mkRequest "GET"
    "https://marstonx-defaulterrankingapp.azurewebsites.net/api/GetConfig"
    [] None.

Definition saveConfigRequest (payload : string) : Request :=
  mkRequest "POST"
    "https://marstonx-defaulterrankingapp.azurewebsites.net/api/SaveConfig"
    [("Content-Type", "application/json")] (Some payload).

Definition loadFailedToast : Toast :=
  mkToast "Error" "Failed to load configurations" destructive.

Definition savedToast : Toast :=
  mkToast "Success" "Risk configurations updated successfully." plain.

Definition saveFailedToast : Toast :=
  mkToast "Error" "Failed to save configurations" destructive.

Definition invalidToast : Toast :=
  mkToast "Invalid Configuration"
    "All categories with conditions must have weights totaling 100%"
    destructive.

(** [fetchConfigurations()]; [categories] is the value the closure holds. *)
Definition fetchConfigurations : M unit :=
  categories <- getCategories ;;
  setLoading true ;;
  tryCatchFinally
    (response <- fetch getConfigRequest ;;
     data <- responseJson response ;;
     setCategories (fun _ => transformCategories fieldOptions categories data))
    (toast loadFailedToast)
    (setLoading false).

(** [saveConfigurations()] *)
Definition saveConfigurations : M unit :=
  categories <- getCategories ;;
  setLoading true ;;
  tryCatchFinally
    (payload <- stringify (JArray (allConditions fieldOptions categories)) ;;
     response <- fetch (saveConfigRequest payload) ;;
     if ok response then toast savedToast else throw)
    (toast saveFailedToast)
    (setLoading false).

(** [saveRules()] *)
Definition saveRules : M unit :=
  categories <- getCategories ;;
  let categoriesWithConditions :=
    List.filter
      (fun cat => Nat.ltb 0 (length (RiskCategory.conditions cat)))
      categories in
  let incompleteCategories :=
    List.filter
      (fun cat => negb (RiskCategory.totalWeight cat =? 100))
      categoriesWithConditions in
  if Nat.ltb 0 (length incompleteCategories)
  then toast invalidToast
  else saveConfigurations.

(** What the user, or mounting the component, can make happen. *)
Inductive Event : Type :=
| Mount
| SelectTab (tab : string)
| AddCondition
| RemoveCondition (conditionId : string)
| UpdateCondition (conditionId : string) (a : Assignment)
| SaveRules
| PreviewRules.

Definition handle (e : Event) : M unit :=
  match e with
  | Mount => fetchConfigurations
  | SelectTab tab => setActiveTab tab
  | AddCondition => onAddCondition
  | RemoveCondition conditionId => onRemoveCondition conditionId
  | UpdateCondition conditionId a => onUpdateCondition conditionId a
  | SaveRules => saveRules
  | PreviewRules => previewRules
  end.

(** The worlds the component can be in. *)
Inductive reachable : World -> Prop :=
| reach_initial : reachable initialWorld
| reach_event (w : World) (p : Platform) (e : Event) :
    reachable w -> reachable (exec (handle e) p w).

End Api.

(** ** The editor that saves to local storage *)

Module Local.

Definition fieldOptions : FieldOptions :=
  [ ("financial",
      [ FieldOption.mk "Loan Amount" "Number" None;
        FieldOption.mk "Outstanding Balance" "Number" None;
        FieldOption.mk "Days Past Due (DPD)" "Number" None;
        FieldOption.mk "Repayment History Score" "Number" None;
        FieldOption.mk "Previous Defaults (count)" "Number" None;
        FieldOption.mk "Cost-to-Collect Estimate" "Number" None ]);
    ("identity",
      [ FieldOption.mk "Name Match %" "Percentage" None;
        FieldOption.mk "Address Match %" "Percentage" None;
        FieldOption.mk "DOB Match" "Boolean" None;
        FieldOption.mk "National Insurance Number Match" "Boolean" None ]);
    ("property",
      [ FieldOption.mk "Years at Current Address" "Number" None;
        FieldOption.mk "Property Owned (Yes/No)" "Boolean" None;
        FieldOption.mk "Property Value" "Number" None;
        FieldOption.mk "Vehicle Owned (Yes/No)" "Boolean" None ]);
    ("contactability",
      [ FieldOption.mk "Contact Numbers Available (count)" "Number" None;
        FieldOption.mk "Validated Phone Number (Yes/No)" "Boolean" None;
        FieldOption.mk "Number of Contactable Channels" "Number" None;
        FieldOption.mk "Agent Recovery Success Rate" "Percentage" None ]);
    ("risk",
      [ FieldOption.mk "Criminal Record Flag (Yes/No)" "Boolean" None;
        FieldOption.mk "Recent Missed Payments" "Number" None ]) ].

(** The argument of [useState<RiskCategory[]>]. *)
Definition initialCategories : list RiskCategory.t :=
  [ RiskCategory.mk "financial" "Financial & Credit"
      [ RiskCondition.mk "1" "Loan Amount" ">" "5000" 40 "Number" None None;
        RiskCondition.mk "2" "Outstanding Balance" "=" "1500" 15 "Number" None None ]
      55 incomplete;
    RiskCategory.mk "identity" "Identity & Verification" [] 0 incomplete;
    RiskCategory.mk "property" "Property & Stability" [] 0 incomplete;
    RiskCategory.mk "contactability" "Contactability & Behaviour" [] 0 incomplete;
    RiskCategory.mk "risk" "Risk Factors" [] 0 incomplete ].

Definition initialWorld : World :=
  mkWorld initialCategories "financial" false [] [] ∅.

Definition rulesSavedToast : Toast :=
  mkToast "Rules Saved"
    "Scoring Configuration has been saved successfully. Dashboard will reflect these changes."
    plain.

(** [saveRules()] *)
Definition saveRules : M unit :=
  categories <- getCategories ;;
  serialized <- stringify (jsonOfCategories categories) ;;
  setItem "riskCategories" serialized ;;
  toast rulesSavedToast.

Inductive Event : Type :=
| SelectTab (tab : string)
| AddCondition
| RemoveCondition (conditionId : string)
| UpdateCondition (conditionId : string) (a : Assignment)
| SaveRules
| PreviewRules.

Definition handle (e : Event) : M unit :=
  match e with
  | SelectTab tab => setActiveTab tab
  | AddCondition => onAddCondition
  | RemoveCondition conditionId => onRemoveCondition conditionId
  | UpdateCondition conditionId a => onUpdateCondition conditionId a
  | SaveRules => saveRules
  | PreviewRules => previewRules
  end.

(** The worlds the component can be in. *)
Inductive reachable : World -> Prop :=
| reach_initial : reachable initialWorld
| reach_event (w : World) (p : Platform) (e : Event) :
    reachable w -> reachable (exec (handle e) p w).

End Local.

(** ** The rest of the view: operators, field selection *)

(** An element of the arrays [getOperatorsForDataType] returns. *)
Module OperatorOption.
Record t : Type := mk {
  value : string;
  label : string
}.
End OperatorOption.

(** [getOperatorsForDataType(dataType)] *)
Definition getOperatorsForDataType (dataType : string)
  : list OperatorOption.t :=
  if String.eqb dataType "Boolean" then
    [ OperatorOption.mk "=" "=" ]
  else if String.eqb dataType "Text" then
    [ OperatorOption.mk "=" "=";
      OperatorOption.mk "!=" "!=" ]
  else if String.eqb dataType "Number" || String.eqb dataType "Percentage" then
    [ OperatorOption.mk ">" ">";
      OperatorOption.mk "<" "<";
      OperatorOption.mk "=" "=";
      OperatorOption.mk ">=" "≥";
      OperatorOption.mk "<=" "≤" ]
  else
    [ OperatorOption.mk ">" ">";
      OperatorOption.mk "<" "<";
      OperatorOption.mk "=" "=" ].

(** [isUsed] of an item of the field dropdown in the row of [condition]:
    [activeCategory.conditions.some((c) => c.field === field.name && c.id !== condition.id)];
    the item is disabled when it holds. *)
Definition isUsed (activeCategory : RiskCategory.t)
    (condition : RiskCondition.t) (field : FieldOption.t) : bool :=
  existsb
    (fun c =>
       String.eqb (RiskCondition.field c) (FieldOption.name field)
       && negb (String.eqb (RiskCondition.id c) (RiskCondition.id condition)))
    (RiskCategory.conditions activeCategory).

(** [fieldOptions[activeTab]?.find((f) => f.name === value)].  The dropdown
    is rendered only under the category whose id is [activeTab], and the
    category ids are own keys of [fieldOptions]. *)
Definition selectedField (fieldOptions : FieldOptions) (activeTab value : string)
  : option FieldOption.t :=
  match lookupKey fieldOptions activeTab with
  | Some entries =>
      find (fun f => String.eqb (FieldOption.name f) value) entries
  | None => None
  end.

(** [onValueChange] of the field dropdown in the API-backed editor: the field,
    then, for a known field, its data type and its risk field id. *)
Definition onFieldChange (fieldOptions : FieldOptions)
    (conditionId value : string) : M unit :=
  tab <- getActiveTab ;;
  let selected := selectedField fieldOptions tab value in
  onUpdateCondition conditionId (set_field value) ;;
  match selected with
  | Some f =>
      onUpdateCondition conditionId (set_dataType (FieldOption.dataType f)) ;;
      onUpdateCondition conditionId (set_riskFieldId (FieldOption.riskFieldId f))
  | None => ret tt
  end.

(** [onValueChange] of the field dropdown in the local editor: the field,
    then, for a known field, its data type. *)
Definition onFieldChangeLocal (fieldOptions : FieldOptions)
    (conditionId value : string) : M unit :=
  tab <- getActiveTab ;;
  let selected := selectedField fieldOptions tab value in
  onUpdateCondition conditionId (set_field value) ;;
  match selected with
  | Some f =>
      onUpdateCondition conditionId (set_dataType (FieldOption.dataType f))
  | None => ret tt
  end.

(** ** Notions used to state the properties *)

(** The status of a category says whether its total is 100. *)
Definition statusConsistent (cat : RiskCategory.t) : Prop :=
  (RiskCategory.status cat = complete <-> RiskCategory.totalWeight cat = 100)
  /\ (RiskCategory.status cat = incomplete <-> RiskCategory.totalWeight cat <> 100).

(** The total of a category is the sum of the weights of its conditions. *)
Definition sumsCorrectly (cat : RiskCategory.t) : Prop :=
  RiskCategory.totalWeight cat = sumWeights (RiskCategory.conditions cat).

(** One call of an editing operation, with the tab that is active and, for
    [addCondition], the time of the call. *)
Inductive Edit : Type :=
| add_condition (activeTab : string) (now : Z)
| remove_condition (activeTab conditionId : string)
| update_condition (activeTab conditionId : string) (a : Assignment).

Definition applyEdit (cats : list RiskCategory.t) (e : Edit)
  : list RiskCategory.t :=
  match e with
  | add_condition tab now => addCondition tab now cats
  | remove_condition tab conditionId => removeCondition tab conditionId cats
  | update_condition tab conditionId a => updateCondition tab conditionId a cats
  end.

(** A sequence of calls, the first of the list first. *)
Definition applyEdits (edits : list Edit) (cats : list RiskCategory.t)
  : list RiskCategory.t :=
  fold_left applyEdit edits cats.

(** The sum of the absolute values of the weights.  It bounds every partial
    sum a [reduce] over the conditions goes through. *)
Definition magnitude (conds : list RiskCondition.t) : Z :=
  fold_left (fun m c => m + Z.abs (RiskCondition.weight c)) conds 0.

(** Whole numbers below [2^53] in absolute value are doubles, and a sum or
    difference of two of them that stays below [2^53] is computed without
    rounding ([asDouble_add], [asDouble_sub]).  When the absolute values of
    the weights of a category add up to at most [2^51], every partial sum of
    its weights is within [2^51], and so are the sum [s] of the other weights
    and, up to 100, the cap [100 - s]; with a requested weight of at most
    [2^51] in absolute value, the one weight an update of a condition with an
    id of its own stores, and the new total, stay below [2^53].  There the
    integers of this model are the doubles of the source
    ([updateCondition_whole], [applyEdits_whole]). *)
Definition wholeRange : Z := 2 ^ 51.

Definition inRange (cats : list RiskCategory.t) : bool :=
  forallb (fun cat => magnitude (RiskCategory.conditions cat) <=? wholeRange)
    cats.

Definition requestInRange (e : Edit) : bool :=
  match e with
  | update_condition _ _ (set_weight v) => Z.abs v <=? wholeRange
  | _ => true
  end.

(** Every call of a sequence finds the weights in range, asks for a weight in
    range and leaves the weights in range. *)
Fixpoint runInRange (edits : list Edit) (cats : list RiskCategory.t) : bool :=
  inRange cats
  && match edits with
     | [] => true
     | e :: rest => requestInRange e && runInRange rest (applyEdit cats e)
     end.

(** A whole number as a double, and the states and calls of the integer
    model as states and calls on doubles. *)
Definition asDouble (z : Z) : float :=
  if z <? 0 then (- of_uint63 (Uint63.of_Z (- z)))%float
  else of_uint63 (Uint63.of_Z z).

Definition conditionAsDouble (c : RiskCondition.t) : Double.RiskCondition.t :=
  Double.RiskCondition.mk (RiskCondition.id c) (RiskCondition.field c)
    (RiskCondition.operator c) (RiskCondition.value c)
    (asDouble (RiskCondition.weight c)) (RiskCondition.dataType c)
    (RiskCondition.configId c) (RiskCondition.riskFieldId c).

Definition categoryAsDouble (cat : RiskCategory.t) : Double.RiskCategory.t :=
  Double.RiskCategory.mk (RiskCategory.id cat) (RiskCategory.name cat)
    (map conditionAsDouble (RiskCategory.conditions cat))
    (asDouble (RiskCategory.totalWeight cat)) (RiskCategory.status cat).

Definition assignmentAsDouble (a : Assignment) : Double.Assignment :=
  match a with
  | set_id x => Double.set_id x
  | set_field x => Double.set_field x
  | set_operator x => Double.set_operator x
  | set_value x => Double.set_value x
  | set_weight x => Double.set_weight (asDouble x)
  | set_dataType x => Double.set_dataType x
  | set_configId x => Double.set_configId x
  | set_riskFieldId x => Double.set_riskFieldId x
  end.

Definition editAsDouble (e : Edit) : Double.Edit :=
  match e with
  | add_condition tab now => Double.add_condition tab now
  | remove_condition tab conditionId => Double.remove_condition tab conditionId
  | update_condition tab conditionId a =>
      Double.update_condition tab conditionId (assignmentAsDouble a)
  end.

(** The double of a whole number, as the IEEE 754 datum: the number's binary
    digits moved to the top of a mantissa of 53 bits. *)
Definition shiftP (m : positive) (n : Z) : positive :=
  match n with
  | Zpos p => Pos.iter xO m p
  | _ => m
  end.

Definition norm (s : bool) (m : positive) : spec_float :=
  S754_finite s (shiftP m (53 - Z.pos (digits2_pos m)))
    (Z.pos (digits2_pos m) - 53).

(** The double that is the whole number [z]. *)
Definition whole (z : Z) : spec_float :=
  if z =? 0 then S754_zero false else norm (z <? 0) (Z.to_pos (Z.abs z)).

(** The sum of the weights of the conditions other than the one at position
    [i]. *)
Definition othersWeight (i : nat) (conds : list RiskCondition.t) : Z :=
  sumWeights (take i conds ++ drop (S i) conds).

(** A category that does not stop [saveRules]: it has no condition, or its
    total is 100. *)
Definition savable (cat : RiskCategory.t) : bool :=
  negb (Nat.ltb 0 (length (RiskCategory.conditions cat)))
  || (RiskCategory.totalWeight cat =? 100).



(** The entries written under [key] in [fieldOptions]; none for a string that
    is no key of the object literal. *)
Definition entriesOf (fieldOptions : FieldOptions) (key : string)
  : list FieldOption.t :=
  match lookupKey fieldOptions key with
  | Some entries => entries
  | None => []
  end.

(** The [RiskFieldId] sent for a condition is [n]: its own [riskFieldId] when
    that is set and not 0; else the [riskFieldId] of the entry of the table
    named like its field; else 1. *)
Definition sentRiskFieldId (fo : FieldOptions) (c : RiskCondition.t) (n : Z)
  : Prop :=
  (RiskCondition.riskFieldId c = Some n /\ n <> 0)
  \/ ((RiskCondition.riskFieldId c = None \/ RiskCondition.riskFieldId c = Some 0)
      /\ ((exists f, In f (flatOptions fo)
                     /\ FieldOption.name f = RiskCondition.field c
                     /\ FieldOption.riskFieldId f = Some n)
          \/ ((forall f, In f (flatOptions fo) ->
                         FieldOption.name f <> RiskCondition.field c)
              /\ n = 1))).

(** The condition a response item becomes in a category whose field options
    are [entries]. *)
Definition conditionFor (entries : list FieldOption.t)
    (item : ApiConfigItem.t) (c : RiskCondition.t) : Prop :=
  RiskCondition.id c = toString (ApiConfigItem.ConfigId item)
  /\ RiskCondition.field c = ApiConfigItem.DisplayName item
  /\ RiskCondition.operator c = ApiConfigItem.Operator item
  /\ RiskCondition.value c = ApiConfigItem.Value item
  /\ RiskCondition.weight c = ApiConfigItem.WeightPercentage item
  /\ RiskCondition.configId c = Some (ApiConfigItem.ConfigId item)
  /\ RiskCondition.riskFieldId c = Some (ApiConfigItem.RiskFieldId item)
  /\ exists f, In f entries
               /\ FieldOption.name f = ApiConfigItem.DisplayName item
               /\ RiskCondition.dataType c = FieldOption.dataType f.

(** Two response items that differ at most in [IsEnabled]. *)
Definition sameButIsEnabled (a b : ApiConfigItem.t) : Prop :=
  ApiConfigItem.ConfigId a = ApiConfigItem.ConfigId b
  /\ ApiConfigItem.RiskFieldId a = ApiConfigItem.RiskFieldId b
  /\ ApiConfigItem.Operator a = ApiConfigItem.Operator b
  /\ ApiConfigItem.Value a = ApiConfigItem.Value b
  /\ ApiConfigItem.WeightPercentage a = ApiConfigItem.WeightPercentage b
  /\ ApiConfigItem.CreatedAt a = ApiConfigItem.CreatedAt b
  /\ ApiConfigItem.FieldName a = ApiConfigItem.FieldName b
  /\ ApiConfigItem.DisplayName a = ApiConfigItem.DisplayName b.

(** What choosing [value] in the field dropdown of the API-backed editor makes
    of a condition, [selected] being the field option found for [value]. *)
Definition withChosenField (selected : option FieldOption.t) (value : string)
    (c : RiskCondition.t) : RiskCondition.t :=
  RiskCondition.mk (RiskCondition.id c) value (RiskCondition.operator c)
    (RiskCondition.value c) (RiskCondition.weight c)
    (match selected with
     | Some f => FieldOption.dataType f
     | None => RiskCondition.dataType c
     end)
    (RiskCondition.configId c)
    (match selected with
     | Some f => FieldOption.riskFieldId f
     | None => RiskCondition.riskFieldId c
     end).

(** The same in the local editor, which leaves [riskFieldId] alone. *)
Definition withChosenFieldLocal (selected : option FieldOption.t)
    (value : string) (c : RiskCondition.t) : RiskCondition.t :=
  RiskCondition.mk (RiskCondition.id c) value (RiskCondition.operator c)
    (RiskCondition.value c) (RiskCondition.weight c)
    (match selected with
     | Some f => FieldOption.dataType f
     | None => RiskCondition.dataType c
     end)
    (RiskCondition.configId c) (RiskCondition.riskFieldId c).

(** A category whose conditions with the id [conditionId] are changed by
    [change] and whose totals are recomputed. *)
Definition withChanged (conditionId : string)
    (change : RiskCondition.t -> RiskCondition.t) (cat : RiskCategory.t)
  : RiskCategory.t :=
  withTotals cat
    (map (fun c =>
            if String.eqb (RiskCondition.id c) conditionId then change c else c)
       (RiskCategory.conditions cat))
    (sumWeights (RiskCategory.conditions cat))
    (statusOf (sumWeights (RiskCategory.conditions cat))).

(** A server that answers every request with [data]. *)
Definition serving (data : list ApiConfigItem.t) : Platform :=
  mkPlatform (fun _ => resolved (mkResponse true (Some data)))
    (fun _ => "null") 1730000000000.

(** A browser without network, for examples. *)
Definition offline : Platform :=
  mkPlatform (fun _ => rejected) (fun _ => "null") 1730000000000.

(** JSON text as [JSON.stringify] writes it, without white space: the
    serialiser of the browser of the examples. *)
Definition charOf (code : nat) : string := String (Ascii.ascii_of_nat code) "".

Definition hexDigit (n : nat) : string :=
  match String.get n "0123456789abcdef" with
  | Some c => String c ""
  | None => ""
  end.

(** A character inside a JSON string: the quote, the backslash and the control
    characters are escaped. *)
Definition escape (c : Ascii.ascii) : string :=
  let code := Ascii.nat_of_ascii c in
  if Nat.eqb code 34 then charOf 92 +:+ charOf 34
  else if Nat.eqb code 92 then charOf 92 +:+ charOf 92
  else if Nat.eqb code 8 then charOf 92 +:+ "b"
  else if Nat.eqb code 9 then charOf 92 +:+ "t"
  else if Nat.eqb code 10 then charOf 92 +:+ "n"
  else if Nat.eqb code 12 then charOf 92 +:+ "f"
  else if Nat.eqb code 13 then charOf 92 +:+ "r"
  else if Nat.ltb code 32
       then charOf 92 +:+ "u00" +:+ hexDigit (code / 16) +:+ hexDigit (code mod 16)
  else String c "".

Fixpoint escaped (s : string) : string :=
  match s with
  | EmptyString => ""
  | String c rest => escape c +:+ escaped rest
  end.

Definition quoted (s : string) : string :=
  charOf 34 +:+ escaped s +:+ charOf 34.

Fixpoint serialize (v : Json) : string :=
  match v with
  | JNumber n => toString n
  | JString s => quoted s
  | JArray items =>
      "[" +:+
      (fix elements (l : list Json) : string :=
         match l with
         | [] => ""
         | x :: rest =>
             serialize x +:+
             match rest with [] => "" | _ => "," +:+ elements rest end
         end) items
      +:+ "]"
  | JObject members =>
      "{" +:+
      (fix pairs (l : list (string * Json)) : string :=
         match l with
         | [] => ""
         | (k, x) :: rest =>
             quoted k +:+ ":" +:+ serialize x +:+
             match rest with [] => "" | _ => "," +:+ pairs rest end
         end) members
      +:+ "}"
  end.

(** A browser without network whose [JSON.stringify] is [serialize]. *)
Definition printing : Platform :=
  mkPlatform (fun _ => rejected) serialize 1730000000000.

(** * Properties *)

(** ** Lists *)

Lemma lookup_map {A B : Type} (f : A -> B) (l : list A) (i : nat) :
  map f l !! i = option_map f (l !! i).
Proof.
  revert i. induction l as [|x l IH]; intros [|i]; simpl; auto.
Qed.

Lemma filter_all {A : Type} (keep : A -> bool) (l : list A) :
  (forall x, In x l -> keep x = true) -> List.filter keep l = l.
Proof.
  induction l as [|x l IH]; intros H; simpl; [reflexivity|].
  rewrite (H x) by (left; reflexivity).
  f_equal. apply IH. intros y Hy. apply H. right. exact Hy.
Qed.

(** A filter that drops exactly the element at position [i]. *)
Lemma filter_drops_one {A : Type} (keep : A -> bool) (l : list A) (i : nat)
    (x : A) :
  l !! i = Some x ->
  keep x = false ->
  (forall j y, j <> i -> l !! j = Some y -> keep y = true) ->
  List.filter keep l = take i l ++ drop (S i) l.
Proof.
  revert i. induction l as [|h l IH]; intros [|i] Hx Hk Hothers;
    simpl in *; try discriminate.
  - injection Hx as ->. rewrite Hk.
    apply filter_all. intros y Hy.
    apply list_elem_of_In, list_elem_of_lookup in Hy as [j Hj].
    apply (Hothers (S j) y); [lia | exact Hj].
  - rewrite (Hothers 0%nat h) by (reflexivity || lia).
    f_equal. apply (IH i Hx Hk).
    intros j y Hj Hy. apply (Hothers (S j) y); [lia | exact Hy].
Qed.

(** A map that changes exactly the element at position [i]. *)
Lemma map_changes_one {A : Type} (g : A -> A) (l : list A) (i : nat) (x : A) :
  l !! i = Some x ->
  (forall j y, j <> i -> l !! j = Some y -> g y = y) ->
  map g l = <[i := g x]> l.
Proof.
  intros Hx Hothers. apply list_eq. intros j.
  rewrite lookup_map.
  destruct (decide (j = i)) as [->|Hne].
  - rewrite Hx, list_lookup_insert_eq by (eapply lookup_lt_Some, Hx).
    reflexivity.
  - rewrite list_lookup_insert_ne by congruence.
    destruct (l !! j) as [y|] eqn:Hy; simpl; [|reflexivity].
    f_equal. apply (Hothers j y Hne Hy).
Qed.

Lemma find_none_all {A : Type} (test : A -> bool) (l : list A) :
  find test l = None <-> (forall x, In x l -> test x = false).
Proof.
  induction l as [|x l IH]; simpl.
  - split; [intros _ y []|reflexivity].
  - destruct (test x) eqn:E.
    + split; [discriminate|]. intros H.
      rewrite (H x) in E by (left; reflexivity). discriminate.
    + rewrite IH. split.
      * intros H y [<-|Hy]; [exact E | exact (H y Hy)].
      * intros H y Hy. apply H. right. exact Hy.
Qed.

Lemma map_unchanged {A : Type} (g : A -> A) (l : list A) :
  (forall x, In x l -> g x = x) -> map g l = l.
Proof.
  induction l as [|x l IH]; intros H; simpl; [reflexivity|].
  rewrite (H x) by (left; reflexivity).
  f_equal. apply IH. intros y Hy. apply H. right. exact Hy.
Qed.

Lemma app_one_neq {A : Type} (l : list A) (x : A) : l ++ [x] <> l.
Proof.
  intros H. apply (f_equal (@length A)) in H.
  rewrite length_app in H. simpl in H. lia.
Qed.

Lemma filter_decide {A : Type} (keep : A -> bool) (P : A -> Prop)
    `{forall x, Decision (P x)} (l : list A) :
  (forall x, keep x = true <-> P x) ->
  List.filter keep l = filter P l.
Proof.
  intros Hkeep. induction l as [|x l IH]; simpl; [reflexivity|].
  rewrite filter_cons, IH.
  destruct (decide (P x)) as [HP|HP].
  - apply Hkeep in HP. rewrite HP. reflexivity.
  - destruct (keep x) eqn:E; [|reflexivity].
    apply Hkeep in E. destruct (HP E).
Qed.

(** ** Sums and statuses *)

Lemma numberOr0_id (w : Z) : numberOr0 w = w.
Proof. unfold numberOr0. destruct (Z.eqb_spec w 0); congruence. Qed.

Lemma fold_weights_from (conds : list RiskCondition.t) (a : Z) :
  fold_left (fun sum c => sum + RiskCondition.weight c) conds a
  = a + sumWeights conds.
Proof.
  unfold sumWeights. revert a.
  induction conds as [|c conds IH]; intros a; simpl.
  - lia.
  - rewrite (IH (a + _)), (IH (0 + _)). lia.
Qed.

Lemma sumWeights_cons (c : RiskCondition.t) (conds : list RiskCondition.t) :
  sumWeights (c :: conds) = RiskCondition.weight c + sumWeights conds.
Proof. unfold sumWeights at 1. simpl. apply fold_weights_from. Qed.

Lemma sumWeights_app (xs ys : list RiskCondition.t) :
  sumWeights (xs ++ ys) = sumWeights xs + sumWeights ys.
Proof.
  induction xs as [|c xs IH]; simpl.
  - reflexivity.
  - rewrite !sumWeights_cons, IH. lia.
Qed.

Lemma sumWeightsOr0_eq (conds : list RiskCondition.t) :
  sumWeightsOr0 conds = sumWeights conds.
Proof.
  unfold sumWeightsOr0, sumWeights. generalize 0.
  induction conds as [|c conds IH]; intros a; simpl.
  - reflexivity.
  - rewrite numberOr0_id. apply IH.
Qed.

Lemma statusOf_complete (total : Z) : statusOf total = complete <-> total = 100.
Proof.
  unfold statusOf. destruct (Z.eqb_spec total 100); split; congruence.
Qed.

Lemma statusOf_incomplete (total : Z) :
  statusOf total = incomplete <-> total <> 100.
Proof.
  unfold statusOf. destruct (Z.eqb_spec total 100); split; congruence.
Qed.

Lemma withTotals_consistent (cat : RiskCategory.t)
    (conds : list RiskCondition.t) (total : Z) :
  statusConsistent (withTotals cat conds total (statusOf total)).
Proof.
  split; simpl; [apply statusOf_complete | apply statusOf_incomplete].
Qed.

(** A map that sends every category to one with the property keeps the
    property of the list. *)
Lemma Forall_map_categories (P : RiskCategory.t -> Prop)
    (f : RiskCategory.t -> RiskCategory.t) (cats : list RiskCategory.t) :
  (forall cat, P cat -> P (f cat)) ->
  Forall P cats -> Forall P (map f cats).
Proof.
  intros Hf H. induction H; simpl; constructor; auto.
Qed.

(** With or without the guard on [activeCategory], the result is the map. *)
Lemma addCondition_as_map (tab : string) (now : Z)
    (cats : list RiskCategory.t) :
  addCondition tab now cats
  = map (fun cat =>
           if String.eqb (RiskCategory.id cat) tab
           then withConditions cat
                  (RiskCategory.conditions cat ++ [newCondition now])
           else cat)
        cats.
Proof.
  unfold addCondition.
  destruct (find _ cats) eqn:E; [reflexivity|].
  symmetry. apply map_unchanged. intros cat Hcat.
  rewrite find_none_all in E. rewrite (E cat Hcat). reflexivity.
Qed.

Lemma addCondition_consistent (tab : string) (now : Z)
    (cats : list RiskCategory.t) :
  Forall statusConsistent cats ->
  Forall statusConsistent (addCondition tab now cats).
Proof.
  intros H. unfold addCondition.
  destruct (find _ cats); [|exact H].
  apply Forall_map_categories; [|exact H].
  intros cat Hc. destruct (String.eqb _ _); exact Hc.
Qed.

Lemma removeCondition_consistent (tab conditionId : string)
    (cats : list RiskCategory.t) :
  Forall statusConsistent cats ->
  Forall statusConsistent (removeCondition tab conditionId cats).
Proof.
  intros H. apply Forall_map_categories; [|exact H].
  intros cat Hc. destruct (String.eqb _ _); [|exact Hc].
  apply withTotals_consistent.
Qed.

Lemma updateCondition_consistent (tab conditionId : string) (a : Assignment)
    (cats : list RiskCategory.t) :
  Forall statusConsistent cats ->
  Forall statusConsistent (updateCondition tab conditionId a cats).
Proof.
  intros H. apply Forall_map_categories; [|exact H].
  intros cat Hc. destruct (negb _); [exact Hc|].
  apply withTotals_consistent.
Qed.

Lemma transformCategories_consistent (fo : FieldOptions)
    (cats : list RiskCategory.t) (data : list ApiConfigItem.t) :
  Forall statusConsistent (transformCategories fo cats data).
Proof.
  unfold transformCategories. induction cats as [|cat cats IH]; simpl.
  - constructor.
  - constructor; [apply withTotals_consistent | exact IH].
Qed.

(** ** What the handlers do to the world *)

(** The world with the request log extended and the loading flag cleared, as
    every network handler leaves it. *)
Lemma fetchConfigurations_run (p : Platform) (w : World) :
  Api.fetchConfigurations p w =
  (returned tt,
   match network p Api.getConfigRequest with
   | resolved (mkResponse _ (Some data)) =>
       mkWorld (transformCategories Api.fieldOptions (categories w) data)
         (activeTab w) false (toasts w)
         (requests w ++ [Api.getConfigRequest]) (localStorage w)
   | _ =>
       mkWorld (categories w) (activeTab w) false
         (toasts w ++ [Api.loadFailedToast])
         (requests w ++ [Api.getConfigRequest]) (localStorage w)
   end).
Proof.
  unfold Api.fetchConfigurations, bind, getCategories, setLoading,
    tryCatchFinally, fetch, responseJson, setCategories, toast, ret, throw.
  simpl.
  destruct (network p Api.getConfigRequest) as [|[o [data|]]]; reflexivity.
Qed.

Lemma saveConfigurations_run (p : Platform) (w : World) :
  let request :=
    Api.saveConfigRequest
      (JSON_stringify p (JArray (allConditions Api.fieldOptions (categories w)))) in
  Api.saveConfigurations p w =
  (returned tt,
   mkWorld (categories w) (activeTab w) false
     (toasts w ++
        [match network p request with
         | resolved (mkResponse true _) => Api.savedToast
         | _ => Api.saveFailedToast
         end])
     (requests w ++ [request]) (localStorage w)).
Proof.
  unfold Api.saveConfigurations, bind, getCategories, setLoading,
    tryCatchFinally, fetch, stringify, toast, ret, throw.
  simpl.
  destruct (network p _) as [|[[|] d]]; reflexivity.
Qed.

Lemma incomplete_categories_none (cats : list RiskCategory.t) :
  Nat.ltb 0
    (length
       (List.filter (fun cat => negb (RiskCategory.totalWeight cat =? 100))
          (List.filter
             (fun cat => Nat.ltb 0 (length (RiskCategory.conditions cat)))
             cats)))
  = negb (forallb savable cats).
Proof.
  induction cats as [|cat cats IH]; simpl; [reflexivity|].
  unfold savable at 1.
  destruct (Nat.ltb 0 (length (RiskCategory.conditions cat))); simpl.
  - destruct (RiskCategory.totalWeight cat =? 100); simpl; [exact IH|reflexivity].
  - exact IH.
Qed.

Lemma saveRules_run (p : Platform) (w : World) :
  Api.saveRules p w =
  if forallb savable (categories w)
  then Api.saveConfigurations p w
  else toast Api.invalidToast p w.
Proof.
  unfold Api.saveRules, bind, getCategories. simpl.
  rewrite incomplete_categories_none.
  destruct (forallb savable (categories w)); reflexivity.
Qed.

Lemma onAddCondition_run (p : Platform) (w : World) :
  onAddCondition p w =
  (returned tt,
   mkWorld (addCondition (activeTab w) (Date_now p) (categories w))
     (activeTab w) (loading w) (toasts w) (requests w) (localStorage w)).
Proof. reflexivity. Qed.

Lemma onRemoveCondition_run (conditionId : string) (p : Platform) (w : World) :
  onRemoveCondition conditionId p w =
  (returned tt,
   mkWorld (removeCondition (activeTab w) conditionId (categories w))
     (activeTab w) (loading w) (toasts w) (requests w) (localStorage w)).
Proof. reflexivity. Qed.

Lemma onUpdateCondition_run (conditionId : string) (a : Assignment)
    (p : Platform) (w : World) :
  onUpdateCondition conditionId a p w =
  (returned tt,
   mkWorld (updateCondition (activeTab w) conditionId a (categories w))
     (activeTab w) (loading w) (toasts w) (requests w) (localStorage w)).
Proof. reflexivity. Qed.

Lemma local_saveRules_run (p : Platform) (w : World) :
  Local.saveRules p w =
  (returned tt,
   mkWorld (categories w) (activeTab w) (loading w)
     (toasts w ++ [Local.rulesSavedToast]) (requests w)
     (<["riskCategories" := JSON_stringify p (jsonOfCategories (categories w))]>
        (localStorage w))).
Proof. reflexivity. Qed.

(** Saving, with or without a request, never writes [categories]. *)
Lemma saveRules_categories (p : Platform) (w : World) :
  categories (exec Api.saveRules p w) = categories w.
Proof.
  unfold exec. rewrite saveRules_run.
  destruct (forallb savable (categories w)).
  - pose proof (saveConfigurations_run p w) as H. simpl in H. rewrite H.
    reflexivity.
  - reflexivity.
Qed.

Lemma api_event_consistent (e : Api.Event) (p : Platform) (w : World) :
  Forall statusConsistent (categories w) ->
  Forall statusConsistent (categories (exec (Api.handle e) p w)).
Proof.
  intros H. destruct e; simpl.
  - unfold exec. rewrite fetchConfigurations_run. simpl.
    destruct (network p Api.getConfigRequest) as [|[o [data|]]]; simpl;
      auto using transformCategories_consistent.
  - exact H.
  - apply addCondition_consistent, H.
  - apply removeCondition_consistent, H.
  - apply updateCondition_consistent, H.
  - rewrite saveRules_categories. exact H.
  - exact H.
Qed.

Lemma local_event_consistent (e : Local.Event) (p : Platform) (w : World) :
  Forall statusConsistent (categories w) ->
  Forall statusConsistent (categories (exec (Local.handle e) p w)).
Proof.
  intros H. destruct e; simpl.
  - exact H.
  - apply addCondition_consistent, H.
  - apply removeCondition_consistent, H.
  - apply updateCondition_consistent, H.
  - exact H.
  - exact H.
Qed.

Lemma initial_categories_consistent :
  Forall statusConsistent Api.initialCategories
  /\ Forall statusConsistent Local.initialCategories.
Proof.
  split; repeat constructor; simpl; try congruence; try lia.
Qed.

(** C1. In every world either component can reach, hence after every
    [addCondition], [removeCondition], [updateCondition] and successful
    [fetchConfigurations], each category has status ["complete"] exactly when
    its [totalWeight] is 100 and ["incomplete"] exactly when it is not. *)
Theorem status_complete_iff_total_100 (w : World) :
  Api.reachable w \/ Local.reachable w ->
  Forall statusConsistent (categories w).
Proof.
  intros [H|H].
  - induction H as [|w p e _ IH].
    + apply initial_categories_consistent.
    + apply api_event_consistent, IH.
  - induction H as [|w p e _ IH].
    + apply initial_categories_consistent.
    + apply local_event_consistent, IH.
Qed.

(** Raising the first weight of the local editor's initial state to 85 makes
    the financial category complete. *)
Lemma status_complete_iff_total_100_witness :
  let w :=
    exec (Local.handle (Local.UpdateCondition "1" (set_weight 85))) offline
      Local.initialWorld in
  Forall statusConsistent (categories w)
  /\ map RiskCategory.status (categories w)
     = [complete; incomplete; incomplete; incomplete; incomplete].
Proof.
  split.
  - apply (status_complete_iff_total_100
             (exec (Local.handle (Local.UpdateCondition "1" (set_weight 85)))
                offline Local.initialWorld)).
    right. apply Local.reach_event, Local.reach_initial.
  - reflexivity.
Defined.

(** ** Double-precision sums *)

Lemma zero_spec (x : float) :
  (x =? 0)%float = true <-> exists s, Prim2SF x = S754_zero s.
Proof.
  rewrite FloatAxioms.eqb_spec. change (Prim2SF 0) with (S754_zero false).
  destruct (Prim2SF x) as [s|s| |s m e]; simpl.
  - split; eauto.
  - split; [destruct s; discriminate | intros [? H]; discriminate].
  - split; [discriminate | intros [? H]; discriminate].
  - split; [destruct s; discriminate | intros [? H]; discriminate].
Qed.

(** Adding [0] changes at most the sign of a zero. *)
Lemma add_zero_r (x : float) : Double.sameNumber (x + 0)%float x.
Proof.
  destruct (Prim2SF x) as [s|s| |s m e] eqn:E.
  - right. split; apply zero_spec; [|eauto].
    rewrite FloatAxioms.add_spec, E. change (Prim2SF 0) with (S754_zero false).
    destruct s; simpl; eauto.
  - left. apply FloatAxioms.Prim2SF_inj.
    rewrite FloatAxioms.add_spec, E. reflexivity.
  - left. apply FloatAxioms.Prim2SF_inj.
    rewrite FloatAxioms.add_spec, E. reflexivity.
  - left. apply FloatAxioms.Prim2SF_inj.
    rewrite FloatAxioms.add_spec, E. reflexivity.
Qed.

Lemma add_zeros (a w w' : float) :
  (w =? 0)%float = true -> (w' =? 0)%float = true ->
  Double.sameNumber (a + w)%float (a + w')%float.
Proof.
  intros [s Hw]%zero_spec [s' Hw']%zero_spec.
  destruct (Prim2SF a) as [sa|sa| |sa m e] eqn:E.
  - right. split; apply zero_spec; rewrite FloatAxioms.add_spec, E.
    + rewrite Hw. destruct sa, s; simpl; eauto.
    + rewrite Hw'. destruct sa, s'; simpl; eauto.
  - left. apply FloatAxioms.Prim2SF_inj.
    rewrite !FloatAxioms.add_spec, E, Hw, Hw'. reflexivity.
  - left. apply FloatAxioms.Prim2SF_inj.
    rewrite !FloatAxioms.add_spec, E, Hw, Hw'. reflexivity.
  - left. apply FloatAxioms.Prim2SF_inj.
    rewrite !FloatAxioms.add_spec, E, Hw, Hw'. reflexivity.
Qed.

Lemma zeros_add (a a' w : float) :
  (a =? 0)%float = true -> (a' =? 0)%float = true ->
  Double.sameNumber (a + w)%float (a' + w)%float.
Proof.
  intros [s Ha]%zero_spec [s' Ha']%zero_spec.
  destruct (Prim2SF w) as [sw|sw| |sw m e] eqn:E.
  - right. split; apply zero_spec; rewrite FloatAxioms.add_spec, E.
    + rewrite Ha. destruct s, sw; simpl; eauto.
    + rewrite Ha'. destruct s', sw; simpl; eauto.
  - left. apply FloatAxioms.Prim2SF_inj.
    rewrite !FloatAxioms.add_spec, E, Ha, Ha'. reflexivity.
  - left. apply FloatAxioms.Prim2SF_inj.
    rewrite !FloatAxioms.add_spec, E, Ha, Ha'. reflexivity.
  - left. apply FloatAxioms.Prim2SF_inj.
    rewrite !FloatAxioms.add_spec, E, Ha, Ha'. reflexivity.
Qed.

Lemma sameNumber_refl (a : float) : Double.sameNumber a a.
Proof. left. reflexivity. Qed.

Lemma sameNumber_trans (a b c : float) :
  Double.sameNumber a b -> Double.sameNumber b c -> Double.sameNumber a c.
Proof.
  intros [->|[Ha Hb]] [<-|[Hb' Hc]]; try (left; reflexivity); right; auto.
Qed.

(** Addition respects [sameNumber]. *)
Lemma add_same (a a' w w' : float) :
  Double.sameNumber a a' -> Double.sameNumber w w' ->
  Double.sameNumber (a + w)%float (a' + w')%float.
Proof.
  intros [->|[Ha Ha']] [->|[Hw Hw']].
  - apply sameNumber_refl.
  - apply add_zeros; assumption.
  - apply zeros_add; assumption.
  - apply (sameNumber_trans _ (a' + w)%float).
    + apply zeros_add; assumption.
    + apply add_zeros; assumption.
Qed.

(** [Number(w) || 0] is [w], up to the sign of zero, unless [w] is [NaN]. *)
Lemma double_numberOr0_same (w : float) :
  is_nan w = false -> Double.sameNumber (Double.numberOr0 w) w.
Proof.
  intros H. unfold Double.numberOr0. rewrite H. simpl.
  destruct (w =? 0)%float eqn:E; [right | left]; auto.
Qed.

Lemma double_fold_same (conds : list Double.RiskCondition.t) (a a' : float) :
  Double.sameNumber a a' ->
  forallb (fun c => negb (is_nan (Double.RiskCondition.weight c))) conds = true ->
  Double.sameNumber
    (fold_left
       (fun sum c =>
          (sum + Double.numberOr0 (Double.RiskCondition.weight c))%float)
       conds a)
    (fold_left (fun sum c => (sum + Double.RiskCondition.weight c)%float)
       conds a').
Proof.
  revert a a'. induction conds as [|c conds IH]; intros a a' Ha Hnum; simpl.
  - exact Ha.
  - simpl in Hnum. apply andb_true_iff in Hnum as [Hc Hnum].
    apply IH; [|exact Hnum].
    apply add_same; [exact Ha|].
    apply double_numberOr0_same, negb_true_iff, Hc.
Qed.

(** The two [reduce] loops of the source agree on weights without [NaN]. *)
Lemma double_sumWeightsOr0_same (conds : list Double.RiskCondition.t) :
  forallb (fun c => negb (is_nan (Double.RiskCondition.weight c))) conds = true ->
  Double.sameNumber (Double.sumWeightsOr0 conds) (Double.sumWeights conds).
Proof. apply double_fold_same, sameNumber_refl. Qed.

Lemma not_nan_spec (x : float) : is_nan x = false -> Prim2SF x <> S754_nan.
Proof.
  unfold is_nan. rewrite FloatAxioms.eqb_spec. intros H E.
  rewrite E in H. discriminate H.
Qed.

Lemma SFcompare_antisym (x y : spec_float) (c : comparison) :
  SFcompare x y = Some c -> SFcompare y x = Some (CompOpp c).
Proof.
  destruct x as [sx|sx| |sx mx ex], y as [sy|sy| |sy my ey]; simpl;
    intros H; try discriminate H; injection H as <-;
    try (destruct sx; reflexivity); try (destruct sy; reflexivity);
    try (destruct sx, sy; reflexivity).
  destruct sx, sy; try reflexivity.
  - rewrite (Z.compare_antisym ey ex).
    destruct (ey ?= ex)%Z; simpl; try reflexivity.
    rewrite CompOpp_involutive. f_equal.
    apply (Pos.compare_cont_antisym my mx Eq).
  - rewrite (Z.compare_antisym ey ex).
    destruct (ey ?= ex)%Z; simpl; try reflexivity.
    f_equal. symmetry. apply (Pos.compare_cont_antisym mx my Eq).
Qed.

Lemma SFcompare_some (x y : spec_float) :
  x <> S754_nan -> y <> S754_nan -> exists c, SFcompare x y = Some c.
Proof.
  destruct x, y; simpl; intros Hx Hy; try contradiction; eauto.
Qed.

Lemma SFcompare_refl (x : spec_float) :
  x <> S754_nan -> SFcompare x x = Some Eq.
Proof.
  intros Hx. destruct (SFcompare_some x x Hx Hx) as [c Hc].
  pose proof (SFcompare_antisym _ _ _ Hc) as Hc'. rewrite Hc in Hc'.
  destruct c; try discriminate Hc'; exact Hc.
Qed.

(** [Math.min] of two numbers is one of them and exceeds neither. *)
Lemma Math_min_spec (a b : float) :
  is_nan a = false -> is_nan b = false ->
  (Double.Math_min a b = a \/ Double.Math_min a b = b)
  /\ (Double.Math_min a b <=? a)%float = true
  /\ (Double.Math_min a b <=? b)%float = true.
Proof.
  intros Ha Hb. unfold Double.Math_min. rewrite Ha, Hb. simpl.
  destruct (SFcompare_some (Prim2SF a) (Prim2SF b)) as [c Hab];
    auto using not_nan_spec.
  pose proof (SFcompare_antisym _ _ _ Hab) as Hba.
  pose proof (SFcompare_refl _ (not_nan_spec a Ha)) as Haa.
  pose proof (SFcompare_refl _ (not_nan_spec b Hb)) as Hbb.
  rewrite !FloatAxioms.ltb_spec. unfold SFltb. rewrite Hab, Hba.
  destruct c; simpl.
  - destruct (get_sign a);
      rewrite !FloatAxioms.leb_spec; unfold SFleb;
      rewrite ?Hab, ?Hba, ?Haa, ?Hbb; simpl; auto.
  - rewrite !FloatAxioms.leb_spec. unfold SFleb. rewrite Hab, Haa. auto.
  - rewrite !FloatAxioms.leb_spec. unfold SFleb. rewrite Hba, Hbb. auto.
Qed.

Lemma Math_min_nan (a b : float) :
  (is_nan a || is_nan b)%bool = true -> is_nan (Double.Math_min a b) = true.
Proof. intros H. unfold Double.Math_min. rewrite H. reflexivity. Qed.

Lemma double_addCondition_as_map (tab : string) (now : Z)
    (cats : list Double.RiskCategory.t) :
  Double.addCondition tab now cats
  = map (fun cat =>
           if String.eqb (Double.RiskCategory.id cat) tab
           then Double.withConditions cat
                  (Double.RiskCategory.conditions cat
                   ++ [Double.newCondition now])
           else cat)
        cats.
Proof.
  unfold Double.addCondition.
  destruct (find _ cats) eqn:E; [reflexivity|].
  symmetry. apply map_unchanged. intros cat Hin.
  rewrite find_none_all in E. rewrite (E cat Hin). reflexivity.
Qed.

Lemma numeric_at (cats : list Double.RiskCategory.t) (k : nat)
    (cat : Double.RiskCategory.t) :
  Double.numeric cats = true -> cats !! k = Some cat ->
  forallb (fun c => negb (is_nan (Double.RiskCondition.weight c)))
    (Double.RiskCategory.conditions cat) = true.
Proof.
  unfold Double.numeric. rewrite forallb_forall. intros H Hk.
  apply H, list_elem_of_In, (list_elem_of_lookup_2 _ k), Hk.
Qed.

Lemma numericRun_numeric (edits : list Double.Edit)
    (cats : list Double.RiskCategory.t) :
  Double.numericRun edits cats = true -> Double.numeric cats = true.
Proof. destruct edits; simpl; intros H; apply andb_true_iff in H as [H _]; exact H. Qed.

(** One call, on doubles: the category at a position stays at that position,
    and its total stays the double-precision sum of its weights as long as
    the call leaves no [NaN] among them. *)
Lemma double_applyEdit_sums (e : Double.Edit)
    (cats : list Double.RiskCategory.t) (k : nat)
    (cat : Double.RiskCategory.t) :
  cats !! k = Some cat ->
  Double.sumsCorrectly cat ->
  Double.numeric (Double.applyEdit cats e) = true ->
  exists cat',
    Double.applyEdit cats e !! k = Some cat'
    /\ Double.RiskCategory.id cat' = Double.RiskCategory.id cat
    /\ Double.sumsCorrectly cat'.
Proof.
  intros Hk Hsum Hnum.
  assert (Hat : forall cat',
             Double.applyEdit cats e !! k = Some cat' ->
             forallb (fun c => negb (is_nan (Double.RiskCondition.weight c)))
               (Double.RiskCategory.conditions cat') = true).
  { intros cat'. apply numeric_at, Hnum. }
  destruct e as [tab now|tab conditionId|tab conditionId a]; simpl in *.
  - rewrite double_addCondition_as_map, lookup_map, Hk. simpl. eexists.
    split; [reflexivity|].
    destruct (String.eqb _ _); [|auto]. split; [reflexivity|].
    unfold Double.sumsCorrectly, Double.sumWeights in *. simpl.
    rewrite fold_left_app. simpl.
    eapply sameNumber_trans; [exact Hsum|].
    destruct (add_zero_r
                (fold_left
                   (fun sum c => (sum + Double.RiskCondition.weight c)%float)
                   (Double.RiskCategory.conditions cat) 0%float))
      as [->|[H1 H2]]; [left | right]; auto.
  - unfold Double.removeCondition. rewrite lookup_map, Hk. simpl. eexists.
    split; [reflexivity|].
    destruct (String.eqb _ _); [|auto].
    split; [reflexivity | apply sameNumber_refl].
  - specialize (Hat _ ltac:(unfold Double.updateCondition;
                            rewrite lookup_map, Hk; reflexivity)).
    unfold Double.updateCondition. rewrite lookup_map, Hk. simpl. eexists.
    split; [reflexivity|].
    destruct (negb _); [auto|]. split; [reflexivity|].
    unfold Double.sumsCorrectly. simpl.
    apply double_sumWeightsOr0_same. exact Hat.
Qed.

Lemma double_applyEdits_sums (edits : list Double.Edit)
    (cats : list Double.RiskCategory.t) (k : nat)
    (cat : Double.RiskCategory.t) :
  cats !! k = Some cat ->
  Double.sumsCorrectly cat ->
  Double.numericRun edits cats = true ->
  exists cat',
    Double.applyEdits edits cats !! k = Some cat'
    /\ Double.RiskCategory.id cat' = Double.RiskCategory.id cat
    /\ Double.sumsCorrectly cat'.
Proof.
  unfold Double.applyEdits. revert cats cat.
  induction edits as [|e edits IH]; intros cats cat Hk Hsum Hrun; simpl.
  - exists cat. auto.
  - simpl in Hrun. apply andb_true_iff in Hrun as [_ Hrun].
    destruct (double_applyEdit_sums e cats k cat Hk Hsum
                (numericRun_numeric _ _ Hrun))
      as (mid & Hmid & Hid & Hs).
    destruct (IH _ mid Hmid Hs Hrun) as (cat' & Hk' & Hid' & Hs').
    exists cat'. repeat split; [exact Hk' | congruence | exact Hs'].
Qed.

(** ** Whole numbers as doubles: the IEEE 754 operations *)

Lemma iter_xO_value (m p : positive) :
  Z.pos (Pos.iter xO m p) = Z.pos m * 2 ^ Z.pos p.
Proof.
  induction p using Pos.peano_ind.
  - simpl. lia.
  - rewrite Pos.iter_succ, Pos2Z.inj_succ, Z.pow_succ_r by lia.
    rewrite Pos2Z.inj_xO, IHp. lia.
Qed.

Lemma shiftP_value (m : positive) (n : Z) :
  0 <= n -> Z.pos (shiftP m n) = Z.pos m * 2 ^ n.
Proof.
  destruct n as [|p|p]; simpl; intros H; try lia.
  apply iter_xO_value.
Qed.

(** [digits2_pos] counts the binary digits. *)
Lemma digits_size (m : positive) : digits2_pos m = Pos.size m.
Proof. induction m; simpl; congruence. Qed.

Lemma digits_iter_xO (m p : positive) :
  Z.pos (digits2_pos (Pos.iter xO m p)) = Z.pos (digits2_pos m) + Z.pos p.
Proof.
  induction p using Pos.peano_ind.
  - simpl. lia.
  - rewrite Pos.iter_succ. simpl. lia.
Qed.

Lemma digits_shiftP (m : positive) (n : Z) :
  0 <= n -> Z.pos (digits2_pos (shiftP m n)) = Z.pos (digits2_pos m) + n.
Proof.
  destruct n as [|p|p]; simpl; intros H; try lia.
  apply digits_iter_xO.
Qed.

(** The iteration of the specification of floats is that of [positive]. *)
Lemma iter_pos_iter {A : Type} (f : A -> A) (p : positive) (x : A) :
  SpecFloat.iter_pos f p x = Pos.iter f x p.
Proof.
  revert x. induction p as [p IH|p IH|]; intros x; simpl.
  - rewrite !IH. rewrite <- Pos.iter_swap. rewrite <- Pos.iter_swap. reflexivity.
  - rewrite !IH. reflexivity.
  - reflexivity.
Qed.

(** A right shift that only drops appended zeros gives the mantissa back,
    with no rounding bit set. *)
Lemma shr_exact (m p : positive) :
  SpecFloat.iter_pos shr_1 p (Build_shr_record (Z.pos (Pos.iter xO m p)) false false)
  = Build_shr_record (Z.pos m) false false.
Proof.
  rewrite iter_pos_iter. induction p using Pos.peano_ind.
  - reflexivity.
  - rewrite Pos.iter_succ_r, (Pos.iter_succ p). simpl. exact IHp.
Qed.

(** The exponent of a mantissa of [d] digits at exponent [e], for numbers of
    at most 53 digits well inside the range of the exponents. *)
Lemma fexp_canonical (d e : Z) :
  d = 53 -> -1074 <= e -> fexp prec emax (d + e) = e.
Proof.
  intros -> He. unfold fexp, SpecFloat.emin, prec, emax. lia.
Qed.

(** Bringing to 53 digits a mantissa that is a shorter one followed by zeros
    drops zeros only. *)
Lemma shr_fexp_exact (M : positive) (e p : Z) :
  Z.pos (digits2_pos M) = 53 -> -1074 <= e -> 0 <= p ->
  shr_fexp prec emax (Z.pos (shiftP M p)) (e - p) loc_Exact
  = (Build_shr_record (Z.pos M) false false, e).
Proof.
  intros Hd He Hp. unfold shr_fexp. simpl Zdigits2.
  replace (fexp prec emax (Z.pos (digits2_pos (shiftP M p)) + (e - p)) - (e - p))
    with p.
  - destruct p as [|q|q]; simpl; try lia.
    + f_equal. lia.
    + rewrite shr_exact. f_equal. lia.
  - rewrite digits_shiftP by exact Hp.
    replace (Z.pos (digits2_pos M) + p + (e - p)) with (53 + e) by lia.
    rewrite fexp_canonical by lia. lia.
Qed.

(** Rounding has then nothing to round. *)
Lemma round_exact (sx : bool) (M : positive) (e p : Z) :
  Z.pos (digits2_pos M) = 53 -> -1074 <= e <= 971 -> 0 <= p ->
  binary_round_aux prec emax sx (Z.pos (shiftP M p)) (e - p) loc_Exact
  = S754_finite sx M e.
Proof.
  intros Hd He Hp. unfold binary_round_aux.
  rewrite shr_fexp_exact by lia. simpl.
  pose proof (shr_fexp_exact M e 0 Hd ltac:(lia) ltac:(lia)) as H0.
  simpl in H0. rewrite Z.sub_0_r in H0. rewrite H0. simpl.
  change (emax - prec) with 971.
  destruct (e <=? 971) eqn:E; [reflexivity | lia].
Qed.

Lemma shiftP_shiftP (m : positive) (a b : Z) :
  0 <= a -> 0 <= b -> shiftP (shiftP m a) b = shiftP m (a + b).
Proof.
  intros Ha Hb. apply Pos2Z.inj.
  rewrite !shiftP_value by lia. rewrite Z.pow_add_r by lia. lia.
Qed.

Lemma shiftP_unique (m q : positive) (k : Z) :
  0 <= k -> Z.pos q = Z.pos m * 2 ^ k -> q = shiftP m k.
Proof. intros Hk H. apply Pos2Z.inj. rewrite shiftP_value by lia. exact H. Qed.

(** A positive number below [2^n] has at most [n] digits. *)
Lemma digits_bound (m : positive) (n : Z) :
  0 <= n -> (Z.pos m < 2 ^ n <-> Z.pos (digits2_pos m) <= n).
Proof.
  intros Hn. rewrite digits_size.
  pose proof (Pos.size_gt m) as Hgt. pose proof (Pos.size_le m) as Hle.
  apply Pos2Z.pos_lt_pos in Hgt. apply Pos2Z.pos_le_pos in Hle.
  rewrite Pos2Z.inj_pow in Hgt, Hle.
  change (Z.pos m~0) with (2 * Z.pos m) in Hle.
  split; intros H.
  - destruct (Z_le_gt_dec (Z.pos (Pos.size m)) n) as [|Hbig]; [assumption|].
    assert (2 ^ Z.succ n <= 2 ^ Z.pos (Pos.size m))
      by (apply Z.pow_le_mono_r; lia).
    rewrite Z.pow_succ_r in H0 by lia. lia.
  - assert (2 ^ Z.pos (Pos.size m) <= 2 ^ n) by (apply Z.pow_le_mono_r; lia).
    lia.
Qed.

(** However a whole number of at most 53 digits is written, as a mantissa
    with zeros appended and the exponent that undoes them, rounding yields
    its canonical double. *)
Lemma binary_round_scaled (s : bool) (m q : positive) (k : Z) :
  0 <= k -> Z.pos q = Z.pos m * 2 ^ k -> Z.pos (digits2_pos m) <= 53 ->
  binary_round prec emax s q (- k) = norm s m.
Proof.
  intros Hk Hq Hd. apply shiftP_unique in Hq; [subst q | exact Hk].
  set (d := Z.pos (digits2_pos m)) in *.
  assert (Hd1 : 1 <= d) by (unfold d; lia).
  set (M := shiftP m (53 - d)).
  assert (HM : Z.pos (digits2_pos M) = 53).
  { unfold M. rewrite digits_shiftP by lia. fold d. lia. }
  unfold binary_round, norm. fold d M.
  rewrite digits_shiftP by exact Hk. fold d.
  replace (fexp prec emax (d + k + - k)) with (d - 53)
    by (unfold fexp, SpecFloat.emin, prec, emax; lia).
  unfold shl_align.
  destruct (d - 53 - - k) as [|p|p] eqn:E.
  - replace (shiftP m k) with (shiftP M 0)
      by (unfold M; rewrite shiftP_shiftP by lia; f_equal; lia).
    replace (- k) with (d - 53 - 0) by lia.
    apply round_exact; lia.
  - replace (shiftP m k) with (shiftP M (Z.pos p))
      by (unfold M; rewrite shiftP_shiftP by lia; f_equal; lia).
    replace (- k) with (d - 53 - Z.pos p) by lia.
    apply round_exact; lia.
  - replace (Pos.iter xO (shiftP m k) p) with (shiftP M 0).
    + replace (d - 53) with (d - 53 - 0) at 1 by lia.
      apply round_exact; lia.
    + change (Pos.iter xO (shiftP m k) p) with (shiftP (shiftP m k) (Z.pos p)).
      unfold M. rewrite !shiftP_shiftP by lia. f_equal. lia.
Qed.

(** So does the normalisation of the whole number itself. *)
Lemma binary_normalize_whole (z : Z) :
  0 < Z.abs z < 2 ^ 53 ->
  binary_normalize prec emax z 0 false = norm (z <? 0) (Z.to_pos (Z.abs z)).
Proof.
  intros Hz. destruct z as [|m|m]; simpl in *; try lia.
  - apply (binary_round_scaled false m m 0); try lia.
    apply digits_bound; lia.
  - apply (binary_round_scaled true m m 0); try lia.
    apply digits_bound; lia.
Qed.

(** The conversion of a machine integer below [2^53] is exact. *)
Lemma of_uint63_whole (z : Z) :
  0 < z < 2 ^ 53 ->
  Prim2SF (of_uint63 (Uint63.of_Z z)) = norm false (Z.to_pos z).
Proof.
  intros Hz. rewrite FloatAxioms.of_uint63_spec, Uint63.of_Z_spec.
  rewrite Z.mod_small.
  - rewrite binary_normalize_whole by lia.
    replace (z <? 0) with false by lia. rewrite Z.abs_eq by lia. reflexivity.
  - change Uint63Axioms.wB with (2 ^ 63).
    assert (2 ^ 53 < 2 ^ 63) by (apply Z.pow_lt_mono_r; lia). lia.
Qed.

(** [asDouble z] is the double that is [z]. *)
Lemma asDouble_spec (z : Z) :
  Z.abs z < 2 ^ 53 -> Prim2SF (asDouble z) = whole z.
Proof.
  intros Hz. unfold asDouble, whole.
  destruct (Z.ltb_spec z 0) as [Hneg|Hpos].
  - replace (z =? 0) with false by lia.
    rewrite FloatAxioms.opp_spec, of_uint63_whole by lia.
    rewrite Z.abs_neq by lia. reflexivity.
  - destruct (Z.eqb_spec z 0) as [->|Hne]; [reflexivity|].
    rewrite of_uint63_whole by lia. rewrite Z.abs_eq by lia. reflexivity.
Qed.

(** The mantissa and the exponent of the double of a whole number. *)
Lemma norm_value (s : bool) (m : positive) :
  Z.pos (digits2_pos m) <= 53 ->
  exists M e,
    norm s m = S754_finite s M e
    /\ e = Z.pos (digits2_pos m) - 53
    /\ Z.pos M = Z.pos m * 2 ^ (- e).
Proof.
  intros Hd. eexists. eexists. split; [reflexivity|]. split; [reflexivity|].
  rewrite shiftP_value by lia. f_equal. f_equal. lia.
Qed.

Lemma shl_align_value (M : positive) (e ez : Z) :
  ez <= e -> Z.pos (fst (shl_align M e ez)) = Z.pos M * 2 ^ (e - ez).
Proof.
  intros H. unfold shl_align.
  destruct (ez - e) as [|p|p] eqn:E; simpl.
  - replace (e - ez) with 0 by lia. lia.
  - lia.
  - rewrite iter_xO_value. f_equal. f_equal. lia.
Qed.

Lemma whole_finite (z : Z) :
  z <> 0 -> Z.abs z < 2 ^ 53 ->
  exists M e,
    whole z = S754_finite (z <? 0) M e
    /\ e = Z.pos (digits2_pos (Z.to_pos (Z.abs z))) - 53
    /\ e <= 0
    /\ Z.pos M = Z.abs z * 2 ^ (- e).
Proof.
  intros Hz Hb. unfold whole. replace (z =? 0) with false by lia.
  assert (Hd : Z.pos (digits2_pos (Z.to_pos (Z.abs z))) <= 53).
  { apply digits_bound; [lia|]. rewrite Z2Pos.id by lia. exact Hb. }
  destruct (norm_value (z <? 0) (Z.to_pos (Z.abs z)) Hd) as (M & e & H1 & H2 & H3).
  exists M, e. rewrite Z2Pos.id in H3 by lia. repeat split; auto. lia.
Qed.

Lemma binary_normalize_scaled (z k : Z) :
  0 <= k -> Z.abs z < 2 ^ 53 ->
  binary_normalize prec emax (z * 2 ^ k) (- k) false = whole z.
Proof.
  intros Hk Hz. unfold whole.
  assert (Hpow : 0 < 2 ^ k) by (apply Z.pow_pos_nonneg; lia).
  destruct (Z.eqb_spec z 0) as [->|Hne]; [reflexivity|].
  assert (Hd : Z.pos (digits2_pos (Z.to_pos (Z.abs z))) <= 53).
  { apply digits_bound; [lia|]. rewrite Z2Pos.id by lia. exact Hz. }
  destruct (z * 2 ^ k) as [|q|q] eqn:E; simpl.
  - nia.
  - replace (z <? 0) with false by nia.
    apply binary_round_scaled; [exact Hk | | exact Hd].
    rewrite Z2Pos.id by lia. rewrite Z.abs_eq by nia. lia.
  - replace (z <? 0) with true by nia.
    apply binary_round_scaled; [exact Hk | | exact Hd].
    rewrite Z2Pos.id by lia. rewrite Z.abs_neq by nia. lia.
Qed.

Lemma cond_Zopp_whole (z : Z) (x : Z) :
  z <> 0 -> x = Z.abs z -> cond_Zopp (z <? 0) x = z.
Proof.
  intros Hz ->. unfold cond_Zopp. destruct (Z.ltb_spec z 0); lia.
Qed.

(** The sum of two whole numbers, when it stays below [2^53], is computed
    exactly. *)
Lemma SFadd_whole (a b : Z) :
  Z.abs a < 2 ^ 53 -> Z.abs b < 2 ^ 53 -> Z.abs (a + b) < 2 ^ 53 ->
  SFadd prec emax (whole a) (whole b) = whole (a + b).
Proof.
  intros Ha Hb Hab.
  destruct (Z.eq_dec a 0) as [->|Hane].
  { change (whole 0) with (S754_zero false). rewrite Z.add_0_l.
    destruct (Z.eq_dec b 0) as [->|Hbne]; [reflexivity|].
    destruct (whole_finite b Hbne Hb) as (M & e & E & _). rewrite E.
    reflexivity. }
  destruct (Z.eq_dec b 0) as [->|Hbne].
  { change (whole 0) with (S754_zero false). rewrite Z.add_0_r.
    destruct (whole_finite a Hane Ha) as (M & e & E & _). rewrite E.
    reflexivity. }
  destruct (whole_finite a Hane Ha) as (Ma & ea & Ea & _ & Hea & HMa).
  destruct (whole_finite b Hbne Hb) as (Mb & eb & Eb & _ & Heb & HMb).
  rewrite Ea, Eb. unfold SFadd.
  set (ez := IntDef.Z.min ea eb).
  assert (Hez : ez = Z.min ea eb) by reflexivity.
  rewrite <- (binary_normalize_scaled (a + b) (- ez)) by lia.
  rewrite Z.opp_involutive. f_equal.
  assert (Hpa : 0 < 2 ^ (- ea)) by (apply Z.pow_pos_nonneg; lia).
  assert (Hpb : 0 < 2 ^ (- eb)) by (apply Z.pow_pos_nonneg; lia).
  rewrite !shl_align_value by lia.
  rewrite HMa, HMb.
  rewrite <- !Z.mul_assoc, <- !Z.pow_add_r by lia.
  replace (- ea + (ea - ez)) with (- ez) by lia.
  replace (- eb + (eb - ez)) with (- ez) by lia.
  unfold cond_Zopp.
  destruct (Z.ltb_spec a 0), (Z.ltb_spec b 0); nia.
Qed.

(** And so is their difference. *)
Lemma SFsub_whole (a b : Z) :
  Z.abs a < 2 ^ 53 -> Z.abs b < 2 ^ 53 -> Z.abs (a - b) < 2 ^ 53 ->
  SFsub prec emax (whole a) (whole b) = whole (a - b).
Proof.
  intros Ha Hb Hab.
  destruct (Z.eq_dec b 0) as [->|Hbne].
  { change (whole 0) with (S754_zero false). rewrite Z.sub_0_r.
    destruct (Z.eq_dec a 0) as [->|Hane]; [reflexivity|].
    destruct (whole_finite a Hane Ha) as (M & e & E & _). rewrite E.
    reflexivity. }
  destruct (whole_finite b Hbne Hb) as (Mb & eb & Eb & Hdb & Heb & HMb).
  destruct (Z.eq_dec a 0) as [->|Hane].
  { change (whole 0) with (S754_zero false). rewrite Eb. simpl.
    rewrite Z.sub_0_l.
    assert (Hn : Z.abs (- b) < 2 ^ 53) by lia.
    destruct (whole_finite (- b) ltac:(lia) Hn) as (M & e & E & Hd & He & HM).
    rewrite E. rewrite Z.abs_opp in Hd, HM.
    assert (He' : e = eb) by congruence.
    assert (HM' : M = Mb) by (apply Pos2Z.inj; congruence).
    rewrite He', HM'.
    replace (negb (b <? 0)) with (- b <? 0); [reflexivity|].
    destruct (Z.ltb_spec b 0), (Z.ltb_spec (- b) 0); simpl; lia. }
  destruct (whole_finite a Hane Ha) as (Ma & ea & Ea & _ & Hea & HMa).
  rewrite Ea, Eb. unfold SFsub.
  set (ez := IntDef.Z.min ea eb).
  assert (Hez : ez = Z.min ea eb) by reflexivity.
  rewrite <- (binary_normalize_scaled (a - b) (- ez)) by lia.
  rewrite Z.opp_involutive. f_equal.
  assert (Hpa : 0 < 2 ^ (- ea)) by (apply Z.pow_pos_nonneg; lia).
  assert (Hpb : 0 < 2 ^ (- eb)) by (apply Z.pow_pos_nonneg; lia).
  rewrite !shl_align_value by lia.
  rewrite HMa, HMb.
  rewrite <- !Z.mul_assoc, <- !Z.pow_add_r by lia.
  replace (- ea + (ea - ez)) with (- ez) by lia.
  replace (- eb + (eb - ez)) with (- ez) by lia.
  unfold cond_Zopp.
  destruct (Z.ltb_spec a 0), (Z.ltb_spec b 0); nia.
Qed.

(** A number of [d] digits is at least [2^(d-1)]. *)
Lemma digits_lower (m : positive) :
  2 ^ (Z.pos (digits2_pos m) - 1) <= Z.pos m.
Proof.
  rewrite digits_size. pose proof (Pos.size_le m) as Hle.
  apply Pos2Z.pos_le_pos in Hle. rewrite Pos2Z.inj_pow in Hle.
  change (Z.pos m~0) with (2 * Z.pos m) in Hle.
  replace (Z.pos (Pos.size m)) with (Z.succ (Z.pos (Pos.size m) - 1)) in Hle
    by lia.
  rewrite Z.pow_succ_r in Hle by lia. lia.
Qed.

(** Positive whole numbers compare as their doubles do. *)
Lemma compare_norm (a b : positive) :
  Z.pos (digits2_pos a) <= 53 -> Z.pos (digits2_pos b) <= 53 ->
  match Z.pos (digits2_pos a) - 53 ?= Z.pos (digits2_pos b) - 53 with
  | Eq =>
      Pos.compare_cont Eq
        (shiftP a (53 - Z.pos (digits2_pos a)))
        (shiftP b (53 - Z.pos (digits2_pos b)))
  | Lt => Lt
  | Gt => Gt
  end
  = (Z.pos a ?= Z.pos b).
Proof.
  intros Ha Hb.
  pose proof (digits_lower a) as La. pose proof (digits_lower b) as Lb.
  assert (Ua : Z.pos a < 2 ^ Z.pos (digits2_pos a)) by (apply digits_bound; lia).
  assert (Ub : Z.pos b < 2 ^ Z.pos (digits2_pos b)) by (apply digits_bound; lia).
  destruct (Z.compare_spec (Z.pos (digits2_pos a) - 53)
              (Z.pos (digits2_pos b) - 53)) as [E|E|E].
  - change (Pos.compare_cont Eq ?x ?y) with (Pos.compare x y).
    rewrite (Pos2Z.inj_compare (shiftP a _) (shiftP b _)).
    rewrite !shiftP_value by lia.
    replace (Z.pos (digits2_pos b)) with (Z.pos (digits2_pos a)) by lia.
    assert (Hp : 0 < 2 ^ (53 - Z.pos (digits2_pos a)))
      by (apply Z.pow_pos_nonneg; lia).
    destruct (Z.compare_spec (Z.pos a) (Z.pos b)) as [Hc|Hc|Hc].
    + rewrite Hc. apply Z.compare_refl.
    + apply Z.compare_lt_iff. nia.
    + apply Z.compare_gt_iff. nia.
  - symmetry. apply Z.compare_lt_iff.
    assert (2 ^ Z.pos (digits2_pos a) <= 2 ^ (Z.pos (digits2_pos b) - 1))
      by (apply Z.pow_le_mono_r; lia).
    lia.
  - symmetry. apply Z.compare_gt_iff.
    assert (2 ^ Z.pos (digits2_pos b) <= 2 ^ (Z.pos (digits2_pos a) - 1))
      by (apply Z.pow_le_mono_r; lia).
    lia.
Qed.

(** Doubles of whole numbers compare as the numbers do. *)
Lemma SFcompare_whole (a b : Z) :
  Z.abs a < 2 ^ 53 -> Z.abs b < 2 ^ 53 ->
  SFcompare (whole a) (whole b) = Some (a ?= b).
Proof.
  intros Ha Hb. unfold whole.
  destruct (Z.eqb_spec a 0) as [->|Hane], (Z.eqb_spec b 0) as [->|Hbne].
  - reflexivity.
  - unfold norm. simpl. destruct b; simpl; try reflexivity; lia.
  - unfold norm. simpl. destruct a; simpl; try reflexivity; lia.
  - assert (Hda : Z.pos (digits2_pos (Z.to_pos (Z.abs a))) <= 53).
    { apply digits_bound; [lia|]. rewrite Z2Pos.id by lia. exact Ha. }
    assert (Hdb : Z.pos (digits2_pos (Z.to_pos (Z.abs b))) <= 53).
    { apply digits_bound; [lia|]. rewrite Z2Pos.id by lia. exact Hb. }
    pose proof (compare_norm _ _ Hda Hdb) as Hab.
    pose proof (compare_norm _ _ Hdb Hda) as Hba.
    unfold norm, SFcompare.
    destruct a as [|a|a], b as [|b|b]; try lia; simpl in *.
    + rewrite Hab. reflexivity.
    + reflexivity.
    + reflexivity.
    + rewrite <- Hab.
      destruct (Z.pos (digits2_pos a) - 53 ?= Z.pos (digits2_pos b) - 53);
        reflexivity.
Qed.

(** ** Whole numbers as doubles *)

Lemma asDouble_add (a b : Z) :
  Z.abs a < 2 ^ 53 -> Z.abs b < 2 ^ 53 -> Z.abs (a + b) < 2 ^ 53 ->
  (asDouble a + asDouble b)%float = asDouble (a + b).
Proof.
  intros Ha Hb Hab. apply FloatAxioms.Prim2SF_inj.
  rewrite FloatAxioms.add_spec, !asDouble_spec by assumption.
  apply SFadd_whole; assumption.
Qed.

Lemma asDouble_sub (a b : Z) :
  Z.abs a < 2 ^ 53 -> Z.abs b < 2 ^ 53 -> Z.abs (a - b) < 2 ^ 53 ->
  (asDouble a - asDouble b)%float = asDouble (a - b).
Proof.
  intros Ha Hb Hab. apply FloatAxioms.Prim2SF_inj.
  rewrite FloatAxioms.sub_spec, !asDouble_spec by assumption.
  apply SFsub_whole; assumption.
Qed.

Lemma asDouble_ltb (a b : Z) :
  Z.abs a < 2 ^ 53 -> Z.abs b < 2 ^ 53 ->
  (asDouble a <? asDouble b)%float = (a <? b).
Proof.
  intros Ha Hb. rewrite FloatAxioms.ltb_spec, !asDouble_spec by assumption.
  unfold SFltb. rewrite SFcompare_whole by assumption.
  unfold Z.ltb. destruct (a ?= b); reflexivity.
Qed.

Lemma asDouble_eqb (a b : Z) :
  Z.abs a < 2 ^ 53 -> Z.abs b < 2 ^ 53 ->
  (asDouble a =? asDouble b)%float = (a =? b).
Proof.
  intros Ha Hb. rewrite FloatAxioms.eqb_spec, !asDouble_spec by assumption.
  unfold SFeqb. rewrite SFcompare_whole by assumption.
  unfold Z.eqb. destruct (Z.compare_spec a b) as [->|H|H].
  - destruct b; simpl; rewrite ?Pos.eqb_refl; reflexivity.
  - destruct a, b; simpl; try reflexivity; try lia;
      symmetry; apply Pos.eqb_neq; lia.
  - destruct a, b; simpl; try reflexivity; try lia;
      symmetry; apply Pos.eqb_neq; lia.
Qed.

Lemma asDouble_leb (a b : Z) :
  Z.abs a < 2 ^ 53 -> Z.abs b < 2 ^ 53 ->
  (asDouble a <=? asDouble b)%float = (a <=? b).
Proof.
  intros Ha Hb. rewrite FloatAxioms.leb_spec, !asDouble_spec by assumption.
  unfold SFleb. rewrite SFcompare_whole by assumption.
  unfold Z.leb. destruct (a ?= b); reflexivity.
Qed.

Lemma asDouble_not_nan (a : Z) :
  Z.abs a < 2 ^ 53 -> is_nan (asDouble a) = false.
Proof.
  intros Ha. unfold is_nan. rewrite asDouble_eqb by assumption.
  rewrite Z.eqb_refl. reflexivity.
Qed.

(** [Math.min], [Number(w) || 0] and the status on the doubles of whole
    numbers. *)
Lemma Math_min_whole (a b : Z) :
  Z.abs a < 2 ^ 53 -> Z.abs b < 2 ^ 53 ->
  Double.Math_min (asDouble a) (asDouble b) = asDouble (Z.min a b).
Proof.
  intros Ha Hb. unfold Double.Math_min.
  rewrite !asDouble_not_nan, !asDouble_ltb by assumption. simpl.
  destruct (Z.ltb_spec a b) as [H|H].
  - rewrite Z.min_l by lia. reflexivity.
  - destruct (Z.ltb_spec b a) as [H'|H'].
    + rewrite Z.min_r by lia. reflexivity.
    + assert (a = b) as -> by lia. rewrite Z.min_id.
      destruct (get_sign _); reflexivity.
Qed.

Lemma numberOr0_whole (w : Z) :
  Z.abs w < 2 ^ 53 -> Double.numberOr0 (asDouble w) = asDouble (numberOr0 w).
Proof.
  intros Hw. unfold Double.numberOr0, numberOr0.
  rewrite asDouble_not_nan by assumption. simpl.
  change 0%float with (asDouble 0).
  rewrite asDouble_eqb by (assumption || (simpl; lia)).
  destruct (w =? 0); reflexivity.
Qed.

Lemma statusOf_whole (t : Z) :
  Z.abs t < 2 ^ 53 -> Double.statusOf (asDouble t) = statusOf t.
Proof.
  intros Ht. unfold Double.statusOf, statusOf.
  change 100%float with (asDouble 100).
  rewrite asDouble_eqb by (assumption || (simpl; lia)). reflexivity.
Qed.

(** ** The integer model computes what the doubles compute *)

Lemma wholeRange_small : wholeRange + 100 < 2 ^ 53.
Proof. vm_compute. reflexivity. Qed.

(** The sum of the absolute values bounds every sum of weights. *)
Lemma magnitude_from (conds : list RiskCondition.t) (a : Z) :
  fold_left (fun m c => m + Z.abs (RiskCondition.weight c)) conds a
  = a + magnitude conds.
Proof.
  unfold magnitude. revert a. induction conds as [|c conds IH]; intros a; simpl.
  - lia.
  - rewrite (IH (a + _)), (IH (0 + _)). lia.
Qed.

Lemma magnitude_cons (c : RiskCondition.t) (conds : list RiskCondition.t) :
  magnitude (c :: conds) = Z.abs (RiskCondition.weight c) + magnitude conds.
Proof. unfold magnitude at 1. simpl. apply magnitude_from. Qed.

Lemma magnitude_nonneg (conds : list RiskCondition.t) : 0 <= magnitude conds.
Proof.
  induction conds as [|c conds IH]; [reflexivity|].
  rewrite magnitude_cons. lia.
Qed.

Lemma magnitude_filter (keep : RiskCondition.t -> bool)
    (conds : list RiskCondition.t) :
  magnitude (List.filter keep conds) <= magnitude conds.
Proof.
  induction conds as [|c conds IH]; simpl; [lia|].
  destruct (keep c); rewrite ?magnitude_cons; lia.
Qed.

Lemma sum_within_magnitude (conds : list RiskCondition.t) (a : Z) :
  Z.abs (fold_left (fun sum c => sum + RiskCondition.weight c) conds a)
  <= Z.abs a + magnitude conds.
Proof.
  revert a. induction conds as [|c conds IH]; intros a; simpl.
  - change (magnitude []) with 0. lia.
  - rewrite magnitude_cons. specialize (IH (a + RiskCondition.weight c)). lia.
Qed.

(** Adding whole weights from left to right never rounds while the absolute
    values stay below [2^53]. *)
Lemma sum_whole (conds : list RiskCondition.t) (a : Z) :
  Z.abs a + magnitude conds < 2 ^ 53 ->
  fold_left (fun sum c => (sum + Double.RiskCondition.weight c)%float)
    (map conditionAsDouble conds) (asDouble a)
  = asDouble (fold_left (fun sum c => sum + RiskCondition.weight c) conds a).
Proof.
  revert a. induction conds as [|c conds IH]; intros a H; simpl; [reflexivity|].
  rewrite magnitude_cons in H. pose proof (magnitude_nonneg conds) as Hn.
  rewrite asDouble_add by lia. apply IH. lia.
Qed.

Lemma sumOr0_whole (conds : list RiskCondition.t) (a : Z) :
  Z.abs a + magnitude conds < 2 ^ 53 ->
  fold_left
    (fun sum c =>
       (sum + Double.numberOr0 (Double.RiskCondition.weight c))%float)
    (map conditionAsDouble conds) (asDouble a)
  = asDouble
      (fold_left (fun sum c => sum + numberOr0 (RiskCondition.weight c))
         conds a).
Proof.
  revert a. induction conds as [|c conds IH]; intros a H; simpl; [reflexivity|].
  rewrite magnitude_cons in H. pose proof (magnitude_nonneg conds) as Hn.
  rewrite numberOr0_whole, numberOr0_id by lia.
  rewrite asDouble_add by lia. apply IH. lia.
Qed.

Lemma sumWeights_whole (conds : list RiskCondition.t) :
  magnitude conds < 2 ^ 53 ->
  Double.sumWeights (map conditionAsDouble conds)
  = asDouble (sumWeights conds).
Proof. intros H. apply (sum_whole conds 0). simpl. lia. Qed.

Lemma sumWeightsOr0_whole (conds : list RiskCondition.t) :
  magnitude conds < 2 ^ 53 ->
  Double.sumWeightsOr0 (map conditionAsDouble conds)
  = asDouble (sumWeightsOr0 conds).
Proof. intros H. apply (sumOr0_whole conds 0). simpl. lia. Qed.

Lemma filter_asDouble (conditionId : string) (conds : list RiskCondition.t) :
  List.filter
    (fun c => negb (String.eqb (Double.RiskCondition.id c) conditionId))
    (map conditionAsDouble conds)
  = map conditionAsDouble
      (List.filter
         (fun c => negb (String.eqb (RiskCondition.id c) conditionId)) conds).
Proof.
  induction conds as [|c conds IH]; simpl; [reflexivity|].
  destruct (negb _); simpl; rewrite IH; reflexivity.
Qed.

Lemma sumWeights_within (conds : list RiskCondition.t) :
  Z.abs (sumWeights conds) <= magnitude conds.
Proof. pose proof (sum_within_magnitude conds 0). simpl in H. exact H. Qed.

Lemma in_range_at (cats : list RiskCategory.t) (cat : RiskCategory.t) :
  inRange cats = true -> In cat cats ->
  magnitude (RiskCategory.conditions cat) <= wholeRange.
Proof.
  unfold inRange. rewrite forallb_forall. intros H Hin.
  apply Z.leb_le, H, Hin.
Qed.

(** Each editing operation on the doubles of a state of whole numbers in
    range gives the doubles of the state the integer model computes. *)
Lemma removeCondition_whole (tab conditionId : string)
    (cats : list RiskCategory.t) :
  inRange cats = true ->
  Double.removeCondition tab conditionId (map categoryAsDouble cats)
  = map categoryAsDouble (removeCondition tab conditionId cats).
Proof.
  intros Hr. unfold Double.removeCondition, removeCondition.
  rewrite !map_map. apply map_ext_in. intros cat Hin. simpl.
  destruct (String.eqb (RiskCategory.id cat) tab); [|reflexivity].
  pose proof (in_range_at cats cat Hr Hin) as Hm.
  pose proof wholeRange_small as Hs.
  pose proof (magnitude_filter
                (fun c => negb (String.eqb (RiskCondition.id c) conditionId))
                (RiskCategory.conditions cat)) as Hf.
  pose proof (sumWeights_within
                (List.filter
                   (fun c => negb (String.eqb (RiskCondition.id c) conditionId))
                   (RiskCategory.conditions cat))) as Hw.
  unfold categoryAsDouble, Double.withTotals, withTotals. simpl.
  rewrite filter_asDouble, sumWeights_whole, statusOf_whole by lia.
  reflexivity.
Qed.

Lemma addCondition_whole (tab : string) (now : Z)
    (cats : list RiskCategory.t) :
  Double.addCondition tab now (map categoryAsDouble cats)
  = map categoryAsDouble (addCondition tab now cats).
Proof.
  rewrite double_addCondition_as_map, addCondition_as_map, !map_map.
  apply map_ext. intros cat. simpl.
  destruct (String.eqb (RiskCategory.id cat) tab); [|reflexivity].
  unfold categoryAsDouble, Double.withConditions, withConditions. simpl.
  rewrite map_app. reflexivity.
Qed.

Lemma assign_whole (c : RiskCondition.t) (a : Assignment) :
  Double.assign (conditionAsDouble c) (assignmentAsDouble a)
  = conditionAsDouble (assign c a).
Proof. destruct c, a; reflexivity. Qed.

Lemma sumWeightsOr0_within (conds : list RiskCondition.t) :
  Z.abs (sumWeightsOr0 conds) <= magnitude conds.
Proof. rewrite sumWeightsOr0_eq. apply sumWeights_within. Qed.

Lemma cappedWeight_whole (conditionId : string) (v : Z)
    (conds : list RiskCondition.t) :
  magnitude conds <= wholeRange -> Z.abs v <= wholeRange ->
  Double.cappedWeight conditionId (asDouble v) (map conditionAsDouble conds)
  = asDouble (cappedWeight conditionId v conds).
Proof.
  intros Hm Hv. unfold Double.cappedWeight, cappedWeight.
  pose proof wholeRange_small as Hs.
  pose proof (magnitude_filter
                (fun c => negb (String.eqb (RiskCondition.id c) conditionId))
                conds) as Hf.
  pose proof (sumWeightsOr0_within
                (List.filter
                   (fun c => negb (String.eqb (RiskCondition.id c) conditionId))
                   conds)) as Hw.
  rewrite filter_asDouble, sumWeightsOr0_whole by lia.
  change 100%float with (asDouble 100).
  rewrite asDouble_sub by (simpl; lia).
  apply Math_min_whole; lia.
Qed.

Lemma updateCondition_whole (tab conditionId : string) (a : Assignment)
    (cats : list RiskCategory.t) :
  inRange cats = true ->
  requestInRange (update_condition tab conditionId a) = true ->
  Forall (fun cat => magnitude (RiskCategory.conditions cat) < 2 ^ 53)
    (updateCondition tab conditionId a cats) ->
  Double.updateCondition tab conditionId (assignmentAsDouble a)
    (map categoryAsDouble cats)
  = map categoryAsDouble (updateCondition tab conditionId a cats).
Proof.
  intros Hr Hreq Hpost.
  pose (change := fun (cat : RiskCategory.t) (c : RiskCondition.t) =>
          if String.eqb (RiskCondition.id c) conditionId then
            match a with
            | set_weight value =>
                assign c
                  (set_weight
                     (cappedWeight conditionId value
                        (RiskCategory.conditions cat)))
            | _ => assign c a
            end
          else c).
  pose (step := fun cat : RiskCategory.t =>
          if negb (String.eqb (RiskCategory.id cat) tab) then cat
          else
            withTotals cat (map (change cat) (RiskCategory.conditions cat))
              (sumWeightsOr0 (map (change cat) (RiskCategory.conditions cat)))
              (statusOf
                 (sumWeightsOr0
                    (map (change cat) (RiskCategory.conditions cat))))).
  assert (Hmap : updateCondition tab conditionId a cats = map step cats)
    by reflexivity.
  rewrite Hmap in *. unfold Double.updateCondition.
  rewrite !map_map. apply map_ext_in. intros cat Hin.
  rewrite List.Forall_forall in Hpost.
  pose proof (Hpost (step cat) (in_map step cats cat Hin)) as Hafter.
  pose proof (in_range_at cats cat Hr Hin) as Hm.
  pose proof wholeRange_small as Hs.
  unfold step in *. simpl.
  destruct (negb (String.eqb (RiskCategory.id cat) tab)); [reflexivity|].
  simpl in Hafter.
  assert (Hconds :
    map (fun c =>
           if String.eqb (Double.RiskCondition.id c) conditionId then
             match assignmentAsDouble a with
             | Double.set_weight value =>
                 Double.assign c
                   (Double.set_weight
                      (Double.cappedWeight conditionId value
                         (map conditionAsDouble (RiskCategory.conditions cat))))
             | _ => Double.assign c (assignmentAsDouble a)
             end
           else c)
      (map conditionAsDouble (RiskCategory.conditions cat))
    = map conditionAsDouble (map (change cat) (RiskCategory.conditions cat))).
  { rewrite !map_map. apply map_ext. intros c. unfold change. simpl.
    destruct (String.eqb (RiskCondition.id c) conditionId); [|reflexivity].
    destruct a; try (destruct c; reflexivity).
    simpl in Hreq. apply Z.leb_le in Hreq. simpl.
    rewrite (cappedWeight_whole conditionId v _ Hm Hreq).
    apply (assign_whole c (set_weight _)). }
  pose proof (sumWeightsOr0_within
                (map (change cat) (RiskCategory.conditions cat))) as Hw.
  unfold categoryAsDouble, Double.withTotals, withTotals. simpl.
  rewrite Hconds.
  rewrite sumWeightsOr0_whole, statusOf_whole by lia.
  reflexivity.
Qed.

Lemma inRange_below (cats : list RiskCategory.t) :
  inRange cats = true ->
  Forall (fun cat => magnitude (RiskCategory.conditions cat) < 2 ^ 53) cats.
Proof.
  intros H. apply List.Forall_forall. intros cat Hin.
  pose proof (in_range_at cats cat H Hin). pose proof wholeRange_small. lia.
Qed.

Lemma applyEdit_whole (e : Edit) (cats : list RiskCategory.t) :
  inRange cats = true -> requestInRange e = true ->
  inRange (applyEdit cats e) = true ->
  Double.applyEdit (map categoryAsDouble cats) (editAsDouble e)
  = map categoryAsDouble (applyEdit cats e).
Proof.
  intros Hr Hreq Hpost. destruct e as [tab now|tab conditionId|tab conditionId a];
    simpl.
  - apply addCondition_whole.
  - apply removeCondition_whole, Hr.
  - apply updateCondition_whole; auto using inRange_below.
Qed.

Lemma runInRange_inRange (edits : list Edit) (cats : list RiskCategory.t) :
  runInRange edits cats = true -> inRange cats = true.
Proof.
  destruct edits; simpl; intros H; apply andb_true_iff in H as [H _]; exact H.
Qed.

(** On whole numbers in range the doubles of the source are the integers of
    the model, call by call. *)
Lemma applyEdits_whole (edits : list Edit) (cats : list RiskCategory.t) :
  runInRange edits cats = true ->
  Double.applyEdits (map editAsDouble edits) (map categoryAsDouble cats)
  = map categoryAsDouble (applyEdits edits cats).
Proof.
  unfold Double.applyEdits, applyEdits. revert cats.
  induction edits as [|e edits IH]; intros cats Hrun; simpl; [reflexivity|].
  simpl in Hrun. apply andb_true_iff in Hrun as [Hr Hrun].
  apply andb_true_iff in Hrun as [Hreq Hrun].
  rewrite applyEdit_whole;
    [apply IH, Hrun | exact Hr | exact Hreq
    | apply (runInRange_inRange _ _ Hrun)].
Qed.

(** The value of the double of a whole number is that number. *)
Lemma scaled_asDouble (z : Z) :
  Z.abs z < 2 ^ 53 -> Double.scaled (asDouble z) = Some (z * 2 ^ 1074).
Proof.
  intros Hz. unfold Double.scaled. rewrite asDouble_spec by assumption.
  destruct (Z.eq_dec z 0) as [->|Hne]; [reflexivity|].
  destruct (whole_finite z Hne Hz) as (M & e & -> & He & Hle & HM).
  f_equal.
  assert (Hlow : 0 <= e + 1074)
    by (pose proof (Pos2Z.is_pos (digits2_pos (Z.to_pos (Z.abs z)))); lia).
  assert (Hpow : 2 ^ 1074 = 2 ^ (- e) * 2 ^ (e + 1074)).
  { rewrite <- Z.pow_add_r by lia. f_equal. lia. }
  rewrite Hpow, <- (Z.mul_assoc _ (Z.pos M)), HM.
  destruct (Z.ltb_spec z 0); [rewrite Z.abs_neq by lia | rewrite Z.abs_eq by lia];
    ring.
Qed.

(** The weights of whole numbers add up, as real numbers, to their sum. *)
Lemma exactSum_from (conds : list RiskCondition.t) (a : Z) :
  magnitude conds < 2 ^ 53 ->
  fold_left
    (fun sum c =>
       match sum, Double.scaled (Double.RiskCondition.weight c) with
       | Some a, Some x => Some (a + x)
       | _, _ => None
       end)
    (map conditionAsDouble conds) (Some a)
  = Some (a + sumWeights conds * 2 ^ 1074).
Proof.
  revert a. induction conds as [|c conds IH]; intros a Hm; simpl.
  - f_equal. change (sumWeights []) with 0. lia.
  - rewrite magnitude_cons in Hm. pose proof (magnitude_nonneg conds).
    rewrite scaled_asDouble by lia. rewrite IH by lia.
    rewrite sumWeights_cons. f_equal. ring.
Qed.

Lemma exactlySummed_whole (cat : RiskCategory.t) :
  magnitude (RiskCategory.conditions cat) < 2 ^ 53 ->
  sumsCorrectly cat ->
  Double.exactlySummed (categoryAsDouble cat) = true.
Proof.
  intros Hm Hsum. unfold Double.exactlySummed. apply bool_decide_eq_true.
  unfold Double.exactSum. simpl. rewrite exactSum_from by exact Hm.
  unfold sumsCorrectly in Hsum. rewrite Hsum.
  pose proof (sumWeights_within (RiskCategory.conditions cat)).
  rewrite scaled_asDouble by lia. reflexivity.
Qed.

Lemma magnitude_app (xs ys : list RiskCondition.t) :
  magnitude (xs ++ ys) = magnitude xs + magnitude ys.
Proof.
  induction xs as [|c xs IH]; simpl; [reflexivity|].
  rewrite !magnitude_cons, IH. lia.
Qed.

Lemma magnitude_others (conds : list RiskCondition.t) (i : nat)
    (c : RiskCondition.t) :
  conds !! i = Some c ->
  magnitude conds
  = magnitude (take i conds ++ drop (S i) conds)
    + Z.abs (RiskCondition.weight c).
Proof.
  intros Hc. rewrite <- (take_drop_middle conds i c Hc) at 1.
  rewrite !magnitude_app, magnitude_cons. lia.
Qed.

Lemma magnitude_insert (conds : list RiskCondition.t) (i : nat)
    (c : RiskCondition.t) :
  (i < length conds)%nat ->
  magnitude (<[i := c]> conds)
  = magnitude (take i conds ++ drop (S i) conds)
    + Z.abs (RiskCondition.weight c).
Proof.
  intros Hi. rewrite insert_take_drop by exact Hi.
  rewrite !magnitude_app, magnitude_cons. lia.
Qed.

(** One category at a time. *)
Lemma updateCondition_whole_at (tab conditionId : string) (a : Assignment)
    (cats : list RiskCategory.t) (k : nat) (cat cat' : RiskCategory.t) :
  cats !! k = Some cat ->
  updateCondition tab conditionId a cats !! k = Some cat' ->
  magnitude (RiskCategory.conditions cat) <= wholeRange ->
  requestInRange (update_condition tab conditionId a) = true ->
  magnitude (RiskCategory.conditions cat') < 2 ^ 53 ->
  Double.updateCondition tab conditionId (assignmentAsDouble a)
    (map categoryAsDouble cats) !! k
  = Some (categoryAsDouble cat').
Proof.
  intros Hk Hk' Hm Hreq Hafter.
  assert (Hone : updateCondition tab conditionId a [cat] = [cat']).
  { unfold updateCondition in *. rewrite lookup_map, Hk in Hk'. simpl in Hk'.
    injection Hk' as <-. reflexivity. }
  pose proof (updateCondition_whole tab conditionId a [cat]) as H.
  rewrite Hone in H. simpl in H.
  assert (Hd : Double.updateCondition tab conditionId (assignmentAsDouble a)
                 [categoryAsDouble cat] = [categoryAsDouble cat']).
  { apply H.
    - unfold inRange. simpl. rewrite andb_true_r. apply Z.leb_le, Hm.
    - exact Hreq.
    - constructor; [exact Hafter | constructor]. }
  unfold Double.updateCondition in *. rewrite !lookup_map, Hk. simpl.
  simpl in Hd. injection Hd as Hd. f_equal. exact Hd.
Qed.

Lemma removeCondition_whole_at (tab conditionId : string)
    (cats : list RiskCategory.t) (k : nat) (cat cat' : RiskCategory.t) :
  cats !! k = Some cat ->
  removeCondition tab conditionId cats !! k = Some cat' ->
  magnitude (RiskCategory.conditions cat) <= wholeRange ->
  Double.removeCondition tab conditionId (map categoryAsDouble cats) !! k
  = Some (categoryAsDouble cat').
Proof.
  intros Hk Hk' Hm.
  assert (Hone : removeCondition tab conditionId [cat] = [cat']).
  { unfold removeCondition in *. rewrite lookup_map, Hk in Hk'. simpl in Hk'.
    injection Hk' as <-. reflexivity. }
  pose proof (removeCondition_whole tab conditionId [cat]) as H.
  rewrite Hone in H. simpl in H.
  assert (Hd : Double.removeCondition tab conditionId [categoryAsDouble cat]
               = [categoryAsDouble cat']).
  { apply H. unfold inRange. simpl. rewrite andb_true_r. apply Z.leb_le, Hm. }
  unfold Double.removeCondition in *. rewrite !lookup_map, Hk. simpl.
  simpl in Hd. injection Hd as Hd. f_equal. exact Hd.
Qed.

(** A run in range ends in range. *)
Lemma runInRange_final (edits : list Edit) (cats : list RiskCategory.t) :
  runInRange edits cats = true -> inRange (applyEdits edits cats) = true.
Proof.
  unfold applyEdits. revert cats.
  induction edits as [|e edits IH]; intros cats Hrun; simpl in *.
  - rewrite andb_true_r in Hrun. exact Hrun.
  - apply andb_prop in Hrun as [_ Hrun]. apply andb_prop in Hrun as [_ Hrun].
    apply IH, Hrun.
Qed.

(** ** The total is the sum of the weights *)

Lemma addCondition_sums (cat : RiskCategory.t) (now : Z) :
  sumsCorrectly cat ->
  sumsCorrectly
    (withConditions cat (RiskCategory.conditions cat ++ [newCondition now])).
Proof.
  unfold sumsCorrectly. simpl. intros H.
  rewrite sumWeights_app, H.
  change (sumWeights [newCondition now]) with 0. lia.
Qed.

(** Every edit works category by category: the category at a position becomes
    the category at that position, and a correct total stays correct. *)
Lemma applyEdit_sums (e : Edit) (cats : list RiskCategory.t) (k : nat)
    (cat : RiskCategory.t) :
  cats !! k = Some cat ->
  sumsCorrectly cat ->
  exists cat',
    applyEdit cats e !! k = Some cat'
    /\ RiskCategory.id cat' = RiskCategory.id cat
    /\ sumsCorrectly cat'.
Proof.
  intros Hk Hsum. destruct e as [tab now|tab conditionId|tab conditionId a];
    simpl.
  - rewrite addCondition_as_map, lookup_map, Hk. simpl. eexists.
    split; [reflexivity|].
    destruct (String.eqb _ _); auto using addCondition_sums.
  - unfold removeCondition. rewrite lookup_map, Hk. simpl. eexists.
    split; [reflexivity|].
    destruct (String.eqb _ _); [|auto]. split; reflexivity.
  - unfold updateCondition. rewrite lookup_map, Hk. simpl. eexists.
    split; [reflexivity|].
    destruct (negb _); [auto|]. split; [reflexivity|].
    unfold sumsCorrectly. simpl. apply sumWeightsOr0_eq.
Qed.

Lemma applyEdits_sums (edits : list Edit)
    (cats : list RiskCategory.t) (k : nat) (cat : RiskCategory.t) :
  cats !! k = Some cat ->
  sumsCorrectly cat ->
  exists cat',
    applyEdits edits cats !! k = Some cat'
    /\ RiskCategory.id cat' = RiskCategory.id cat
    /\ sumsCorrectly cat'.
Proof.
  unfold applyEdits. revert cats cat.
  induction edits as [|e edits IH]; intros cats cat Hk Hsum; simpl.
  - exists cat. auto.
  - destruct (applyEdit_sums e cats k cat Hk Hsum) as (mid & Hmid & Hid & Hs).
    destruct (IH _ mid Hmid Hs) as (cat' & Hk' & Hid' & Hs').
    exists cat'. repeat split; [exact Hk' | congruence | exact Hs'].
Qed.

(** C2, amended. Take any category of any state whose [totalWeight] is the
    sum of its conditions' weights, and any sequence of [addCondition],
    [removeCondition] and [updateCondition] calls, under any active tabs.

    On doubles, as long as no stored weight is [NaN], the category at its
    position is afterwards the same category (same id) and its [totalWeight]
    is the number that adding its weights from left to right gives in double
    precision, with the rounding of each addition.

    On whole numbers, as long as before and after every call the absolute
    values of the weights of each category add up to at most [2^51], and
    every requested weight is at most [2^51] in absolute value: the doubles
    the calls compute are whole numbers, the ones the integer model computes,
    and the [totalWeight] is the exact sum of the weights, as integers and
    as the real numbers that the doubles are. *)
Theorem total_weight_sums_correctly :
  (forall (edits : list Double.Edit) (cats : list Double.RiskCategory.t)
          (k : nat) (cat : Double.RiskCategory.t),
      cats !! k = Some cat ->
      Double.sumsCorrectly cat ->
      Double.numericRun edits cats = true ->
      exists cat',
        Double.applyEdits edits cats !! k = Some cat'
        /\ Double.RiskCategory.id cat' = Double.RiskCategory.id cat
        /\ Double.sumsCorrectly cat')
  /\ (forall (edits : list Edit) (cats : list RiskCategory.t)
             (k : nat) (cat : RiskCategory.t),
         cats !! k = Some cat ->
         sumsCorrectly cat ->
         runInRange edits cats = true ->
         exists cat',
           applyEdits edits cats !! k = Some cat'
           /\ RiskCategory.id cat' = RiskCategory.id cat
           /\ sumsCorrectly cat'
           /\ Double.applyEdits (map editAsDouble edits)
                (map categoryAsDouble cats) !! k
              = Some (categoryAsDouble cat')
           /\ Double.exactlySummed (categoryAsDouble cat') = true).
Proof.
  split.
  - apply double_applyEdits_sums.
  - intros edits cats k cat Hk Hsum Hrun.
    destruct (applyEdits_sums edits cats k cat Hk Hsum)
      as (cat' & Hk' & Hid & Hsum').
    exists cat'. repeat split; try assumption.
    + rewrite applyEdits_whole by exact Hrun.
      rewrite lookup_map, Hk'. reflexivity.
    + apply exactlySummed_whole; [|exact Hsum'].
      pose proof (in_range_at _ cat' (runInRange_final _ _ Hrun)) as Hm.
      pose proof wholeRange_small.
      assert (In cat' (applyEdits edits cats))
        by (apply list_elem_of_In, (list_elem_of_lookup_2 _ k), Hk').
      specialize (Hm ltac:(assumption)). lia.
Qed.

(** Weights of 0.1, 66.6 and 33.3 typed into three new conditions, on
    doubles, and four edits of the financial category of the local editor,
    whose total goes from 55 to 65. *)
#[warnings="-inexact-float"]
Lemma total_weight_sums_correctly_witness :
  (exists cat',
      Double.applyEdits
        (Double.threeAdded ++
         [ Double.update_condition "financial" "1730000000001"
             (Double.set_weight 0.1);
           Double.update_condition "financial" "1730000000002"
             (Double.set_weight 66.6);
           Double.update_condition "financial" "1730000000003"
             (Double.set_weight 33.3) ])
        Double.emptyFinancial !! 0%nat = Some cat'
      /\ map Double.RiskCondition.weight (Double.RiskCategory.conditions cat')
         = [0.1; 66.6; 33.3]%float
      /\ Double.RiskCategory.totalWeight cat' = 99.99999999999999%float
      /\ Double.sumsCorrectly cat')
  /\ (exists cat',
         applyEdits
           [ add_condition "financial" 1730000000000;
             update_condition "financial" "1730000000000" (set_weight 70);
             remove_condition "financial" "2";
             update_condition "financial" "1" (set_weight 20) ]
           Local.initialCategories !! 0%nat = Some cat'
         /\ RiskCategory.id cat' = "financial"
         /\ sumsCorrectly cat'
         /\ Double.applyEdits
              [ Double.add_condition "financial" 1730000000000;
                Double.update_condition "financial" "1730000000000"
                  (Double.set_weight 70);
                Double.remove_condition "financial" "2";
                Double.update_condition "financial" "1"
                  (Double.set_weight 20) ]
              (map categoryAsDouble Local.initialCategories) !! 0%nat
            = Some (categoryAsDouble cat')
         /\ Double.exactlySummed (categoryAsDouble cat') = true).
Proof.
  destruct total_weight_sums_correctly as [Hdouble Hwhole].
  split.
  - destruct (Hdouble
                (Double.threeAdded ++
                 [ Double.update_condition "financial" "1730000000001"
                     (Double.set_weight (1 / 10));
                   Double.update_condition "financial" "1730000000002"
                     (Double.set_weight (666 / 10));
                   Double.update_condition "financial" "1730000000003"
                     (Double.set_weight (333 / 10)) ])
                Double.emptyFinancial 0%nat
                (Double.RiskCategory.mk "financial" "Financial & Credit" []
                   0%float incomplete))
      as (cat' & Hk & _ & Hsum).
    + reflexivity.
    + left. reflexivity.
    + vm_compute. reflexivity.
    + exists cat'. split; [exact Hk|].
      vm_compute in Hk. injection Hk as <-.
      split; [vm_compute; reflexivity|].
      split; [vm_compute; reflexivity | exact Hsum].
  - apply (Hwhole
             [ add_condition "financial" 1730000000000;
               update_condition "financial" "1730000000000" (set_weight 70);
               remove_condition "financial" "2";
               update_condition "financial" "1" (set_weight 20) ]
             Local.initialCategories 0%nat
             (RiskCategory.mk "financial" "Financial & Credit"
                [ RiskCondition.mk "1" "Loan Amount" ">" "5000" 40 "Number"
                    None None;
                  RiskCondition.mk "2" "Outstanding Balance" "=" "1500" 15
                    "Number" None None ]
                55 incomplete)).
    + reflexivity.
    + reflexivity.
    + vm_compute. reflexivity.
Defined.

(** C2 as stated fails on the numbers the editors hold.  Weights of 0.1, 66.6
    and 33.3, typed into three new conditions of a category that starts
    without conditions and with total 0, leave the total
    99.99999999999999, which is not the sum of the three weights; and whole
    weights of -18014398509481984 and 15 leave the total
    -18014398509481968, one off their sum. *)
#[warnings="-inexact-float"]
Lemma total_weight_is_rounded :
  let fractions :=
    Double.applyEdits
      (Double.threeAdded ++
       [ Double.update_condition "financial" "1730000000001"
           (Double.set_weight 0.1);
         Double.update_condition "financial" "1730000000002"
           (Double.set_weight 66.6);
         Double.update_condition "financial" "1730000000003"
           (Double.set_weight 33.3) ])
      Double.emptyFinancial in
  let whole :=
    Double.applyEdits
      (Double.threeAdded ++
       [ Double.update_condition "financial" "1730000000001"
           (Double.set_weight (-18014398509481984));
         Double.update_condition "financial" "1730000000002"
           (Double.set_weight 15) ])
      Double.emptyFinancial in
  map Double.exactlySummed Double.emptyFinancial = [true]
  /\ map (fun cat =>
            map Double.RiskCondition.weight (Double.RiskCategory.conditions cat))
       fractions
     = [[0.1; 66.6; 33.3]%float]
  /\ map Double.RiskCategory.totalWeight fractions = [99.99999999999999%float]
  /\ map Double.exactlySummed fractions = [false]
  /\ map (fun cat =>
            map Double.scaled
              (Double.RiskCategory.totalWeight cat
               :: map Double.RiskCondition.weight
                    (Double.RiskCategory.conditions cat)))
       whole
     = [[ Some (-18014398509481968 * 2 ^ 1074);
          Some (-18014398509481984 * 2 ^ 1074);
          Some (15 * 2 ^ 1074);
          Some 0 ]]
  /\ map Double.exactlySummed whole = [false].
Proof.
  vm_compute. repeat split; reflexivity.
Qed.

(** On whole numbers in range the two models compute the same: the edits of
    the example above, a request that is capped, and totals near the end of
    the range. *)
Example whole_numbers_agree :
  let edits :=
    [ add_condition "financial" 1730000000000;
      update_condition "financial" "1730000000000" (set_weight 70);
      remove_condition "financial" "2";
      update_condition "financial" "1" (set_weight 20);
      update_condition "financial" "1" (set_weight 90);
      add_condition "risk" 1730000000001;
      update_condition "risk" "1730000000001" (set_weight (- 2 ^ 50));
      add_condition "risk" 1730000000002;
      update_condition "risk" "1730000000002" (set_weight (2 ^ 50)) ] in
  runInRange edits Local.initialCategories = true
  /\ map categoryAsDouble (applyEdits edits Local.initialCategories)
     = Double.applyEdits (map editAsDouble edits)
         (map categoryAsDouble Local.initialCategories)
  /\ map RiskCategory.totalWeight (applyEdits edits Local.initialCategories)
     = [100; 0; 0; 0; 0].
Proof. vm_compute. repeat split; reflexivity. Qed.

Example edits_local_example :
  map (fun cat =>
         (RiskCategory.totalWeight cat,
          map RiskCondition.weight (RiskCategory.conditions cat)))
    (applyEdits
       [ add_condition "financial" 1730000000000;
         update_condition "financial" "1730000000000" (set_weight 70);
         remove_condition "financial" "2";
         update_condition "financial" "1" (set_weight 20) ]
       Local.initialCategories)
  = [(65, [20; 45]); (0, []); (0, []); (0, []); (0, [])].
Proof. reflexivity. Qed.

(** ** The cap on a requested weight *)

Lemma weight_assign (c : RiskCondition.t) (x : Z) :
  RiskCondition.weight (assign c (set_weight x)) = x.
Proof. destruct c. reflexivity. Qed.

Lemma sumWeights_insert (conds : list RiskCondition.t) (i : nat)
    (c : RiskCondition.t) :
  (i < length conds)%nat ->
  sumWeights (<[i := c]> conds) = othersWeight i conds + RiskCondition.weight c.
Proof.
  intros Hi. unfold othersWeight.
  rewrite insert_take_drop by exact Hi.
  rewrite !sumWeights_app, sumWeights_cons. lia.
Qed.

(** The sum [updateCondition] calls [otherWeights] is the sum over the other
    positions when no other condition has the identifier. *)
Lemma otherWeights_by_position (conditionId : string)
    (conds : list RiskCondition.t) (i : nat) (c : RiskCondition.t) :
  conds !! i = Some c ->
  RiskCondition.id c = conditionId ->
  (forall j c', j <> i -> conds !! j = Some c' ->
                RiskCondition.id c' <> conditionId) ->
  forall value,
    cappedWeight conditionId value conds
    = Z.min value (100 - othersWeight i conds).
Proof.
  intros Hc Hid Hothers value. unfold cappedWeight, othersWeight.
  rewrite sumWeightsOr0_eq.
  rewrite (filter_drops_one _ conds i c Hc).
  - reflexivity.
  - rewrite Hid, String.eqb_refl. reflexivity.
  - intros j y Hj Hy. apply negb_true_iff, String.eqb_neq.
    apply (Hothers j y Hj Hy).
Qed.

Lemma double_otherWeights_by_position (conditionId : string)
    (conds : list Double.RiskCondition.t) (i : nat)
    (c : Double.RiskCondition.t) :
  conds !! i = Some c ->
  Double.RiskCondition.id c = conditionId ->
  (forall j c', j <> i -> conds !! j = Some c' ->
                Double.RiskCondition.id c' <> conditionId) ->
  forall value,
    Double.cappedWeight conditionId value conds
    = Double.Math_min value
        (100 - Double.sumWeightsOr0 (take i conds ++ drop (S i) conds))%float.
Proof.
  intros Hc Hid Hothers value. unfold Double.cappedWeight.
  rewrite (filter_drops_one _ conds i c Hc).
  - reflexivity.
  - rewrite Hid, String.eqb_refl. reflexivity.
  - intros j y Hj Hy. apply negb_true_iff, String.eqb_neq.
    apply (Hothers j y Hj Hy).
Qed.

Lemma wholeRange_twice : 2 * wholeRange + 100 < 2 ^ 53.
Proof. vm_compute. reflexivity. Qed.

(** A condition with an id of its own, given the capped weight: the absolute
    values of the weights still add up to less than [2^53]. *)
Lemma capped_magnitude (conds : list RiskCondition.t) (i : nat)
    (c : RiskCondition.t) (v : Z) :
  conds !! i = Some c ->
  magnitude conds <= wholeRange ->
  Z.abs v <= wholeRange ->
  Z.abs (othersWeight i conds) <= wholeRange
  /\ magnitude
       (<[i := assign c (set_weight (Z.min v (100 - othersWeight i conds)))]>
          conds)
     < 2 ^ 53.
Proof.
  intros Hc Hm Hv. pose proof wholeRange_twice as Hr.
  pose proof (magnitude_others conds i c Hc) as Hsplit.
  pose proof (sumWeights_within (take i conds ++ drop (S i) conds)) as Hs.
  fold (othersWeight i conds) in Hs.
  rewrite magnitude_insert by (eapply lookup_lt_Some, Hc).
  rewrite weight_assign. lia.
Qed.

(** C3, amended. When the active category holds, at position [i], a condition
    whose identifier no other condition of that category has, [updateCondition]
    on ["weight"] with requested value [v] stores [min(v, 100 - s)] as that
    condition's weight, where [s] is the sum of the weights of the other
    conditions, and changes no other condition.

    On doubles [s], [100 - s] and the new [totalWeight] are what the source
    computes: sums from left to right in double precision, a weight that is 0
    or [NaN] adding 0, and the status is complete when the new total is 100.
    The stored weight is [v] or [100 - s] and exceeds neither; it is [NaN]
    when one of them is.

    On whole numbers, when the absolute values of the weights of the category
    add up to at most [2^51] and the request is at most [2^51] in absolute
    value, no operation rounds: the doubles the call computes are the whole
    numbers of the integer model, and the new [totalWeight] is
    [s + min(v, 100 - s)], which is at most 100. *)
Theorem updateCondition_weight_capped :
  (forall (tab conditionId : string) (v : float)
          (cats : list Double.RiskCategory.t) (k i : nat)
          (cat : Double.RiskCategory.t) (c : Double.RiskCondition.t),
      cats !! k = Some cat ->
      Double.RiskCategory.id cat = tab ->
      Double.RiskCategory.conditions cat !! i = Some c ->
      Double.RiskCondition.id c = conditionId ->
      (forall j c', j <> i ->
                    Double.RiskCategory.conditions cat !! j = Some c' ->
                    Double.RiskCondition.id c' <> conditionId) ->
      let conds := Double.RiskCategory.conditions cat in
      let orZero :=
        fun w : float =>
          if (is_nan w || (w =? 0)%float)%bool then 0%float else w in
      let sum :=
        fold_left
          (fun sum c' => (sum + orZero (Double.RiskCondition.weight c'))%float) in
      let s := sum (take i conds ++ drop (S i) conds) 0%float in
      exists stored : float,
        let conds' :=
          <[i := Double.RiskCondition.mk (Double.RiskCondition.id c)
                   (Double.RiskCondition.field c)
                   (Double.RiskCondition.operator c)
                   (Double.RiskCondition.value c) stored
                   (Double.RiskCondition.dataType c)
                   (Double.RiskCondition.configId c)
                   (Double.RiskCondition.riskFieldId c)]> conds in
        let total := sum conds' 0%float in
        Double.updateCondition tab conditionId (Double.set_weight v) cats !! k
        = Some
            (Double.RiskCategory.mk (Double.RiskCategory.id cat)
               (Double.RiskCategory.name cat) conds' total
               (if (total =? 100)%float then complete else incomplete))
        /\ (is_nan v = false -> is_nan (100 - s)%float = false ->
            (stored = v \/ stored = (100 - s)%float)
            /\ (stored <=? v)%float = true
            /\ (stored <=? 100 - s)%float = true)
        /\ ((is_nan v || is_nan (100 - s)%float)%bool = true ->
            is_nan stored = true))
  /\ (forall (tab conditionId : string) (v : Z) (cats : list RiskCategory.t)
             (k i : nat) (cat : RiskCategory.t) (c : RiskCondition.t),
         cats !! k = Some cat ->
         RiskCategory.id cat = tab ->
         RiskCategory.conditions cat !! i = Some c ->
         RiskCondition.id c = conditionId ->
         (forall j c', j <> i -> RiskCategory.conditions cat !! j = Some c' ->
                       RiskCondition.id c' <> conditionId) ->
         magnitude (RiskCategory.conditions cat) <= wholeRange ->
         Z.abs v <= wholeRange ->
         let s := othersWeight i (RiskCategory.conditions cat) in
         let capped := assign c (set_weight (Z.min v (100 - s))) in
         let after :=
           withTotals cat (<[i := capped]> (RiskCategory.conditions cat))
             (s + Z.min v (100 - s)) (statusOf (s + Z.min v (100 - s))) in
         updateCondition tab conditionId (set_weight v) cats !! k = Some after
         /\ s + Z.min v (100 - s) <= 100
         /\ Double.updateCondition tab conditionId
              (Double.set_weight (asDouble v)) (map categoryAsDouble cats) !! k
            = Some (categoryAsDouble after)
         /\ (Double.RiskCategory.totalWeight (categoryAsDouble after) <=? 100)%float
            = true).
Proof.
  split.
  - intros tab conditionId v cats k i cat c Hcat Htab Hc Hid Hothers
      conds orZero sum s.
    exists (Double.Math_min v (100 - s)%float).
    split; [|split; [apply Math_min_spec | apply Math_min_nan]].
    subst tab conditionId.
    unfold Double.updateCondition. rewrite lookup_map, Hcat. simpl.
    rewrite String.eqb_refl. simpl.
    rewrite (double_otherWeights_by_position _ _ i c Hc eq_refl Hothers v).
    rewrite (map_changes_one _ conds i c Hc).
    + rewrite String.eqb_refl. destruct c. reflexivity.
    + intros j y Hj Hy.
      destruct (String.eqb_spec (Double.RiskCondition.id y)
                  (Double.RiskCondition.id c)) as [E|_]; [|reflexivity].
      destruct (Hothers j y Hj Hy E).
  - intros tab conditionId v cats k i cat c Hcat Htab Hc Hid Hothers Hm Hv
      s capped after.
    assert (Hcall :
      updateCondition tab conditionId (set_weight v) cats !! k = Some after).
    { unfold updateCondition. rewrite lookup_map, Hcat. simpl.
      rewrite Htab, String.eqb_refl. simpl.
      rewrite (otherWeights_by_position conditionId _ i c Hc Hid Hothers v).
      fold s.
      rewrite (map_changes_one _ (RiskCategory.conditions cat) i c Hc).
      + rewrite Hid, String.eqb_refl. fold capped.
        rewrite sumWeightsOr0_eq, sumWeights_insert
          by (eapply lookup_lt_Some, Hc).
        unfold capped at 2 3. rewrite weight_assign. reflexivity.
      + intros j y Hj Hy.
        destruct (String.eqb_spec (RiskCondition.id y) conditionId) as [E|_];
          [|reflexivity].
        destruct (Hothers j y Hj Hy E). }
    destruct (capped_magnitude _ i c v Hc Hm Hv) as [Hs Hafter].
    fold s in Hs, Hafter. pose proof wholeRange_twice as Hr.
    split; [exact Hcall|]. split; [lia|]. split.
    + apply (updateCondition_whole_at tab conditionId (set_weight v) cats k
               cat after Hcat Hcall Hm).
      * apply Z.leb_le, Hv.
      * exact Hafter.
    + unfold after. simpl. change 100%float with (asDouble 100).
      rewrite asDouble_leb by (simpl; lia). apply Z.leb_le. lia.
Qed.

(** On doubles: next to weights of 0.2 and 0.4 a request of 100 for the first
    condition is cut to 99.4, which is [100 - 0.6000000000000001].  On
    whole numbers, in the local editor's initial state: the other weight is
    15, so a request of 90 for the first condition is cut to 85 and completes
    the category. *)
#[warnings="-inexact-float"]
Lemma updateCondition_weight_capped_witness :
  (let before :=
     Double.applyEdits
       (Double.threeAdded ++
        [ Double.update_condition "financial" "1730000000002"
            (Double.set_weight 0.2);
          Double.update_condition "financial" "1730000000003"
            (Double.set_weight 0.4) ])
       Double.emptyFinancial in
   exists stored,
     Double.updateCondition "financial" "1730000000001"
       (Double.set_weight 100) before !! 0%nat
     = Some
         (Double.RiskCategory.mk "financial" "Financial & Credit"
            [ Double.RiskCondition.mk "1730000000001" "" ">" "" stored
                "Number" None None;
              Double.RiskCondition.mk "1730000000002" "" ">" "" 0.2 "Number"
                None None;
              Double.RiskCondition.mk "1730000000003" "" ">" "" 0.4 "Number"
                None None ]
            100.00000000000001 incomplete)
     /\ stored = 99.4%float
     /\ (stored <=? 100 - 0.6000000000000001)%float = true)
  /\ updateCondition "financial" "1" (set_weight 90) Local.initialCategories
       !! 0%nat
     = Some
         (RiskCategory.mk "financial" "Financial & Credit"
            [ RiskCondition.mk "1" "Loan Amount" ">" "5000" 85 "Number" None None;
              RiskCondition.mk "2" "Outstanding Balance" "=" "1500" 15 "Number"
                None None ]
            100 complete)
  /\ 15 + Z.min 90 (100 - 15) <= 100
  /\ Double.updateCondition "financial" "1" (Double.set_weight 90)
       (map categoryAsDouble Local.initialCategories) !! 0%nat
     = Some
         (Double.RiskCategory.mk "financial" "Financial & Credit"
            [ Double.RiskCondition.mk "1" "Loan Amount" ">" "5000" 85 "Number"
                None None;
              Double.RiskCondition.mk "2" "Outstanding Balance" "=" "1500" 15
                "Number" None None ]
            100 complete)
  /\ (100 <=? 100)%float = true.
Proof.
  destruct updateCondition_weight_capped as [Hdouble Hwhole].
  split.
  - intros before.
    pose (c := Double.RiskCondition.mk "1730000000001" "" ">" "" 0%float
                 "Number" None None).
    pose (cat := Double.RiskCategory.mk "financial" "Financial & Credit"
                   [ c;
                     Double.RiskCondition.mk "1730000000002" "" ">" ""
                       (2 / 10)%float "Number" None None;
                     Double.RiskCondition.mk "1730000000003" "" ">" ""
                       (4 / 10)%float "Number" None None ]
                   (2 / 10 + 4 / 10)%float incomplete).
    assert (Hbefore : before !! 0%nat = Some cat) by (vm_compute; reflexivity).
    assert (Hothers : forall j c', j <> 0%nat ->
              Double.RiskCategory.conditions cat !! j = Some c' ->
              Double.RiskCondition.id c' <> "1730000000001").
    { intros [|[|[|j]]] c' Hj Hc'; simpl in Hc'.
      - destruct (Hj eq_refl).
      - injection Hc' as <-. simpl. discriminate.
      - injection Hc' as <-. simpl. discriminate.
      - discriminate. }
    destruct (Hdouble "financial" "1730000000001" 100%float before 0%nat 0%nat
                cat c Hbefore eq_refl eq_refl eq_refl Hothers)
      as (stored & Hcall & Hmin & _).
    assert (Hcomputed :
      Double.updateCondition "financial" "1730000000001"
        (Double.set_weight 100) before !! 0%nat
      = Some
          (Double.RiskCategory.mk "financial" "Financial & Credit"
             [ Double.RiskCondition.mk "1730000000001" "" ">" ""
                 (994 / 10)%float "Number" None None;
               Double.RiskCondition.mk "1730000000002" "" ">" ""
                 (2 / 10)%float "Number" None None;
               Double.RiskCondition.mk "1730000000003" "" ">" ""
                 (4 / 10)%float "Number" None None ]
             (994 / 10 + 2 / 10 + 4 / 10)%float incomplete))
      by (vm_compute; reflexivity).
    rewrite Hcomputed in Hcall. cbn in Hcall.
    injection Hcall as Hstored _ _.
    exists stored. split; [|split].
    + rewrite Hcomputed, <- Hstored. vm_compute. reflexivity.
    + rewrite <- Hstored. vm_compute. reflexivity.
    + destruct Hmin as (_ & _ & Hle); [reflexivity | reflexivity |].
      exact Hle.
  - apply (Hwhole "financial" "1" 90
             Local.initialCategories 0%nat 0%nat
             (RiskCategory.mk "financial" "Financial & Credit"
                [ RiskCondition.mk "1" "Loan Amount" ">" "5000" 40 "Number"
                    None None;
                  RiskCondition.mk "2" "Outstanding Balance" "=" "1500" 15
                    "Number" None None ]
                55 incomplete)
             (RiskCondition.mk "1" "Loan Amount" ">" "5000" 40 "Number" None None)).
    + reflexivity.
    + reflexivity.
    + reflexivity.
    + reflexivity.
    + intros [|[|j]] c' Hj Hc'; simpl in Hc'.
      * destruct (Hj eq_refl).
      * injection Hc' as <-. simpl. discriminate.
      * discriminate.
    + vm_compute. discriminate.
    + vm_compute. discriminate.
Defined.

(** C3 as stated fails in two ways.

    Two conditions can share an identifier, which two [addCondition] calls in
    the same millisecond produce: for either of them the other weights sum to
    0, yet a request of 60 is stored in both and the total becomes 120.

    And on doubles the cap does not keep the total at 100: with distinct
    identifiers, next to weights of 0.2 and 0.4, whose sum
    0.6000000000000001 is below 100, a request of 100 for the first
    condition is stored as 99.4, which is [min(100, 100 - s)], and the
    recomputed total is 100.00000000000001, above 100 and not complete. *)
#[warnings="-inexact-float"]
Lemma updateCondition_weight_cap_fails :
  let before :=
    applyEdits
      [ add_condition "financial" 1730000000000;
        add_condition "financial" 1730000000000 ]
      Api.initialCategories in
  let after :=
    updateCondition "financial" "1730000000000" (set_weight 60) before in
  let fractions :=
    Double.applyEdits
      (Double.threeAdded ++
       [ Double.update_condition "financial" "1730000000002"
           (Double.set_weight 0.2);
         Double.update_condition "financial" "1730000000003"
           (Double.set_weight 0.4) ])
      Double.emptyFinancial in
  let capped :=
    Double.updateCondition "financial" "1730000000001"
      (Double.set_weight 100) fractions in
  (map RiskCondition.id (flat_map RiskCategory.conditions before)
   = ["1730000000000"; "1730000000000"]
   /\ othersWeight 0 (flat_map RiskCategory.conditions before) = 0
   /\ othersWeight 1 (flat_map RiskCategory.conditions before) = 0
   /\ map RiskCondition.weight (flat_map RiskCategory.conditions after)
      = [60; 60]
   /\ map RiskCategory.totalWeight after = [120; 0; 0; 0; 0]
   /\ 100 < hd 0 (map RiskCategory.totalWeight after))
  /\ (map Double.RiskCondition.id
        (flat_map Double.RiskCategory.conditions fractions)
      = ["1730000000001"; "1730000000002"; "1730000000003"]
      /\ map Double.RiskCondition.weight
           (flat_map Double.RiskCategory.conditions fractions)
         = [0; 0.2; 0.4]%float
      /\ Double.sumWeightsOr0
           (drop 1 (flat_map Double.RiskCategory.conditions fractions))
         = 0.6000000000000001%float
      /\ (0.6000000000000001 <=? 100)%float = true
      /\ map Double.RiskCondition.weight
           (flat_map Double.RiskCategory.conditions capped)
         = [99.4; 0.2; 0.4]%float
      /\ Double.Math_min 100 (100 - 0.6000000000000001)%float = 99.4%float
      /\ map Double.RiskCategory.totalWeight capped
         = [100.00000000000001%float]
      /\ (100 <? hd 0 (map Double.RiskCategory.totalWeight capped))%float = true
      /\ map Double.RiskCategory.status capped = [incomplete]).
Proof.
  vm_compute. repeat split; reflexivity.
Qed.

(** ** Adding a condition *)

(** C9. [addCondition] keeps the number and order of the categories; a
    category whose id is the active tab gets exactly one condition appended
    (fresh id, empty field, operator [">"], empty value, weight 0, data type
    ["Number"]) and keeps its id, name, earlier conditions, totalWeight and
    status; every other category is unchanged; when no category has the
    active tab's id the state is unchanged; and the handler touches nothing
    of the world but [categories]. *)
Theorem addCondition_appends_one (tab : string) (now : Z)
    (cats : list RiskCategory.t) :
  length (addCondition tab now cats) = length cats
  /\ (forall k cat, cats !! k = Some cat ->
        addCondition tab now cats !! k
        = Some
            (if String.eqb (RiskCategory.id cat) tab
             then RiskCategory.mk (RiskCategory.id cat) (RiskCategory.name cat)
                    (RiskCategory.conditions cat
                     ++ [RiskCondition.mk (toString now) "" ">" "" 0 "Number"
                           None None])
                    (RiskCategory.totalWeight cat) (RiskCategory.status cat)
             else cat))
  /\ ((forall cat, In cat cats -> RiskCategory.id cat <> tab) ->
      addCondition tab now cats = cats)
  /\ (forall p w,
        exec onAddCondition p w
        = mkWorld (addCondition (activeTab w) (Date_now p) (categories w))
            (activeTab w) (loading w) (toasts w) (requests w)
            (localStorage w)).
Proof.
  split; [|split; [|split]].
  - rewrite addCondition_as_map. apply length_map.
  - intros k cat Hk. rewrite addCondition_as_map, lookup_map, Hk. reflexivity.
  - intros Hnone. unfold addCondition.
    destruct (find _ cats) as [cat|] eqn:E; [|reflexivity].
    apply find_some in E as [Hin Heq].
    apply String.eqb_eq in Heq. destruct (Hnone cat Hin Heq).
  - reflexivity.
Qed.

(** Adding to the financial tab of the local editor, and to a tab no category
    has. *)
Example addCondition_local_example :
  addCondition "financial" 1730000000000 Local.initialCategories
  = [ RiskCategory.mk "financial" "Financial & Credit"
        [ RiskCondition.mk "1" "Loan Amount" ">" "5000" 40 "Number" None None;
          RiskCondition.mk "2" "Outstanding Balance" "=" "1500" 15 "Number"
            None None;
          RiskCondition.mk "1730000000000" "" ">" "" 0 "Number" None None ]
        55 incomplete;
      RiskCategory.mk "identity" "Identity & Verification" [] 0 incomplete;
      RiskCategory.mk "property" "Property & Stability" [] 0 incomplete;
      RiskCategory.mk "contactability" "Contactability & Behaviour" [] 0
        incomplete;
      RiskCategory.mk "risk" "Risk Factors" [] 0 incomplete ]
  /\ addCondition "summary" 1730000000000 Local.initialCategories
     = Local.initialCategories.
Proof. split; reflexivity. Qed.

(** ** The fields still on offer *)

Lemma includes_In (arr : list string) (x : string) :
  includes arr x = true <-> In x arr.
Proof.
  unfold includes. rewrite existsb_exists. split.
  - intros [y [Hy E]]. apply String.eqb_eq in E. subst. exact Hy.
  - intros H. exists x. split; [exact H | apply String.eqb_refl].
Qed.

















(** In the local editor's initial state the financial tab has used "Loan
    Amount" and "Outstanding Balance"; the current field stays on offer.  An
    unknown id gives no field, and an inherited name makes the call throw. *)
Example getAvailableFields_local_example :
  option_map (map FieldOption.name)
    (match
       getAvailableFields Local.fieldOptions Local.initialCategories
         "financial" (Some "Loan Amount")
     with
     | returned fields => Some fields
     | thrown => None
     end)
  = Some [ "Loan Amount"; "Days Past Due (DPD)"; "Repayment History Score";
           "Previous Defaults (count)"; "Cost-to-Collect Estimate" ]
  /\ getAvailableFields Local.fieldOptions Local.initialCategories
       "summary" None = returned []
  /\ getAvailableFields Local.fieldOptions Local.initialCategories
       "__proto__" None = thrown
  /\ getAvailableFields Api.fieldOptions Api.initialCategories
       "toString" None = thrown.
Proof. repeat split; reflexivity. Qed.

(** ** Saving *)

Lemma forallb_savable (cats : list RiskCategory.t) :
  forallb savable cats = true
  <-> (forall cat, In cat cats ->
         RiskCategory.conditions cat <> [] -> RiskCategory.totalWeight cat = 100).
Proof.
  rewrite forallb_forall. unfold savable.
  split; intros H cat Hin; specialize (H cat Hin).
  - intros Hne. destruct (RiskCategory.conditions cat); [congruence|].
    simpl in H. apply Z.eqb_eq, H.
  - destruct (RiskCategory.conditions cat); [reflexivity|]. simpl.
    apply Z.eqb_eq, H. discriminate.
Qed.

Lemma forallb_savable_false (cats : list RiskCategory.t) :
  forallb savable cats = false
  <-> (exists cat, In cat cats /\ RiskCategory.conditions cat <> []
                   /\ RiskCategory.totalWeight cat <> 100).
Proof.
  induction cats as [|cat cats IH]; simpl.
  - split; [discriminate | intros [cat [[] _]]].
  - rewrite andb_false_iff, IH. unfold savable. split.
    + intros [H|[cat' [Hin H]]]; [exists cat | exists cat']; auto.
      destruct (RiskCategory.conditions cat); [discriminate|].
      simpl in H. apply Z.eqb_neq in H.
      repeat split; [left; reflexivity | discriminate | exact H].
    + intros [cat' [[<-|Hin] [Hne Hw]]]; [left | right; exists cat'; auto].
      destruct (RiskCategory.conditions cat); [congruence|].
      simpl. apply Z.eqb_neq, Hw.
Qed.

(** C4. [saveRules] of the API-backed editor sends the save POST exactly when
    every category with at least one condition has [totalWeight] 100.
    Otherwise it shows the destructive "Invalid Configuration" toast and sends
    nothing.  It never changes [categories], and categories without
    conditions never stop the POST. *)
Theorem saveRules_posts_iff_complete (p : Platform) (w : World) :
  let w' := exec Api.saveRules p w in
  let post :=
    mkRequest "POST"
      "https://marstonx-defaulterrankingapp.azurewebsites.net/api/SaveConfig"
      [("Content-Type", "application/json")]
      (Some (JSON_stringify p
               (JArray (allConditions Api.fieldOptions (categories w))))) in
  ((forall cat, In cat (categories w) ->
      RiskCategory.conditions cat <> [] -> RiskCategory.totalWeight cat = 100)
   <-> requests w' = requests w ++ [post])
  /\ ((exists cat, In cat (categories w) /\ RiskCategory.conditions cat <> []
                   /\ RiskCategory.totalWeight cat <> 100)
      <-> toasts w'
          = toasts w ++
            [mkToast "Invalid Configuration"
               "All categories with conditions must have weights totaling 100%"
               destructive]
          /\ requests w' = requests w)
  /\ categories w' = categories w
  /\ ((forall cat, In cat (categories w) -> RiskCategory.conditions cat = []) ->
      requests w' = requests w ++ [post]).
Proof.
  intros w' post.
  assert (Hrun : w' =
            if forallb savable (categories w)
            then exec Api.saveConfigurations p w
            else exec (toast Api.invalidToast) p w).
  { unfold w', exec. rewrite saveRules_run.
    destruct (forallb savable (categories w)); reflexivity. }
  assert (Hsave : requests (exec Api.saveConfigurations p w)
                  = requests w ++ [post]
                  /\ toasts (exec Api.saveConfigurations p w)
                     <> toasts w ++ [Api.invalidToast]).
  { unfold exec. pose proof (saveConfigurations_run p w) as H. simpl in H.
    rewrite H. simpl. split; [reflexivity|].
    intros E. apply app_inv_head in E.
    destruct (network p _) as [|[[|] d]]; discriminate. }
  destruct Hsave as [Hreq Htoast].
  rewrite <- forallb_savable, <- forallb_savable_false.
  split; [|split; [|split]].
  - rewrite Hrun. destruct (forallb savable (categories w)).
    + split; [intros _; exact Hreq | reflexivity].
    + split; [discriminate|]. simpl. intros E. symmetry in E.
      destruct (app_one_neq _ _ E).
  - rewrite Hrun. destruct (forallb savable (categories w)).
    + split; [discriminate|]. intros [E _]. destruct (Htoast E).
    + split; [intros _; split; reflexivity | reflexivity].
  - unfold w'. apply saveRules_categories.
  - intros Hempty. rewrite Hrun.
    replace (forallb savable (categories w)) with true; [exact Hreq|].
    symmetry. apply forallb_forall. intros cat Hin. unfold savable.
    rewrite (Hempty cat Hin). reflexivity.
Qed.

(** ** Failing calls *)

(** C7. When the GET of [fetchConfigurations] fails (the [fetch] promise
    rejects, or the body cannot be read as a list of items), and when the POST
    of [saveConfigurations] fails (the [fetch] promise rejects, or the
    response is not ok), the handler shows exactly one toast, which is
    destructive, sends exactly the one request, and leaves [categories] as
    they were. *)
Theorem failed_call_one_destructive_toast (p : Platform) (w : World) :
  let post :=
    Api.saveConfigRequest
      (JSON_stringify p
         (JArray (allConditions Api.fieldOptions (categories w)))) in
  ((network p Api.getConfigRequest = rejected
    \/ exists o, network p Api.getConfigRequest = resolved (mkResponse o None)) ->
   let w' := exec Api.fetchConfigurations p w in
   toasts w'
   = toasts w ++ [mkToast "Error" "Failed to load configurations" destructive]
   /\ requests w' = requests w ++ [Api.getConfigRequest]
   /\ categories w' = categories w)
  /\ ((network p post = rejected
       \/ exists data, network p post = resolved (mkResponse false data)) ->
      let w' := exec Api.saveConfigurations p w in
      toasts w'
      = toasts w ++ [mkToast "Error" "Failed to save configurations" destructive]
      /\ requests w' = requests w ++ [post]
      /\ categories w' = categories w).
Proof.
  intros post. split.
  - intros H w'. unfold w', exec. rewrite fetchConfigurations_run.
    destruct H as [->|[o ->]]; simpl; auto.
  - intros H w'. unfold w', exec.
    pose proof (saveConfigurations_run p w) as Hrun. simpl in Hrun.
    rewrite Hrun. simpl. fold post.
    destruct H as [->|[data ->]]; simpl; auto.
Qed.

(** C8. [saveRules] of the local editor stores, under ["riskCategories"], the
    serialisation of the current categories: the array, in order, of one
    object per category with its [id], [name], [conditions], [totalWeight] and
    [status], where [conditions] is the array, in order, of one object per
    condition with its [id], [field], [operator], [value], [weight] and
    [dataType], and its [configId] and [riskFieldId] when they are set.  It
    leaves every other key of [localStorage] alone, shows the "Rules Saved"
    toast and changes neither [categories] nor anything else; it does so in
    every state, whatever the totals are. *)
Theorem local_saveRules_stores_categories (p : Platform) (w : World) :
  let w' := exec Local.saveRules p w in
  localStorage w' !! "riskCategories"
  = Some
      (JSON_stringify p
         (JArray
            (map
               (fun cat =>
                  JObject
                    [ ("id", JString (RiskCategory.id cat));
                      ("name", JString (RiskCategory.name cat));
                      ("conditions",
                       JArray
                         (map
                            (fun c =>
                               JObject
                                 ([ ("id", JString (RiskCondition.id c));
                                    ("field", JString (RiskCondition.field c));
                                    ("operator",
                                     JString (RiskCondition.operator c));
                                    ("value", JString (RiskCondition.value c));
                                    ("weight", JNumber (RiskCondition.weight c));
                                    ("dataType",
                                     JString (RiskCondition.dataType c)) ]
                                  ++ match RiskCondition.configId c with
                                     | Some n => [("configId", JNumber n)]
                                     | None => []
                                     end
                                  ++ match RiskCondition.riskFieldId c with
                                     | Some n => [("riskFieldId", JNumber n)]
                                     | None => []
                                     end))
                            (RiskCategory.conditions cat)));
                      ("totalWeight", JNumber (RiskCategory.totalWeight cat));
                      ("status",
                       match RiskCategory.status cat with
                       | incomplete => JString "incomplete"
                       | complete => JString "complete"
                       end) ])
               (categories w))))
  /\ (forall key, key <> "riskCategories" ->
        localStorage w' !! key = localStorage w !! key)
  /\ toasts w'
     = toasts w ++
       [mkToast "Rules Saved"
          "Scoring Configuration has been saved successfully. Dashboard will reflect these changes."
          plain]
  /\ categories w' = categories w
  /\ requests w' = requests w
  /\ activeTab w' = activeTab w
  /\ loading w' = loading w.
Proof.
  intros w'. unfold w', exec. rewrite local_saveRules_run. simpl.
  split; [apply lookup_insert_eq|].
  split; [|repeat split].
  intros key Hkey. apply lookup_insert_ne. congruence.
Qed.

(** ** The payload of the save request *)

Lemma api_riskFieldIds_set :
  forall f, In f (flatOptions Api.fieldOptions) ->
    exists m, FieldOption.riskFieldId f = Some m /\ m <> 0.
Proof.
  apply List.Forall_forall. unfold flatOptions. simpl.
  repeat constructor; eexists; (split; [reflexivity | discriminate]).
Qed.

Lemma riskFieldIdOf_sent (c : RiskCondition.t) :
  sentRiskFieldId Api.fieldOptions c (riskFieldIdOf Api.fieldOptions c).
Proof.
  unfold sentRiskFieldId, riskFieldIdOf.
  assert (Hlookup :
    forall own, own = None \/ own = Some 0 ->
      let n :=
        orNumber
          (orElse own
             match findField Api.fieldOptions (RiskCondition.field c) with
             | Some f => FieldOption.riskFieldId f
             | None => None
             end) 1 in
      (exists f, In f (flatOptions Api.fieldOptions)
                 /\ FieldOption.name f = RiskCondition.field c
                 /\ FieldOption.riskFieldId f = Some n)
      \/ ((forall f, In f (flatOptions Api.fieldOptions) ->
             FieldOption.name f <> RiskCondition.field c) /\ n = 1)).
  { intros own Hown n.
    assert (E : orElse own
                  match findField Api.fieldOptions (RiskCondition.field c) with
                  | Some f => FieldOption.riskFieldId f
                  | None => None
                  end
                = match findField Api.fieldOptions (RiskCondition.field c) with
                  | Some f => FieldOption.riskFieldId f
                  | None => None
                  end) by (destruct Hown as [->| ->]; reflexivity).
    unfold n. rewrite E. clear E n.
    unfold findField.
    destruct (find _ (flatOptions Api.fieldOptions)) as [f|] eqn:Hf.
    - left. apply find_some in Hf as [Hin Hname].
      apply String.eqb_eq in Hname.
      destruct (api_riskFieldIds_set f Hin) as [m [Hm Hm0]].
      exists f. rewrite Hm. simpl.
      apply Z.eqb_neq in Hm0. rewrite Hm0. auto.
    - right. split; [|reflexivity].
      intros f Hin E. rewrite find_none_all in Hf.
      specialize (Hf f Hin). simpl in Hf.
      rewrite E, String.eqb_refl in Hf. discriminate. }
  destruct (RiskCondition.riskFieldId c) as [n|] eqn:Hown.
  - destruct (Z.eqb_spec n 0) as [->|Hn].
    + right. split; [auto|]. apply (Hlookup (Some 0)). auto.
    + left. simpl. apply Z.eqb_neq in Hn as Hn'. rewrite Hn'. simpl.
      rewrite Hn'. auto.
  - right. split; [auto|]. apply (Hlookup None). auto.
Qed.

(** C5, amended. [saveConfigurations] sends one POST.  Its body serialises
    the list with one object per condition, for the categories in order and,
    within a category, the conditions in order; each object has exactly the
    members [RiskFieldId], [Operator], [Value] and [WeightPercentage].
    [RiskFieldId] is the condition's [riskFieldId] when that is set and not 0,
    else the [riskFieldId] of the field option named like the condition's
    field, else 1.  The body is computed from the current categories alone. *)
Theorem saveConfigurations_posts_all_conditions (p : Platform) (w : World) :
  requests (exec Api.saveConfigurations p w)
  = requests w ++
    [mkRequest "POST"
       "https://marstonx-defaulterrankingapp.azurewebsites.net/api/SaveConfig"
       [("Content-Type", "application/json")]
       (Some (JSON_stringify p
                (JArray
                   (map (saveItem Api.fieldOptions)
                      (concat (map RiskCategory.conditions (categories w)))))))]
  /\ forall c, exists n,
       saveItem Api.fieldOptions c
       = JObject
           [("RiskFieldId", JNumber n);
            ("Operator", JString (RiskCondition.operator c));
            ("Value", JString (RiskCondition.value c));
            ("WeightPercentage", JNumber (RiskCondition.weight c))]
       /\ sentRiskFieldId Api.fieldOptions c n.
Proof.
  split.
  - unfold exec. pose proof (saveConfigurations_run p w) as H. simpl in H.
    rewrite H. simpl. do 4 f_equal.
    unfold allConditions. rewrite flat_map_concat_map, concat_map, map_map.
    reflexivity.
  - intros c. exists (riskFieldIdOf Api.fieldOptions c).
    split; [reflexivity | apply riskFieldIdOf_sent].
Qed.

(** C5 as stated fails for a condition whose [riskFieldId] is 0, as a loaded
    item with [RiskFieldId: 0] gives: the request carries the id of the field
    option named like the field, here 2, not the condition's own 0. *)
Lemma saveConfigurations_riskFieldId_zero_replaced :
  let item :=
    ApiConfigItem.mk 7 0 ">" "1000" 100 "2024-01-01T00:00:00" true
      "OutstandingBalance" "Outstanding Balance" in
  let loaded := exec Api.fetchConfigurations (serving [item]) Api.initialWorld in
  map RiskCondition.riskFieldId
    (concat (map RiskCategory.conditions (categories loaded)))
  = [Some 0]
  /\ allConditions Api.fieldOptions (categories loaded)
     = [JObject
          [("RiskFieldId", JNumber 2);
           ("Operator", JString ">");
           ("Value", JString "1000");
           ("WeightPercentage", JNumber 100)]].
Proof. split; reflexivity. Qed.

(** ** Loading *)

Lemma sameOption_eq (a b : FieldOption.t) : sameOption a b = true <-> a = b.
Proof.
  unfold sameOption.
  rewrite !andb_true_iff, !String.eqb_eq, bool_decide_eq_true.
  destruct a, b; simpl. split.
  - intros [[-> ->] ->]. reflexivity.
  - intros E. injection E as -> -> ->. auto.
Qed.

Lemma lookupKey_incl (fo : FieldOptions) (key : string)
    (entries : list FieldOption.t) (f : FieldOption.t) :
  lookupKey fo key = Some entries -> In f entries -> In f (flatOptions fo).
Proof.
  unfold flatOptions.
  induction fo as [|[k es] fo IH]; simpl; [discriminate|].
  intros H Hin. apply in_or_app.
  destruct (String.eqb k key).
  - injection H as ->. left. exact Hin.
  - right. apply IH; assumption.
Qed.

Lemma entriesOf_incl (fo : FieldOptions) (key : string) (f : FieldOption.t) :
  In f (entriesOf fo key) -> In f (flatOptions fo).
Proof.
  unfold entriesOf. destruct (lookupKey fo key) as [entries|] eqn:E.
  - apply (lookupKey_incl fo key entries f E).
  - intros [].
Qed.

(** Entries with different positions have different names. *)
Lemma same_name_same_entry (l : list FieldOption.t) (x y : FieldOption.t) :
  List.NoDup (map FieldOption.name l) ->
  In x l -> In y l -> FieldOption.name x = FieldOption.name y -> x = y.
Proof.
  induction l as [|h l IH]; simpl; intros Hnd Hx Hy E; [destruct Hx|].
  apply List.NoDup_cons_iff in Hnd as [Hh Hnd].
  destruct Hx as [->|Hx], Hy as [->|Hy]; auto.
  - destruct Hh. rewrite E. apply in_map, Hy.
  - destruct Hh. rewrite <- E. apply in_map, Hx.
Qed.

(** With distinct names in the table, an item belongs to a category exactly
    when its display name is the name of one of the category's entries. *)
Lemma belongsTo_iff (fo : FieldOptions) (categoryId : string)
    (item : ApiConfigItem.t) :
  List.NoDup (map FieldOption.name (flatOptions fo)) ->
  belongsTo fo categoryId item = true
  <-> In (ApiConfigItem.DisplayName item)
        (map FieldOption.name (entriesOf fo categoryId)).
Proof.
  intros Hnd. unfold belongsTo, findField. fold (entriesOf fo categoryId).
  rewrite in_map_iff.
  destruct (find _ (flatOptions fo)) as [fi|] eqn:Hfind.
  - apply find_some in Hfind as [Hin Hname]. apply String.eqb_eq in Hname.
    unfold includesOption. rewrite existsb_exists. split.
    + intros [e [He Hsame]]. apply sameOption_eq in Hsame. subst e.
      exists fi. auto.
    + intros [e [He Hin']]. exists e. split; [exact Hin'|].
      apply sameOption_eq.
      apply (same_name_same_entry (flatOptions fo)); auto.
      * apply (entriesOf_incl fo categoryId), Hin'.
      * congruence.
  - split; [discriminate|].
    intros [e [He Hin']]. rewrite find_none_all in Hfind.
    specialize (Hfind e (entriesOf_incl fo categoryId e Hin')).
    simpl in Hfind. rewrite He, String.eqb_refl in Hfind. discriminate.
Qed.

Lemma api_names_distinct :
  List.NoDup (map FieldOption.name (flatOptions Api.fieldOptions)).
Proof.
  apply NoDup_ListNoDup.
  apply (bool_decide_unpack (NoDup (map FieldOption.name (flatOptions Api.fieldOptions)))).
  vm_compute. exact I.
Qed.

Lemma api_dataTypes_set :
  forall f, In f (flatOptions Api.fieldOptions) ->
    String.eqb (FieldOption.dataType f) "" = false.
Proof.
  apply List.Forall_forall. unfold flatOptions. simpl.
  repeat constructor.
Qed.

(** An item that belongs to a category becomes the condition the item
    describes. *)
Lemma toCondition_conditionFor (categoryId : string) (item : ApiConfigItem.t) :
  belongsTo Api.fieldOptions categoryId item = true ->
  conditionFor (entriesOf Api.fieldOptions categoryId) item
    (toCondition Api.fieldOptions item).
Proof.
  intros Hb. unfold conditionFor. simpl. repeat split.
  assert (Hin := Hb). apply belongsTo_iff in Hin; [|apply api_names_distinct].
  apply in_map_iff in Hin as [e [He Hin]].
  exists e. repeat split; [exact Hin | exact He |].
  unfold findField.
  destruct (find _ (flatOptions Api.fieldOptions)) as [fi|] eqn:Hfind.
  - apply find_some in Hfind as [Hfi Hname]. apply String.eqb_eq in Hname.
    assert (fi = e) as ->.
    { apply (same_name_same_entry (flatOptions Api.fieldOptions));
        auto using api_names_distinct.
      - apply (entriesOf_incl _ categoryId), Hin.
      - congruence. }
    simpl. rewrite (api_dataTypes_set e Hfi). reflexivity.
  - rewrite find_none_all in Hfind.
    specialize (Hfind e (entriesOf_incl _ categoryId e Hin)).
    simpl in Hfind. rewrite He, String.eqb_refl in Hfind. discriminate.
Qed.

Lemma conditions_of_kept (categoryId : string) (data : list ApiConfigItem.t) :
  Forall2 (conditionFor (entriesOf Api.fieldOptions categoryId))
    (List.filter (belongsTo Api.fieldOptions categoryId) data)
    (map (toCondition Api.fieldOptions)
       (List.filter (belongsTo Api.fieldOptions categoryId) data)).
Proof.
  induction data as [|item data IH]; simpl; [constructor|].
  destruct (belongsTo Api.fieldOptions categoryId item) eqn:E; [|exact IH].
  simpl. constructor; [apply toCondition_conditionFor, E | exact IH].
Qed.

(** Neither the test nor the conversion reads [IsEnabled]. *)
Lemma transformCategories_ignores_IsEnabled (fo : FieldOptions)
    (cats : list RiskCategory.t) (data data' : list ApiConfigItem.t) :
  Forall2 sameButIsEnabled data data' ->
  transformCategories fo cats data = transformCategories fo cats data'.
Proof.
  intros Hsame. unfold transformCategories. apply map_ext. intros cat.
  assert (E : map (toCondition fo)
                (List.filter (belongsTo fo (RiskCategory.id cat)) data)
              = map (toCondition fo)
                  (List.filter (belongsTo fo (RiskCategory.id cat)) data')).
  { induction Hsame as [|a b data data' Hab _ IH]; simpl; [reflexivity|].
    destruct Hab as (Hc & Hr & Ho & Hv & Hw & _ & _ & Hd).
    assert (Hb : belongsTo fo (RiskCategory.id cat) a
                 = belongsTo fo (RiskCategory.id cat) b)
      by (unfold belongsTo; rewrite Hd; reflexivity).
    rewrite <- Hb. destruct (belongsTo fo (RiskCategory.id cat) a); [|exact IH].
    simpl. rewrite IH. f_equal.
    unfold toCondition. rewrite Hc, Hr, Ho, Hv, Hw, Hd. reflexivity. }
  rewrite E. reflexivity.
Qed.

(** C6. After a GET whose body is a list of items, every category keeps its
    id and name, and its conditions are, in the order of the response, one
    for each item whose [DisplayName] is the name of one of the category's
    field options: [id] is [ConfigId] as a string, [field] is [DisplayName],
    [weight] is [WeightPercentage], [dataType] is that of the field option
    with that name.  Items with other names go to no category, and changing
    [IsEnabled] in the response changes nothing. *)
Theorem fetchConfigurations_replaces_conditions (p : Platform) (w : World)
    (o : bool) (data : list ApiConfigItem.t) :
  network p Api.getConfigRequest = resolved (mkResponse o (Some data)) ->
  let w' := exec Api.fetchConfigurations p w in
  length (categories w') = length (categories w)
  /\ (forall k cat, categories w !! k = Some cat ->
        exists cat',
          categories w' !! k = Some cat'
          /\ RiskCategory.id cat' = RiskCategory.id cat
          /\ RiskCategory.name cat' = RiskCategory.name cat
          /\ Forall2
               (conditionFor (entriesOf Api.fieldOptions (RiskCategory.id cat)))
               (filter
                  (fun item =>
                     ApiConfigItem.DisplayName item
                     ∈ map FieldOption.name
                         (entriesOf Api.fieldOptions (RiskCategory.id cat)))
                  data)
               (RiskCategory.conditions cat'))
  /\ (forall data', Forall2 sameButIsEnabled data data' ->
        transformCategories Api.fieldOptions (categories w) data'
        = categories w')
  /\ toasts w' = toasts w.
Proof.
  intros Hnet w'.
  assert (Hw' : categories w'
                = transformCategories Api.fieldOptions (categories w) data
                /\ toasts w' = toasts w).
  { unfold w', exec. rewrite fetchConfigurations_run, Hnet. auto. }
  destruct Hw' as [Hcats Htoasts]. rewrite Hcats.
  split; [apply length_map|]. split; [|split; [|exact Htoasts]].
  - intros k cat Hk. eexists. split.
    + unfold transformCategories. rewrite lookup_map, Hk. reflexivity.
    + simpl. repeat split.
      rewrite <- (filter_decide (belongsTo Api.fieldOptions (RiskCategory.id cat))).
      * apply conditions_of_kept.
      * intros item. rewrite list_elem_of_In.
        apply belongsTo_iff, api_names_distinct.
  - intros data' Hsame. symmetry.
    apply transformCategories_ignores_IsEnabled, Hsame.
Qed.

(** ** The theorems at work on concrete states *)

(** A response with a financial item, an identity item and an item of an
    unknown field, the first one disabled. *)
Lemma fetchConfigurations_replaces_conditions_witness :
  let data :=
    [ ApiConfigItem.mk 11 1 ">" "5000" 60 "2024-01-01T00:00:00" false
        "LoanAmount" "Loan Amount";
      ApiConfigItem.mk 12 9 "=" "Yes" 100 "2024-01-01T00:00:00" true
        "NameMatch" "Name Match %";
      ApiConfigItem.mk 13 99 ">" "1" 40 "2024-01-01T00:00:00" true
        "ShoeSize" "Shoe Size" ] in
  let w' := exec Api.fetchConfigurations (serving data) Api.initialWorld in
  network (serving data) Api.getConfigRequest
  = resolved (mkResponse true (Some data))
  /\ length (categories w') = 5%nat
  /\ toasts w' = []
  /\ map (fun cat => map RiskCondition.id (RiskCategory.conditions cat))
       (categories w')
     = [["11"]; ["12"]; []; []; []]
  /\ map RiskCategory.status (categories w')
     = [incomplete; complete; incomplete; incomplete; incomplete].
Proof.
  intros data w'.
  destruct (fetchConfigurations_replaces_conditions (serving data)
              Api.initialWorld true data eq_refl)
    as (Hlen & _ & _ & Htoasts).
  split; [reflexivity|]. split; [exact Hlen|]. split; [exact Htoasts|].
  split; reflexivity.
Defined.

(** Without network the load and the save each end in one error toast. *)
Lemma failed_call_one_destructive_toast_witness :
  let w1 := exec Api.fetchConfigurations offline Api.initialWorld in
  let w2 := exec Api.saveConfigurations offline Api.initialWorld in
  (toasts w1 = [mkToast "Error" "Failed to load configurations" destructive]
   /\ requests w1 = [Api.getConfigRequest]
   /\ categories w1 = Api.initialCategories)
  /\ (toasts w2 = [mkToast "Error" "Failed to save configurations" destructive]
      /\ requests w2 = [Api.saveConfigRequest "null"]
      /\ categories w2 = Api.initialCategories).
Proof.
  destruct (failed_call_one_destructive_toast offline Api.initialWorld)
    as [Hget Hpost].
  split.
  - apply Hget. left. reflexivity.
  - apply Hpost. left. reflexivity.
Defined.

(** In the initial state of the API-backed editor no category has a
    condition, so saving sends the POST. *)
Lemma saveRules_posts_iff_complete_witness :
  requests (exec Api.saveRules offline Api.initialWorld)
  = [Api.saveConfigRequest "null"].
Proof.
  destruct (saveRules_posts_iff_complete offline Api.initialWorld)
    as (_ & _ & _ & Hempty).
  apply Hempty. intros cat Hin. simpl in Hin.
  repeat (destruct Hin as [<-|Hin]; [reflexivity|]). destruct Hin.
Defined.

(** The first category of the local editor after an add on its tab. *)
Lemma addCondition_appends_one_witness :
  addCondition "financial" 1730000000000 Local.initialCategories !! 0%nat
  = Some
      (RiskCategory.mk "financial" "Financial & Credit"
         [ RiskCondition.mk "1" "Loan Amount" ">" "5000" 40 "Number" None None;
           RiskCondition.mk "2" "Outstanding Balance" "=" "1500" 15 "Number"
             None None;
           RiskCondition.mk "1730000000000" "" ">" "" 0 "Number" None None ]
         55 incomplete).
Proof.
  destruct (addCondition_appends_one "financial" 1730000000000
              Local.initialCategories) as (_ & Hat & _ & _).
  apply (Hat 0%nat
           (RiskCategory.mk "financial" "Financial & Credit"
              [ RiskCondition.mk "1" "Loan Amount" ">" "5000" 40 "Number"
                  None None;
                RiskCondition.mk "2" "Outstanding Balance" "=" "1500" 15
                  "Number" None None ]
              55 incomplete)).
  reflexivity.
Defined.

(** The text [serialize] writes. *)
Example serialize_example :
  serialize
    (JArray
       [ JObject
           [ ("id", JString "1"); ("weight", JNumber 40);
             ("conditions", JArray []) ];
         JNumber (-5) ])
  = "[{" +:+ quoted "id" +:+ ":" +:+ quoted "1" +:+ ","
    +:+ quoted "weight" +:+ ":40,"
    +:+ quoted "conditions" +:+ ":[]},-5]"
  /\ String.length (quoted "id") = 4%nat.
Proof. split; reflexivity. Qed.

(** Saving the local editor's initial state, whose first category is
    incomplete at 55. *)
Lemma local_saveRules_stores_categories_witness :
  let w' := exec Local.saveRules printing Local.initialWorld in
  localStorage w' !! "riskCategories"
  = Some
      (serialize
         (JArray
            [ JObject
                [ ("id", JString "financial");
                  ("name", JString "Financial & Credit");
                  ("conditions",
                   JArray
                     [ JObject
                         [ ("id", JString "1");
                           ("field", JString "Loan Amount");
                           ("operator", JString ">");
                           ("value", JString "5000");
                           ("weight", JNumber 40);
                           ("dataType", JString "Number") ];
                       JObject
                         [ ("id", JString "2");
                           ("field", JString "Outstanding Balance");
                           ("operator", JString "=");
                           ("value", JString "1500");
                           ("weight", JNumber 15);
                           ("dataType", JString "Number") ] ]);
                  ("totalWeight", JNumber 55);
                  ("status", JString "incomplete") ];
              JObject
                [ ("id", JString "identity");
                  ("name", JString "Identity & Verification");
                  ("conditions", JArray []);
                  ("totalWeight", JNumber 0);
                  ("status", JString "incomplete") ];
              JObject
                [ ("id", JString "property");
                  ("name", JString "Property & Stability");
                  ("conditions", JArray []);
                  ("totalWeight", JNumber 0);
                  ("status", JString "incomplete") ];
              JObject
                [ ("id", JString "contactability");
                  ("name", JString "Contactability & Behaviour");
                  ("conditions", JArray []);
                  ("totalWeight", JNumber 0);
                  ("status", JString "incomplete") ];
              JObject
                [ ("id", JString "risk");
                  ("name", JString "Risk Factors");
                  ("conditions", JArray []);
                  ("totalWeight", JNumber 0);
                  ("status", JString "incomplete") ] ]))
  /\ String.length (default "" (localStorage w' !! "riskCategories")) = 711%nat
  /\ localStorage w' !! "other" = None
  /\ map title (toasts w') = ["Rules Saved"]
  /\ categories w' = Local.initialCategories.
Proof.
  intros w'.
  destruct (local_saveRules_stores_categories printing Local.initialWorld)
    as (Hstored & Hkeys & Htoasts & Hcats & _).
  fold w' in Hstored, Hkeys, Htoasts, Hcats.
  split; [exact Hstored|].
  split; [rewrite Hstored; vm_compute; reflexivity|].
  split; [rewrite Hkeys; [reflexivity | discriminate]|].
  split; [rewrite Htoasts; reflexivity | exact Hcats].
Defined.


(** * Further properties of the components *)

(** ** What holds in every state a component reaches *)

(** The categories a handler of the API-backed editor leaves: those it found,
    an edit of them, or the categories built from a response. *)
Lemma api_event_categories (e : Api.Event) (p : Platform) (w : World) :
  categories (exec (Api.handle e) p w) = categories w
  \/ (exists ed, categories (exec (Api.handle e) p w)
                 = applyEdit (categories w) ed)
  \/ (exists data, categories (exec (Api.handle e) p w)
                   = transformCategories Api.fieldOptions (categories w) data).
Proof.
  destruct e; simpl.
  - unfold exec. rewrite fetchConfigurations_run. simpl.
    destruct (network p Api.getConfigRequest) as [|[o [data|]]]; simpl; eauto.
  - auto.
  - right. left. exists (add_condition (activeTab w) (Date_now p)). reflexivity.
  - right. left. exists (remove_condition (activeTab w) conditionId).
    reflexivity.
  - right. left. exists (update_condition (activeTab w) conditionId a).
    reflexivity.
  - left. apply saveRules_categories.
  - auto.
Qed.

Lemma local_event_categories (e : Local.Event) (p : Platform) (w : World) :
  categories (exec (Local.handle e) p w) = categories w
  \/ (exists ed, categories (exec (Local.handle e) p w)
                 = applyEdit (categories w) ed).
Proof.
  destruct e; simpl; auto.
  - right. exists (add_condition (activeTab w) (Date_now p)). reflexivity.
  - right. exists (remove_condition (activeTab w) conditionId). reflexivity.
  - right. exists (update_condition (activeTab w) conditionId a). reflexivity.
Qed.

Lemma categoryNames_applyEdit (e : Edit) (cats : list RiskCategory.t) :
  map (fun cat => (RiskCategory.id cat, RiskCategory.name cat))
    (applyEdit cats e)
  = map (fun cat => (RiskCategory.id cat, RiskCategory.name cat)) cats.
Proof.
  destruct e as [tab now|tab conditionId|tab conditionId a]; simpl.
  - rewrite addCondition_as_map, map_map. apply map_ext.
    intros cat. destruct (String.eqb _ _); reflexivity.
  - unfold removeCondition. rewrite map_map. apply map_ext.
    intros cat. destruct (String.eqb _ _); reflexivity.
  - unfold updateCondition. rewrite map_map. apply map_ext.
    intros cat. destruct (negb _); reflexivity.
Qed.

Lemma categoryNames_transformCategories (fo : FieldOptions)
    (cats : list RiskCategory.t) (data : list ApiConfigItem.t) :
  map (fun cat => (RiskCategory.id cat, RiskCategory.name cat))
    (transformCategories fo cats data)
  = map (fun cat => (RiskCategory.id cat, RiskCategory.name cat)) cats.
Proof. unfold transformCategories. rewrite map_map. reflexivity. Qed.

(** X2. No handler adds, removes, reorders or renames a category: in every
    state either editor reaches, the categories are the five initial ones, in
    their order, with their ids and names. *)
Theorem reachable_categories_fixed (w : World) :
  Api.reachable w \/ Local.reachable w ->
  map (fun cat => (RiskCategory.id cat, RiskCategory.name cat)) (categories w)
  = [ ("financial", "Financial & Credit");
      ("identity", "Identity & Verification");
      ("property", "Property & Stability");
      ("contactability", "Contactability & Behaviour");
      ("risk", "Risk Factors") ].
Proof.
  intros [H|H].
  - induction H as [|w p e _ IH]; [reflexivity|].
    destruct (api_event_categories e p w) as [->|[[ed ->]|[data ->]]];
      rewrite ?categoryNames_applyEdit, ?categoryNames_transformCategories;
      exact IH.
  - induction H as [|w p e _ IH]; [reflexivity|].
    destruct (local_event_categories e p w) as [->|[ed ->]];
      rewrite ?categoryNames_applyEdit; exact IH.
Qed.

Lemma reachable_categories_fixed_witness :
  map (fun cat => (RiskCategory.id cat, RiskCategory.name cat))
    (categories
       (exec (Local.handle (Local.RemoveCondition "1")) offline
          (exec (Local.handle (Local.SelectTab "risk")) offline
             Local.initialWorld)))
  = [ ("financial", "Financial & Credit");
      ("identity", "Identity & Verification");
      ("property", "Property & Stability");
      ("contactability", "Contactability & Behaviour");
      ("risk", "Risk Factors") ].
Proof.
  apply reachable_categories_fixed. right.
  apply Local.reach_event, Local.reach_event, Local.reach_initial.
Defined.

(** ** What the components never do *)

(** X3. The API-backed editor never writes [localStorage]; every request it
    sends is the GET of the configuration or a POST to the save endpoint with
    a JSON content type; and every handler leaves [loading] false, whatever
    the network does. *)
Theorem api_never (w : World) :
  Api.reachable w ->
  localStorage w = ∅
  /\ loading w = false
  /\ Forall
       (fun r =>
          r = mkRequest "GET"
                "https://marstonx-defaulterrankingapp.azurewebsites.net/api/GetConfig"
                [] None
          \/ exists payload,
               r = mkRequest "POST"
                     "https://marstonx-defaulterrankingapp.azurewebsites.net/api/SaveConfig"
                     [("Content-Type", "application/json")] (Some payload))
       (requests w).
Proof.
  induction 1 as [|w p e _ (Hls & Hload & Hreq)].
  - repeat split. constructor.
  - destruct e; simpl.
    + unfold exec. rewrite fetchConfigurations_run. simpl.
      assert (Hreq' : Forall
                (fun r =>
                   r = Api.getConfigRequest
                   \/ exists payload, r = Api.saveConfigRequest payload)
                (requests w ++ [Api.getConfigRequest]))
        by (apply Forall_app; split; [exact Hreq | repeat constructor]).
      destruct (network p Api.getConfigRequest) as [|[o [data|]]]; simpl; auto.
    + auto.
    + auto.
    + auto.
    + auto.
    + unfold exec. rewrite saveRules_run.
      destruct (forallb savable (categories w)); [|simpl; auto].
      pose proof (saveConfigurations_run p w) as Hrun. simpl in Hrun.
      rewrite Hrun. simpl. repeat split; [exact Hls|].
      apply Forall_app. split; [exact Hreq|].
      constructor; [right; eexists; reflexivity | constructor].
    + auto.
Qed.

(** A failed load, a save that is refused by the server, and an edit. *)
Lemma api_never_witness :
  let refusing :=
    mkPlatform (fun _ => resolved (mkResponse false None)) (fun _ => "[]")
      1730000000000 in
  let w :=
    exec (Api.handle Api.AddCondition) refusing
      (exec (Api.handle Api.SaveRules) refusing
         (exec (Api.handle Api.Mount) offline Api.initialWorld)) in
  (localStorage w = ∅ /\ loading w = false)
  /\ map method (requests w) = ["GET"; "POST"].
Proof.
  intros refusing w. split; [|reflexivity].
  destruct (api_never w) as (Hls & Hload & _); [|auto].
  apply Api.reach_event, Api.reach_event, Api.reach_event, Api.reach_initial.
Defined.

(** X4. The local editor never sends a request, never sets [loading], never
    shows a destructive toast, and writes no key of [localStorage] but
    ["riskCategories"]. *)
Theorem local_never (w : World) :
  Local.reachable w ->
  requests w = []
  /\ loading w = false
  /\ Forall (fun t => variant t = plain) (toasts w)
  /\ (forall key, key <> "riskCategories" -> localStorage w !! key = None).
Proof.
  induction 1 as [|w p e _ (Hreq & Hload & Htoasts & Hls)].
  - repeat split. constructor.
  - assert (Hmore : forall t, variant t = plain ->
                      Forall (fun t => variant t = plain) (toasts w ++ [t])).
    { intros t Ht. apply Forall_app. split; [exact Htoasts|].
      repeat constructor. exact Ht. }
    destruct e; cbn; auto.
    repeat split; auto.
    intros key Hkey. rewrite lookup_insert_ne by congruence. auto.
Qed.

Lemma local_never_witness :
  let w :=
    exec (Local.handle Local.SaveRules) offline
      (exec (Local.handle Local.PreviewRules) offline Local.initialWorld) in
  (requests w = [] /\ loading w = false)
  /\ map title (toasts w) = ["Rules Preview"; "Rules Saved"]
  /\ localStorage w !! "riskCategories" = Some "null".
Proof.
  intros w. split; [|split; reflexivity].
  destruct (local_never w) as (Hreq & Hload & _); [|auto].
  apply Local.reach_event, Local.reach_event, Local.reach_initial.
Defined.

(** ** Removing a condition *)

Lemma ListFilter_sublist {A : Type} (keep : A -> bool) (l : list A) :
  sublist (List.filter keep l) l.
Proof.
  induction l as [|x l IH]; simpl; [constructor|].
  destruct (keep x); [apply sublist_skip | apply sublist_cons]; exact IH.
Qed.

Lemma status_is_statusOf (cat : RiskCategory.t) :
  statusConsistent cat ->
  RiskCategory.status cat = statusOf (RiskCategory.totalWeight cat).
Proof.
  intros [Hc Hi]. unfold statusOf.
  destruct (Z.eqb_spec (RiskCategory.totalWeight cat) 100) as [E|E].
  - apply Hc, E.
  - apply Hi, E.
Qed.

(** X5. [removeCondition] takes out of the active category every condition
    with the given id and nothing else, keeps the order of the rest, and
    recomputes [totalWeight] and [status] from what is left, whatever they
    were before.  With an id no condition has, the conditions stay as they
    are. *)
Theorem removeCondition_removes_id (tab conditionId : string)
    (cats : list RiskCategory.t) (k : nat) (cat : RiskCategory.t) :
  cats !! k = Some cat ->
  RiskCategory.id cat = tab ->
  exists cat',
    removeCondition tab conditionId cats !! k = Some cat'
    /\ (forall c, In c (RiskCategory.conditions cat')
                  <-> In c (RiskCategory.conditions cat)
                      /\ RiskCondition.id c <> conditionId)
    /\ sublist (RiskCategory.conditions cat') (RiskCategory.conditions cat)
    /\ sumsCorrectly cat'
    /\ statusConsistent cat'
    /\ ((forall c, In c (RiskCategory.conditions cat) ->
                   RiskCondition.id c <> conditionId) ->
        RiskCategory.conditions cat' = RiskCategory.conditions cat).
Proof.
  intros Hk Htab. unfold removeCondition.
  rewrite lookup_map, Hk. simpl. rewrite Htab, String.eqb_refl.
  eexists. split; [reflexivity|]. simpl.
  split; [|split; [|split; [|split]]].
  - intros c. rewrite filter_In, negb_true_iff, String.eqb_neq. reflexivity.
  - apply ListFilter_sublist.
  - reflexivity.
  - apply withTotals_consistent.
  - intros Habsent. apply filter_all. intros c Hc.
    apply negb_true_iff, String.eqb_neq, Habsent, Hc.
Qed.

(** Removing the second initial condition of the local editor. *)
Lemma removeCondition_removes_id_witness :
  exists cat',
    removeCondition "financial" "2" Local.initialCategories !! 0%nat
    = Some cat'
    /\ map RiskCondition.id (RiskCategory.conditions cat') = ["1"]
    /\ RiskCategory.totalWeight cat' = 40
    /\ sumsCorrectly cat'.
Proof.
  destruct (removeCondition_removes_id "financial" "2"
              Local.initialCategories 0
              (RiskCategory.mk "financial" "Financial & Credit"
                 [ RiskCondition.mk "1" "Loan Amount" ">" "5000" 40 "Number"
                     None None;
                   RiskCondition.mk "2" "Outstanding Balance" "=" "1500" 15
                     "Number" None None ]
                 55 incomplete)
              eq_refl eq_refl)
    as (cat' & Hk & _ & _ & Hsum & _).
  exists cat'. split; [exact Hk|].
  split; [|split; [|exact Hsum]];
    cbv in Hk; injection Hk as <-; reflexivity.
Defined.

(** X6. When the active category's [totalWeight] is the sum of its weights
    and its [status] says whether that is 100, as in every reachable state,
    removing the condition that [addCondition] has just appended gives back
    the state before the add, provided no older condition has the new id. *)
Theorem add_then_remove (tab : string) (now : Z)
    (cats : list RiskCategory.t) :
  (forall cat, In cat cats -> RiskCategory.id cat = tab ->
     sumsCorrectly cat /\ statusConsistent cat
     /\ forall c, In c (RiskCategory.conditions cat) ->
                  RiskCondition.id c <> toString now) ->
  removeCondition tab (toString now) (addCondition tab now cats) = cats.
Proof.
  intros H. rewrite addCondition_as_map. unfold removeCondition.
  rewrite map_map. apply map_unchanged. intros cat Hin.
  destruct (String.eqb_spec (RiskCategory.id cat) tab) as [E|E].
  - destruct (H cat Hin E) as (Hsum & Hst & Hfresh).
    apply status_is_statusOf in Hst. unfold sumsCorrectly in Hsum.
    simpl. rewrite E, String.eqb_refl.
    rewrite List.filter_app. simpl. rewrite String.eqb_refl. simpl.
    rewrite app_nil_r, filter_all.
    + rewrite <- Hsum, <- Hst. destruct cat. reflexivity.
    + intros c Hc. apply negb_true_iff, String.eqb_neq, Hfresh, Hc.
  - apply String.eqb_neq in E. cbv beta. rewrite E. reflexivity.
Qed.

Lemma add_then_remove_witness :
  removeCondition "financial" "1730000000000"
    (addCondition "financial" 1730000000000 Local.initialCategories)
  = Local.initialCategories.
Proof.
  apply (add_then_remove "financial" 1730000000000 Local.initialCategories).
  intros cat Hin Htab. simpl in Hin.
  destruct Hin as [<-|[<-|[<-|[<-|[<-|[]]]]]]; try discriminate Htab.
  split; [reflexivity|]. split.
  - split; simpl; split; intros; first [reflexivity | discriminate | lia].
  - intros c [<-|[<-|[]]]; discriminate.
Defined.

(** X7. When the condition at position [i] of the active category is the only
    one with its id, [removeCondition] deletes exactly that position.  For
    whole-number weights whose absolute values add up to at most [2^51] no
    addition rounds, the doubles the call computes are the whole numbers of
    the integer model, and when the [totalWeight] was the sum of the weights,
    the new [totalWeight] is the old one less the weight of the removed
    condition.  (With fractions it need not be: see
    [removeCondition_rounds].) *)
Theorem removeCondition_subtracts (tab conditionId : string)
    (cats : list RiskCategory.t) (k i : nat) (cat : RiskCategory.t)
    (c : RiskCondition.t) :
  cats !! k = Some cat ->
  RiskCategory.id cat = tab ->
  RiskCategory.conditions cat !! i = Some c ->
  RiskCondition.id c = conditionId ->
  (forall j c', j <> i -> RiskCategory.conditions cat !! j = Some c' ->
                RiskCondition.id c' <> conditionId) ->
  magnitude (RiskCategory.conditions cat) <= wholeRange ->
  sumsCorrectly cat ->
  exists cat',
    removeCondition tab conditionId cats !! k = Some cat'
    /\ RiskCategory.conditions cat' = delete i (RiskCategory.conditions cat)
    /\ RiskCategory.totalWeight cat'
       = RiskCategory.totalWeight cat - RiskCondition.weight c
    /\ Double.removeCondition tab conditionId (map categoryAsDouble cats) !! k
       = Some (categoryAsDouble cat').
Proof.
  intros Hk Htab Hc Hid Hothers Hm Hsum.
  destruct (removeCondition tab conditionId cats !! k) as [cat'|] eqn:Hcall;
    [|unfold removeCondition in Hcall; rewrite lookup_map, Hk in Hcall;
      discriminate].
  exists cat'. split; [reflexivity|].
  split; [|split;
            [|apply (removeCondition_whole_at _ _ _ _ cat _ Hk Hcall Hm)]];
    unfold removeCondition in Hcall; rewrite lookup_map, Hk in Hcall;
    simpl in Hcall; rewrite Htab, String.eqb_refl in Hcall;
    injection Hcall as <-; simpl;
    rewrite (filter_drops_one _ (RiskCategory.conditions cat) i c Hc).
  - rewrite delete_take_drop. reflexivity.
  - rewrite Hid, String.eqb_refl. reflexivity.
  - intros j y Hj Hy. apply negb_true_iff, String.eqb_neq, (Hothers j y Hj Hy).
  - rewrite Hsum.
    rewrite <- (take_drop_middle (RiskCategory.conditions cat) i c Hc) at 3.
    rewrite !sumWeights_app, sumWeights_cons. lia.
  - rewrite Hid, String.eqb_refl. reflexivity.
  - intros j y Hj Hy. apply negb_true_iff, String.eqb_neq, (Hothers j y Hj Hy).
Qed.

Lemma removeCondition_subtracts_witness :
  exists cat',
    removeCondition "financial" "1" Local.initialCategories !! 0%nat
    = Some cat'
    /\ RiskCategory.conditions cat'
       = [ RiskCondition.mk "2" "Outstanding Balance" "=" "1500" 15 "Number"
             None None ]
    /\ RiskCategory.totalWeight cat' = 55 - 40
    /\ Double.removeCondition "financial" "1"
         (map categoryAsDouble Local.initialCategories) !! 0%nat
       = Some (categoryAsDouble cat').
Proof.
  apply (removeCondition_subtracts "financial" "1" Local.initialCategories
           0 0
           (RiskCategory.mk "financial" "Financial & Credit"
              [ RiskCondition.mk "1" "Loan Amount" ">" "5000" 40 "Number"
                  None None;
                RiskCondition.mk "2" "Outstanding Balance" "=" "1500" 15
                  "Number" None None ]
              55 incomplete)
           (RiskCondition.mk "1" "Loan Amount" ">" "5000" 40 "Number" None None));
    try reflexivity.
  - intros [|[|j]] c' Hj Hc'; simpl in Hc'.
    + destruct (Hj eq_refl).
    + injection Hc' as <-. simpl. discriminate.
    + discriminate.
  - vm_compute. discriminate.
Defined.

(** On doubles the new total is recomputed, not subtracted: from weights of
    0.1, 0.2 and 0.3, with total 0.6000000000000001, removing the first
    leaves the total 0.5, and not 0.6000000000000001 - 0.1. *)
#[warnings="-inexact-float"]
Example removeCondition_rounds :
  let before :=
    Double.applyEdits
      (Double.threeAdded ++
       [ Double.update_condition "financial" "1730000000001"
           (Double.set_weight 0.1);
         Double.update_condition "financial" "1730000000002"
           (Double.set_weight 0.2);
         Double.update_condition "financial" "1730000000003"
           (Double.set_weight 0.3) ])
      Double.emptyFinancial in
  map Double.RiskCategory.totalWeight before = [0.6000000000000001%float]
  /\ map Double.RiskCategory.totalWeight
       (Double.removeCondition "financial" "1730000000001" before)
     = [0.5%float]
  /\ (0.6000000000000001 - 0.1 = 0.5000000000000001)%float.
Proof. vm_compute. repeat split; reflexivity. Qed.

(** ** Updating a condition *)

Lemma assign_twice (c : RiskCondition.t) (a : Assignment) :
  assign (assign c a) a = assign c a.
Proof. destruct c, a; reflexivity. Qed.

Lemma filter_map_unchanged {A : Type} (keep : A -> bool) (g : A -> A)
    (l : list A) :
  (forall x, keep x = false -> keep (g x) = false) ->
  (forall x, keep x = true -> g x = x) ->
  List.filter keep (map g l) = List.filter keep l.
Proof.
  intros Hdrop Hkeep. induction l as [|x l IH]; simpl; [reflexivity|].
  destruct (keep x) eqn:E.
  - rewrite (Hkeep x E), E, IH. reflexivity.
  - rewrite (Hdrop x E). exact IH.
Qed.

(** The conditions [updateCondition] computes for a category. *)
Lemma updateCondition_at (tab conditionId : string) (a : Assignment)
    (cats : list RiskCategory.t) (k : nat) (cat : RiskCategory.t) :
  cats !! k = Some cat ->
  updateCondition tab conditionId a cats !! k
  = Some
      (if negb (String.eqb (RiskCategory.id cat) tab) then cat
       else
         let newConditions :=
           map (fun c =>
                  if String.eqb (RiskCondition.id c) conditionId then
                    match a with
                    | set_weight value =>
                        assign c
                          (set_weight
                             (cappedWeight conditionId value
                                (RiskCategory.conditions cat)))
                    | _ => assign c a
                    end
                  else c)
               (RiskCategory.conditions cat) in
         withTotals cat newConditions (sumWeights newConditions)
           (statusOf (sumWeights newConditions))).
Proof.
  intros Hk. unfold updateCondition. rewrite lookup_map, Hk. simpl.
  rewrite sumWeightsOr0_eq. reflexivity.
Qed.

(** A second pass of the same update finds the conditions as the first pass
    left them. *)
Lemma update_pass_twice (conditionId : string) (a : Assignment)
    (conds : list RiskCondition.t) :
  let pass := fun (others : list RiskCondition.t) (c : RiskCondition.t) =>
    if String.eqb (RiskCondition.id c) conditionId then
      match a with
      | set_weight value =>
          assign c (set_weight (cappedWeight conditionId value others))
      | _ => assign c a
      end
    else c in
  map (pass (map (pass conds) conds)) (map (pass conds) conds)
  = map (pass conds) conds.
Proof.
  intros pass. rewrite map_map. apply map_ext. intros c.
  destruct a as [x|x|x|x|value|x|x|x]; unfold pass;
    try (destruct (String.eqb_spec (RiskCondition.id c) conditionId) as [E|E];
         [ destruct c; simpl in *; rewrite E, String.eqb_refl; reflexivity
         | apply String.eqb_neq in E; rewrite E; reflexivity ]).
  - (* the id is reassigned *)
    destruct (String.eqb_spec (RiskCondition.id c) conditionId) as [E|E].
    + destruct c; simpl in *.
      destruct (String.eqb x conditionId); reflexivity.
    + apply String.eqb_neq in E. rewrite E. reflexivity.
  - (* the weight: the other weights are those of the first pass *)
    assert (Hcap :
      cappedWeight conditionId value
        (map (fun c =>
                if String.eqb (RiskCondition.id c) conditionId
                then assign c
                       (set_weight (cappedWeight conditionId value conds))
                else c) conds)
      = cappedWeight conditionId value conds).
    { unfold cappedWeight at 1 3. do 3 f_equal.
      apply filter_map_unchanged.
      - intros y Hy. apply negb_false_iff in Hy. rewrite Hy.
        destruct y; simpl in *. rewrite Hy. reflexivity.
      - intros y Hy. apply negb_true_iff in Hy. rewrite Hy. reflexivity. }
    rewrite Hcap. clear Hcap.
    destruct (String.eqb_spec (RiskCondition.id c) conditionId) as [E|E].
    + destruct c; simpl in *. rewrite E, String.eqb_refl. reflexivity.
    + apply String.eqb_neq in E. rewrite E. reflexivity.
Qed.

(** X8. Applying the same [updateCondition] a second time changes nothing:
    for every key, also ["weight"] with its cap and ["id"], and whether or not
    ids are shared. *)
Theorem updateCondition_idempotent (tab conditionId : string) (a : Assignment)
    (cats : list RiskCategory.t) :
  updateCondition tab conditionId a (updateCondition tab conditionId a cats)
  = updateCondition tab conditionId a cats.
Proof.
  unfold updateCondition. rewrite map_map. apply map_ext. intros cat.
  destruct (String.eqb (RiskCategory.id cat) tab) eqn:E; simpl; rewrite E;
    simpl; [|reflexivity].
  pose proof (update_pass_twice conditionId a (RiskCategory.conditions cat))
    as Htwice.
  simpl in Htwice. rewrite Htwice. reflexivity.
Qed.

Lemma sumWeights_of_weights (xs ys : list RiskCondition.t) :
  map RiskCondition.weight xs = map RiskCondition.weight ys ->
  sumWeights xs = sumWeights ys.
Proof.
  revert ys. induction xs as [|x xs IH]; intros [|y ys] H; simpl in H;
    try discriminate; [reflexivity|].
  injection H as Hw Hrest. rewrite !sumWeights_cons, Hw, (IH ys Hrest).
  reflexivity.
Qed.

(** X9. An [updateCondition] on a key other than ["weight"] changes no weight
    and neither the number nor the order of the conditions; on a key other
    than ["id"] it changes no id.  So when the category's [totalWeight] was
    the sum of its weights and its [status] said whether that was 100, both
    are what they were. *)
Theorem updateCondition_keeps_weights (tab conditionId : string)
    (a : Assignment) (cats : list RiskCategory.t) (k : nat)
    (cat : RiskCategory.t) :
  (forall v, a <> set_weight v) ->
  cats !! k = Some cat ->
  exists cat',
    updateCondition tab conditionId a cats !! k = Some cat'
    /\ map RiskCondition.weight (RiskCategory.conditions cat')
       = map RiskCondition.weight (RiskCategory.conditions cat)
    /\ ((forall x, a <> set_id x) ->
        map RiskCondition.id (RiskCategory.conditions cat')
        = map RiskCondition.id (RiskCategory.conditions cat))
    /\ (sumsCorrectly cat -> statusConsistent cat ->
        RiskCategory.totalWeight cat' = RiskCategory.totalWeight cat
        /\ RiskCategory.status cat' = RiskCategory.status cat).
Proof.
  intros Hkey Hk. rewrite (updateCondition_at _ _ _ _ _ _ Hk).
  eexists. split; [reflexivity|].
  destruct (negb _); [auto|]. simpl.
  assert (Hw :
    map RiskCondition.weight
      (map (fun c =>
              if String.eqb (RiskCondition.id c) conditionId then
                match a with
                | set_weight value =>
                    assign c
                      (set_weight
                         (cappedWeight conditionId value
                            (RiskCategory.conditions cat)))
                | _ => assign c a
                end
              else c)
         (RiskCategory.conditions cat))
    = map RiskCondition.weight (RiskCategory.conditions cat)).
  { rewrite map_map. apply map_ext. intros c.
    destruct (String.eqb _ _); [|reflexivity].
    destruct a, c; try reflexivity. destruct (Hkey v eq_refl). }
  split; [exact Hw|]. split.
  - intros Hid. rewrite map_map. apply map_ext. intros c.
    destruct (String.eqb _ _); [|reflexivity].
    destruct a, c; try reflexivity. destruct (Hid v eq_refl).
  - intros Hsum Hst. rewrite (sumWeights_of_weights _ _ Hw), <- Hsum.
    split; [reflexivity|]. symmetry. apply status_is_statusOf, Hst.
Qed.

(** Renaming the operator of the first initial condition of the local
    editor. *)
Lemma updateCondition_keeps_weights_witness :
  exists cat',
    updateCondition "financial" "1" (set_operator "<")
      Local.initialCategories !! 0%nat = Some cat'
    /\ map RiskCondition.weight (RiskCategory.conditions cat') = [40; 15]
    /\ map RiskCondition.operator (RiskCategory.conditions cat') = ["<"; "="].
Proof.
  destruct (updateCondition_keeps_weights "financial" "1" (set_operator "<")
              Local.initialCategories 0
              (RiskCategory.mk "financial" "Financial & Credit"
                 [ RiskCondition.mk "1" "Loan Amount" ">" "5000" 40 "Number"
                     None None;
                   RiskCondition.mk "2" "Outstanding Balance" "=" "1500" 15
                     "Number" None None ]
                 55 incomplete))
    as (cat' & Hk & Hw & _).
  - discriminate.
  - reflexivity.
  - exists cat'. split; [exact Hk|]. split; [exact Hw|].
    cbv in Hk. injection Hk as <-. reflexivity.
Defined.

(** The category after a weight update of a condition with an id of its
    own. *)
Lemma updateCondition_weight_own_id
    (tab conditionId : string) (v : Z) (cats : list RiskCategory.t)
    (k i : nat) (cat : RiskCategory.t) (c : RiskCondition.t) :
  cats !! k = Some cat ->
  RiskCategory.id cat = tab ->
  RiskCategory.conditions cat !! i = Some c ->
  RiskCondition.id c = conditionId ->
  (forall j c', j <> i -> RiskCategory.conditions cat !! j = Some c' ->
                RiskCondition.id c' <> conditionId) ->
  let s := othersWeight i (RiskCategory.conditions cat) in
  updateCondition tab conditionId (set_weight v) cats !! k
  = Some (withTotals cat
            (<[i := assign c (set_weight (Z.min v (100 - s)))]>
               (RiskCategory.conditions cat))
            (s + Z.min v (100 - s)) (statusOf (s + Z.min v (100 - s)))).
Proof.
  intros Hcat Htab Hc Hid Hothers s.
  rewrite (updateCondition_at _ _ _ _ _ _ Hcat).
  rewrite Htab, String.eqb_refl. simpl.
  rewrite (otherWeights_by_position conditionId _ i c Hc Hid Hothers v).
  fold s.
  rewrite (map_changes_one _ (RiskCategory.conditions cat) i c Hc).
  - rewrite Hid, String.eqb_refl.
    rewrite sumWeights_insert by (eapply lookup_lt_Some, Hc).
    rewrite weight_assign. reflexivity.
  - intros j y Hj Hy.
    destruct (String.eqb_spec (RiskCondition.id y) conditionId) as [E|_];
      [|reflexivity].
    destruct (Hothers j y Hj Hy E).
Qed.

(** X10. What a weight request does to a condition with an id of its own, for
    whole-number weights whose absolute values add up to at most [2^51] and a
    whole-number request of at most [2^51] in absolute value, where no
    operation rounds and the doubles the call computes are the whole numbers
    of the integer model, [s] being the sum of the other weights of its
    category: a request of at most [100 - s] is stored as it is, negative or
    not; a request of at least [100 - s] stores [100 - s] and makes the
    category complete, and only such a request does; and when the other
    weights already exceed 100 the stored weight is negative whatever is
    requested.  (With fractions a request of at least [100 - s] need not
    complete the category, as the total is rounded.) *)
Theorem weight_request_outcomes
    (tab conditionId : string) (v : Z) (cats : list RiskCategory.t)
    (k i : nat) (cat : RiskCategory.t) (c : RiskCondition.t) :
  cats !! k = Some cat ->
  RiskCategory.id cat = tab ->
  RiskCategory.conditions cat !! i = Some c ->
  RiskCondition.id c = conditionId ->
  (forall j c', j <> i -> RiskCategory.conditions cat !! j = Some c' ->
                RiskCondition.id c' <> conditionId) ->
  magnitude (RiskCategory.conditions cat) <= wholeRange ->
  Z.abs v <= wholeRange ->
  let s := othersWeight i (RiskCategory.conditions cat) in
  exists cat' c',
    updateCondition tab conditionId (set_weight v) cats !! k = Some cat'
    /\ RiskCategory.conditions cat' !! i = Some c'
    /\ (v <= 100 - s ->
        RiskCondition.weight c' = v /\ RiskCategory.totalWeight cat' = s + v)
    /\ (100 - s <= v ->
        RiskCondition.weight c' = 100 - s
        /\ RiskCategory.totalWeight cat' = 100)
    /\ (RiskCategory.status cat' = complete <-> 100 - s <= v)
    /\ (100 < s -> RiskCondition.weight c' < 0)
    /\ Double.updateCondition tab conditionId (Double.set_weight (asDouble v))
         (map categoryAsDouble cats) !! k
       = Some (categoryAsDouble cat').
Proof.
  intros Hcat Htab Hc Hid Hothers Hm Hv s.
  pose proof (updateCondition_weight_own_id tab conditionId v cats k i cat c
                Hcat Htab Hc Hid Hothers) as Hcall.
  cbv zeta in Hcall. fold s in Hcall.
  destruct (capped_magnitude _ i c v Hc Hm Hv) as [_ Hafter]. fold s in Hafter.
  rewrite Hcall. eexists. eexists. split; [reflexivity|]. simpl.
  split; [apply list_lookup_insert_eq; eapply lookup_lt_Some, Hc|].
  rewrite weight_assign, statusOf_complete.
  repeat split; intros; try lia.
  apply (updateCondition_whole_at tab conditionId (set_weight v) cats k cat _
           Hcat Hcall Hm); [apply Z.leb_le, Hv | exact Hafter].
Qed.

(** The local editor's first condition, the other weight being 15: a request
    of 90 is cut to 85 and completes the category. *)
Lemma weight_request_outcomes_witness :
  exists cat' c',
    updateCondition "financial" "1" (set_weight 90) Local.initialCategories
      !! 0%nat = Some cat'
    /\ RiskCategory.conditions cat' !! 0%nat = Some c'
    /\ RiskCondition.weight c' = 85
    /\ RiskCategory.status cat' = complete
    /\ Double.updateCondition "financial" "1" (Double.set_weight 90)
         (map categoryAsDouble Local.initialCategories) !! 0%nat
       = Some (categoryAsDouble cat').
Proof.
  destruct (weight_request_outcomes "financial" "1" 90
              Local.initialCategories 0 0
              (RiskCategory.mk "financial" "Financial & Credit"
                 [ RiskCondition.mk "1" "Loan Amount" ">" "5000" 40 "Number"
                     None None;
                   RiskCondition.mk "2" "Outstanding Balance" "=" "1500" 15
                     "Number" None None ]
                 55 incomplete)
              (RiskCondition.mk "1" "Loan Amount" ">" "5000" 40 "Number"
                 None None))
    as (cat' & c' & Hk & Hi & _ & Hcut & Hst & _ & Hdouble); try reflexivity.
  - intros [|[|j]] c' Hj Hc'; simpl in Hc'.
    + destruct (Hj eq_refl).
    + injection Hc' as <-. simpl. discriminate.
    + discriminate.
  - vm_compute. discriminate.
  - vm_compute. discriminate.
  - exists cat', c'. split; [exact Hk|]. split; [exact Hi|].
    split; [|split].
    + apply Hcut. vm_compute. discriminate.
    + apply Hst. vm_compute. discriminate.
    + exact Hdouble.
Defined.

(** ** Choosing a field *)

(** The keys whose update leaves ids and weights alone. *)
Lemma assign_keeps (c : RiskCondition.t) (a : Assignment) :
  (forall v, a <> set_weight v) -> (forall v, a <> set_id v) ->
  RiskCondition.id (assign c a) = RiskCondition.id c
  /\ RiskCondition.weight (assign c a) = RiskCondition.weight c.
Proof.
  intros Hw Hi. destruct a, c; simpl; auto.
  - destruct (Hi v eq_refl).
  - destruct (Hw v eq_refl).
Qed.

(** One update on a key other than ["id"] and ["weight"]. *)
Lemma update_plain_once (tab conditionId : string) (a : Assignment)
    (cats : list RiskCategory.t) (k : nat) (cat : RiskCategory.t) :
  (forall v, a <> set_weight v) -> (forall v, a <> set_id v) ->
  cats !! k = Some cat ->
  RiskCategory.id cat = tab ->
  updateCondition tab conditionId a cats !! k
  = Some
      (withTotals cat
         (map (fun c =>
                 if String.eqb (RiskCondition.id c) conditionId
                 then assign c a else c)
            (RiskCategory.conditions cat))
         (sumWeights (RiskCategory.conditions cat))
         (statusOf (sumWeights (RiskCategory.conditions cat)))).
Proof.
  intros Hw Hi Hk Htab.
  rewrite (updateCondition_at _ _ _ _ _ _ Hk), Htab, String.eqb_refl. simpl.
  assert (E : map (fun c =>
                     if String.eqb (RiskCondition.id c) conditionId then
                       match a with
                       | set_weight value =>
                           assign c
                             (set_weight
                                (cappedWeight conditionId value
                                   (RiskCategory.conditions cat)))
                       | _ => assign c a
                       end
                     else c) (RiskCategory.conditions cat)
              = map (fun c =>
                       if String.eqb (RiskCondition.id c) conditionId
                       then assign c a else c)
                  (RiskCategory.conditions cat)).
  { apply map_ext. intros c. destruct (String.eqb _ _); [|reflexivity].
    destruct a; try reflexivity. destruct (Hw v eq_refl). }
  rewrite E.
  rewrite (sumWeights_of_weights _ (RiskCategory.conditions cat));
    [reflexivity|].
  rewrite map_map. apply map_ext. intros c.
  destruct (String.eqb _ _); [|reflexivity].
  apply (assign_keeps c a Hw Hi).
Qed.

(** A run of updates of one condition id, on keys other than ["id"] and
    ["weight"]: every condition with the id gets all the assignments, the
    others none, and the totals are recomputed from the unchanged weights. *)
Lemma updates_in_a_row (tab conditionId : string) (a : Assignment)
    (rest : list Assignment) (cats : list RiskCategory.t) (k : nat)
    (cat : RiskCategory.t) :
  Forall (fun a => (forall v, a <> set_weight v) /\ (forall v, a <> set_id v))
    (a :: rest) ->
  cats !! k = Some cat ->
  RiskCategory.id cat = tab ->
  applyEdits (map (update_condition tab conditionId) (a :: rest)) cats !! k
  = Some
      (withTotals cat
         (map (fun c =>
                 if String.eqb (RiskCondition.id c) conditionId
                 then fold_left assign (a :: rest) c
                 else c)
            (RiskCategory.conditions cat))
         (sumWeights (RiskCategory.conditions cat))
         (statusOf (sumWeights (RiskCategory.conditions cat)))).
Proof.
  revert a cats cat. induction rest as [|b rest IH];
    intros a cats cat Hkeys Hk Htab;
    apply Forall_cons in Hkeys as [[Hw Hi] Hkeys];
    pose proof (update_plain_once tab conditionId a cats k cat Hw Hi Hk Htab)
      as Hfirst.
  - exact Hfirst.
  - change (applyEdits (map (update_condition tab conditionId) (a :: b :: rest))
              cats)
      with (applyEdits (map (update_condition tab conditionId) (b :: rest))
              (updateCondition tab conditionId a cats)).
    rewrite (IH b _ _ Hkeys Hfirst Htab). simpl.
    f_equal. unfold withTotals. simpl.
    assert (Hsum :
      sumWeights
        (map (fun c =>
                if String.eqb (RiskCondition.id c) conditionId
                then assign c a else c)
           (RiskCategory.conditions cat))
      = sumWeights (RiskCategory.conditions cat)).
    { apply sumWeights_of_weights. rewrite map_map. apply map_ext. intros c.
      destruct (String.eqb _ _); [|reflexivity].
      apply (assign_keeps c a Hw Hi). }
    rewrite Hsum. f_equal.
    rewrite map_map. apply map_ext. intros c.
    destruct (String.eqb_spec (RiskCondition.id c) conditionId) as [E|E].
    + destruct (assign_keeps c a Hw Hi) as [-> _].
      rewrite E, String.eqb_refl. reflexivity.
    + apply String.eqb_neq in E. rewrite E. reflexivity.
Qed.

Lemma updates_elsewhere (tab conditionId : string) (edits : list Assignment)
    (cats : list RiskCategory.t) (k : nat) (cat : RiskCategory.t) :
  cats !! k = Some cat ->
  RiskCategory.id cat <> tab ->
  applyEdits (map (update_condition tab conditionId) edits) cats !! k
  = Some cat.
Proof.
  intros Hk Htab. revert cats Hk.
  induction edits as [|a edits IH]; intros cats Hk; [exact Hk|].
  apply IH. simpl. rewrite (updateCondition_at _ _ _ _ _ _ Hk).
  apply String.eqb_neq in Htab. rewrite Htab. reflexivity.
Qed.

(** The field handlers are runs of [updateCondition]. *)
Lemma onFieldChange_run (fo : FieldOptions) (conditionId value : string)
    (p : Platform) (w : World) :
  exec (onFieldChange fo conditionId value) p w
  = mkWorld
      (applyEdits
         (map (update_condition (activeTab w) conditionId)
            (set_field value
             :: match selectedField fo (activeTab w) value with
                | Some f => [ set_dataType (FieldOption.dataType f);
                              set_riskFieldId (FieldOption.riskFieldId f) ]
                | None => []
                end))
         (categories w))
      (activeTab w) (loading w) (toasts w) (requests w) (localStorage w).
Proof.
  unfold exec, onFieldChange, bind, getActiveTab. simpl.
  destruct (selectedField fo (activeTab w) value); reflexivity.
Qed.

Lemma onFieldChangeLocal_run (fo : FieldOptions) (conditionId value : string)
    (p : Platform) (w : World) :
  exec (onFieldChangeLocal fo conditionId value) p w
  = mkWorld
      (applyEdits
         (map (update_condition (activeTab w) conditionId)
            (set_field value
             :: match selectedField fo (activeTab w) value with
                | Some f => [ set_dataType (FieldOption.dataType f) ]
                | None => []
                end))
         (categories w))
      (activeTab w) (loading w) (toasts w) (requests w) (localStorage w).
Proof.
  unfold exec, onFieldChangeLocal, bind, getActiveTab. simpl.
  destruct (selectedField fo (activeTab w) value); reflexivity.
Qed.

Lemma plain_keys (xs : list Assignment) :
  Forall (fun a => match a with
                   | set_field _ | set_dataType _ | set_riskFieldId _ => True
                   | _ => False
                   end) xs ->
  Forall (fun a => (forall v, a <> set_weight v) /\ (forall v, a <> set_id v))
    xs.
Proof.
  apply List.Forall_impl. intros a Ha. destruct a; try destruct Ha;
    split; discriminate.
Qed.

Lemma onFieldChange_at (fo : FieldOptions) (conditionId value : string)
    (p : Platform) (w : World) (k : nat) (cat : RiskCategory.t) :
  categories w !! k = Some cat ->
  categories (exec (onFieldChange fo conditionId value) p w) !! k
  = Some
      (if String.eqb (RiskCategory.id cat) (activeTab w)
       then withChanged conditionId
              (withChosenField (selectedField fo (activeTab w) value) value)
              cat
       else cat).
Proof.
  intros Hk. rewrite onFieldChange_run. cbn [categories].
  destruct (String.eqb_spec (RiskCategory.id cat) (activeTab w)) as [E|E].
  - assert (Hkeys :
      Forall (fun a => (forall v, a <> set_weight v)
                       /\ (forall v, a <> set_id v))
        (set_field value
         :: match selectedField fo (activeTab w) value with
            | Some f => [ set_dataType (FieldOption.dataType f);
                          set_riskFieldId (FieldOption.riskFieldId f) ]
            | None => []
            end)).
    { apply plain_keys.
      destruct (selectedField fo (activeTab w) value); repeat constructor. }
    rewrite (updates_in_a_row _ _ _ _ _ _ _ Hkeys Hk E).
    unfold withChanged. do 2 f_equal. apply map_ext. intros c.
    destruct (String.eqb _ _); [|reflexivity].
    destruct (selectedField fo (activeTab w) value), c; reflexivity.
  - apply (updates_elsewhere _ _ _ _ _ _ Hk E).
Qed.

Lemma onFieldChangeLocal_at (fo : FieldOptions) (conditionId value : string)
    (p : Platform) (w : World) (k : nat) (cat : RiskCategory.t) :
  categories w !! k = Some cat ->
  categories (exec (onFieldChangeLocal fo conditionId value) p w) !! k
  = Some
      (if String.eqb (RiskCategory.id cat) (activeTab w)
       then withChanged conditionId
              (withChosenFieldLocal (selectedField fo (activeTab w) value)
                 value)
              cat
       else cat).
Proof.
  intros Hk. rewrite onFieldChangeLocal_run. cbn [categories].
  destruct (String.eqb_spec (RiskCategory.id cat) (activeTab w)) as [E|E].
  - assert (Hkeys :
      Forall (fun a => (forall v, a <> set_weight v)
                       /\ (forall v, a <> set_id v))
        (set_field value
         :: match selectedField fo (activeTab w) value with
            | Some f => [ set_dataType (FieldOption.dataType f) ]
            | None => []
            end)).
    { apply plain_keys.
      destruct (selectedField fo (activeTab w) value); repeat constructor. }
    rewrite (updates_in_a_row _ _ _ _ _ _ _ Hkeys Hk E).
    unfold withChanged. do 2 f_equal. apply map_ext. intros c.
    destruct (String.eqb _ _); [|reflexivity].
    destruct (selectedField fo (activeTab w) value), c; reflexivity.
  - apply (updates_elsewhere _ _ _ _ _ _ Hk E).
Qed.

(** X11. Choosing [value] in the field dropdown of a row runs up to three
    [updateCondition] calls.  Together they give every condition of the
    active category that has the row's id the field [value] and, when [value]
    names a field option of the active tab, that option's data type (and, in
    the API-backed editor, its risk field id); they keep its id, operator,
    value, weight and config id; they leave every other condition and every
    other category as it was; and they recompute [totalWeight] and [status]
    from the unchanged weights.  Nothing else of the world changes. *)
Theorem onFieldChange_effect (fo : FieldOptions) (conditionId value : string)
    (p : Platform) (w : World) (k : nat) (cat : RiskCategory.t) :
  categories w !! k = Some cat ->
  let selected := selectedField fo (activeTab w) value in
  let api := exec (onFieldChange fo conditionId value) p w in
  let loc := exec (onFieldChangeLocal fo conditionId value) p w in
  categories api !! k
  = Some (if String.eqb (RiskCategory.id cat) (activeTab w)
          then withChanged conditionId (withChosenField selected value) cat
          else cat)
  /\ categories loc !! k
     = Some (if String.eqb (RiskCategory.id cat) (activeTab w)
             then withChanged conditionId (withChosenFieldLocal selected value)
                    cat
             else cat)
  /\ length (categories api) = length (categories w)
  /\ length (categories loc) = length (categories w)
  /\ (activeTab api, loading api, toasts api, requests api, localStorage api)
     = (activeTab w, loading w, toasts w, requests w, localStorage w)
  /\ (activeTab loc, loading loc, toasts loc, requests loc, localStorage loc)
     = (activeTab w, loading w, toasts w, requests w, localStorage w).
Proof.
  intros Hk selected api loc.
  assert (Hlen : forall edits cats,
             length (applyEdits edits cats) = length cats).
  { induction edits as [|e edits IH]; intros cats; [reflexivity|].
    unfold applyEdits in *. simpl. rewrite IH.
    destruct e; simpl; rewrite ?addCondition_as_map; apply length_map. }
  split; [apply onFieldChange_at, Hk|].
  split; [apply onFieldChangeLocal_at, Hk|].
  unfold api, loc. rewrite onFieldChange_run, onFieldChangeLocal_run.
  cbn [categories activeTab loading toasts requests localStorage].
  rewrite !Hlen. repeat split.
Qed.

(** A fresh condition of the identity tab keeps its operator [">"] when the
    Boolean field "DOB Match" is chosen for it, an operator that
    [getOperatorsForDataType] does not offer for "Boolean". *)
Lemma onFieldChange_effect_witness :
  let w :=
    exec onAddCondition offline
      (exec (setActiveTab "identity") offline Api.initialWorld) in
  let w' :=
    exec (onFieldChange Api.fieldOptions "1730000000000" "DOB Match")
      offline w in
  categories w' !! 1%nat
  = Some
      (RiskCategory.mk "identity" "Identity & Verification"
         [ RiskCondition.mk "1730000000000" "DOB Match" ">" "" 0 "Boolean"
             None (Some 11) ]
         0 incomplete)
  /\ map OperatorOption.value (getOperatorsForDataType "Boolean") = ["="].
Proof.
  intros w w'. split; [|reflexivity].
  destruct (onFieldChange_effect Api.fieldOptions "1730000000000" "DOB Match"
              offline w 1
              (RiskCategory.mk "identity" "Identity & Verification"
                 [ RiskCondition.mk "1730000000000" "" ">" "" 0 "Number"
                     None None ]
                 0 incomplete)
              eq_refl) as (Hapi & _).
  exact Hapi.
Defined.

Lemma selectedField_found (fo : FieldOptions) (tab value : string)
    (f : FieldOption.t) :
  selectedField fo tab value = Some f ->
  FieldOption.name f = value /\ In f (entriesOf fo tab)
  /\ In f (flatOptions fo).
Proof.
  unfold selectedField, entriesOf. intros H.
  destruct (lookupKey fo tab) as [entries|] eqn:E; [|discriminate].
  apply find_some in H as [Hin Hname]. apply String.eqb_eq in Hname.
  repeat split; auto. apply (lookupKey_incl fo tab entries f E Hin).
Qed.

(** X12. In the API-backed editor, once a field option of the active tab has
    been chosen for a condition, the save request carries that option's risk
    field id for it, whatever risk field id the condition had before, together
    with the condition's unchanged operator, value and weight. *)
Theorem chosen_field_is_saved (conditionId value : string) (p : Platform)
    (w : World) (k i : nat) (cat : RiskCategory.t) (c : RiskCondition.t)
    (f : FieldOption.t) :
  categories w !! k = Some cat ->
  RiskCategory.id cat = activeTab w ->
  RiskCategory.conditions cat !! i = Some c ->
  RiskCondition.id c = conditionId ->
  selectedField Api.fieldOptions (activeTab w) value = Some f ->
  exists cat' c' m,
    categories (exec (onFieldChange Api.fieldOptions conditionId value) p w)
      !! k = Some cat'
    /\ RiskCategory.conditions cat' !! i = Some c'
    /\ FieldOption.name f = value
    /\ FieldOption.riskFieldId f = Some m
    /\ saveItem Api.fieldOptions c'
       = JObject
           [("RiskFieldId", JNumber m);
            ("Operator", JString (RiskCondition.operator c));
            ("Value", JString (RiskCondition.value c));
            ("WeightPercentage", JNumber (RiskCondition.weight c))].
Proof.
  intros Hk Htab Hc Hid Hsel.
  destruct (selectedField_found _ _ _ _ Hsel) as (Hname & _ & Hflat).
  destruct (api_riskFieldIds_set f Hflat) as (m & Hm & Hm0).
  rewrite (onFieldChange_at _ _ _ p w k cat Hk), Htab, String.eqb_refl, Hsel.
  eexists. eexists. exists m. split; [reflexivity|].
  unfold withChanged. simpl. rewrite lookup_map, Hc. simpl.
  rewrite Hid, String.eqb_refl.
  repeat split; auto.
  unfold saveItem, riskFieldIdOf. simpl. rewrite Hm. simpl.
  apply Z.eqb_neq in Hm0. rewrite Hm0. simpl. rewrite Hm0. reflexivity.
Qed.

(** A loaded condition with risk field id 99: choosing "Property Value" on
    the property tab makes the save request carry 16. *)
Lemma chosen_field_is_saved_witness :
  let data :=
    [ ApiConfigItem.mk 5 99 ">" "2" 100 "2024-01-01T00:00:00" true
        "YearsAtAddress" "Years at Current Address" ] in
  let w :=
    exec (setActiveTab "property") offline
      (exec Api.fetchConfigurations (serving data) Api.initialWorld) in
  exists cat' c' m,
    categories (exec (onFieldChange Api.fieldOptions "5" "Property Value")
                  offline w) !! 2%nat = Some cat'
    /\ RiskCategory.conditions cat' !! 0%nat = Some c'
    /\ m = 16
    /\ saveItem Api.fieldOptions c'
       = JObject
           [("RiskFieldId", JNumber m);
            ("Operator", JString ">");
            ("Value", JString "2");
            ("WeightPercentage", JNumber 100)].
Proof.
  intros data w.
  destruct (chosen_field_is_saved "5" "Property Value" offline w 2 0
              (RiskCategory.mk "property" "Property & Stability"
                 [ RiskCondition.mk "5" "Years at Current Address" ">" "2"
                     100 "Number" (Some 5) (Some 99) ]
                 100 complete)
              (RiskCondition.mk "5" "Years at Current Address" ">" "2" 100
                 "Number" (Some 5) (Some 99))
              (FieldOption.mk "Property Value" "Number" (Some 16))
              eq_refl eq_refl eq_refl eq_refl eq_refl)
    as (cat' & c' & m & Hk & Hi & _ & Hm & Hsave).
  exists cat', c', m. repeat split; auto. simpl in Hm. congruence.
Defined.

Lemma isUsed_false (cat : RiskCategory.t) (c : RiskCondition.t)
    (f : FieldOption.t) :
  isUsed cat c f = false
  <-> (forall c', In c' (RiskCategory.conditions cat) ->
         RiskCondition.field c' = FieldOption.name f ->
         RiskCondition.id c' = RiskCondition.id c).
Proof.
  unfold isUsed. split.
  - intros H c' Hin Hfield.
    destruct (String.eqb_spec (RiskCondition.id c') (RiskCondition.id c))
      as [E|E]; [exact E|].
    assert (Htrue : existsb
              (fun c0 =>
                 String.eqb (RiskCondition.field c0) (FieldOption.name f)
                 && negb (String.eqb (RiskCondition.id c0) (RiskCondition.id c)))
              (RiskCategory.conditions cat) = true).
    { apply existsb_exists. exists c'. split; [exact Hin|].
      rewrite Hfield, String.eqb_refl. apply String.eqb_neq in E.
      rewrite E. reflexivity. }
    congruence.
  - intros H. apply not_true_is_false. intros Htrue.
    apply existsb_exists in Htrue as [c' [Hin Hc']].
    apply andb_true_iff in Hc' as [Hfield Hid].
    apply String.eqb_eq in Hfield. apply negb_true_iff, String.eqb_neq in Hid.
    apply Hid, (H c' Hin Hfield).
Qed.

(** X13. When an item of the field dropdown is enabled in the row of a
    condition, that is, [isUsed] is false, then after it has been chosen no
    condition of the category with another id has that field, in either
    editor: with distinct ids, the chosen field is used once. *)
Theorem enabled_choice_is_exclusive (fo : FieldOptions) (p : Platform)
    (w : World) (k : nat) (cat : RiskCategory.t) (c : RiskCondition.t)
    (f : FieldOption.t) :
  categories w !! k = Some cat ->
  RiskCategory.id cat = activeTab w ->
  isUsed cat c f = false ->
  exists api loc,
    categories
      (exec (onFieldChange fo (RiskCondition.id c) (FieldOption.name f)) p w)
      !! k = Some api
    /\ categories
         (exec (onFieldChangeLocal fo (RiskCondition.id c)
                  (FieldOption.name f)) p w)
         !! k = Some loc
    /\ (forall c', In c' (RiskCategory.conditions api) ->
          RiskCondition.field c' = FieldOption.name f ->
          RiskCondition.id c' = RiskCondition.id c)
    /\ (forall c', In c' (RiskCategory.conditions loc) ->
          RiskCondition.field c' = FieldOption.name f ->
          RiskCondition.id c' = RiskCondition.id c).
Proof.
  intros Hk Htab Hfree. rewrite isUsed_false in Hfree.
  rewrite (onFieldChange_at _ _ _ p w k cat Hk),
    (onFieldChangeLocal_at _ _ _ p w k cat Hk), Htab, String.eqb_refl.
  eexists. eexists. split; [reflexivity|]. split; [reflexivity|].
  unfold withChanged. simpl.
  split; intros c' Hin Hfield; apply in_map_iff in Hin as [c0 [Hc0 Hin]];
    destruct (String.eqb_spec (RiskCondition.id c0) (RiskCondition.id c))
      as [E|E]; subst c'; simpl; auto.
Qed.

(** In the local editor's initial state "Days Past Due (DPD)" is enabled in
    the row of the first condition. *)
Lemma enabled_choice_is_exclusive_witness :
  let f := FieldOption.mk "Days Past Due (DPD)" "Number" None in
  exists loc,
    categories
      (exec (onFieldChangeLocal Local.fieldOptions "1" "Days Past Due (DPD)")
         offline Local.initialWorld) !! 0%nat = Some loc
    /\ map RiskCondition.field (RiskCategory.conditions loc)
       = ["Days Past Due (DPD)"; "Outstanding Balance"].
Proof.
  intros f.
  destruct (enabled_choice_is_exclusive Local.fieldOptions offline
              Local.initialWorld 0
              (RiskCategory.mk "financial" "Financial & Credit"
                 [ RiskCondition.mk "1" "Loan Amount" ">" "5000" 40 "Number"
                     None None;
                   RiskCondition.mk "2" "Outstanding Balance" "=" "1500" 15
                     "Number" None None ]
                 55 incomplete)
              (RiskCondition.mk "1" "Loan Amount" ">" "5000" 40 "Number"
                 None None)
              f eq_refl eq_refl eq_refl)
    as (api & loc & _ & Hloc & _).
  exists loc. split; [exact Hloc|].
  cbv in Hloc. injection Hloc as <-. reflexivity.
Defined.

(** X14. The dropdown and [getAvailableFields] agree.  For a condition that
    is the only one with its id in the category [categories.find] returns,
    [getAvailableFields(category.id, condition.field)] returns a list; an
    option of the category that the dropdown leaves enabled is in that list;
    and an option in it, other than the condition's own field, is enabled. *)
Theorem isUsed_agrees_with_getAvailableFields (fo : FieldOptions)
    (cats : list RiskCategory.t) (cat : RiskCategory.t)
    (c : RiskCondition.t) (f : FieldOption.t) :
  find (fun cat' => String.eqb (RiskCategory.id cat') (RiskCategory.id cat))
    cats = Some cat ->
  In c (RiskCategory.conditions cat) ->
  (forall c', In c' (RiskCategory.conditions cat) ->
              RiskCondition.id c' = RiskCondition.id c -> c' = c) ->
  In f (entriesOf fo (RiskCategory.id cat)) ->
  exists fields,
    getAvailableFields fo cats (RiskCategory.id cat)
      (Some (RiskCondition.field c)) = returned fields
    /\ (isUsed cat c f = false -> In f fields)
    /\ (In f fields ->
        FieldOption.name f <> RiskCondition.field c ->
        isUsed cat c f = false).
Proof.
  intros Hfind Hc Hown Hf.
  unfold getAvailableFields, getProperty. rewrite Hfind.
  unfold entriesOf in Hf.
  destruct (lookupKey fo (RiskCategory.id cat)) as [entries|]; [|destruct Hf].
  eexists. split; [reflexivity|].
  assert (Havail :
    In f (List.filter
            (fun field =>
               negb (includes
                       (map RiskCondition.field (RiskCategory.conditions cat))
                       (FieldOption.name field))
               || eqOpt (FieldOption.name field) (Some (RiskCondition.field c)))
            entries)
    <-> (~ In (FieldOption.name f)
             (map RiskCondition.field (RiskCategory.conditions cat))
         \/ FieldOption.name f = RiskCondition.field c)).
  { rewrite filter_In, orb_true_iff, negb_true_iff. simpl.
    rewrite String.eqb_eq, <- includes_In.
    destruct (includes _ _); intuition congruence. }
  rewrite Havail, isUsed_false. split.
  - intros Hfree.
    destruct (in_dec string_dec (FieldOption.name f)
                (map RiskCondition.field (RiskCategory.conditions cat)))
      as [Hin|Hout]; [|left; exact Hout].
    right. apply in_map_iff in Hin as [c' [Hfield Hin]].
    rewrite <- (Hown c' Hin (Hfree c' Hin Hfield)). congruence.
  - intros [Hout|E] Hne c' Hin Hfield; [|contradiction].
    destruct Hout. rewrite <- Hfield. apply in_map, Hin.
Qed.

Lemma isUsed_agrees_with_getAvailableFields_witness :
  exists fields,
    getAvailableFields Local.fieldOptions Local.initialCategories
      "financial" (Some "Loan Amount") = returned fields
    /\ In (FieldOption.mk "Days Past Due (DPD)" "Number" None) fields.
Proof.
  destruct (isUsed_agrees_with_getAvailableFields Local.fieldOptions
              Local.initialCategories
              (RiskCategory.mk "financial" "Financial & Credit"
                 [ RiskCondition.mk "1" "Loan Amount" ">" "5000" 40 "Number"
                     None None;
                   RiskCondition.mk "2" "Outstanding Balance" "=" "1500" 15
                     "Number" None None ]
                 55 incomplete)
              (RiskCondition.mk "1" "Loan Amount" ">" "5000" 40 "Number"
                 None None)
              (FieldOption.mk "Days Past Due (DPD)" "Number" None))
    as (fields & Hcall & Henabled & _).
  - reflexivity.
  - left. reflexivity.
  - intros c' [<-|[<-|[]]] E; [reflexivity | discriminate E].
  - simpl. auto.
  - exists fields. split; [exact Hcall|]. apply Henabled. reflexivity.
Defined.

(** ** The operators on offer *)

(** X15. Whatever the data type, [getOperatorsForDataType] offers ["="] and
    offers no operator twice; it offers [">"], the operator of a new
    condition, for every data type but "Boolean" and "Text"; and for
    "Boolean" it offers ["="] alone.  A new condition has an operator that its
    own data type offers. *)
Theorem getOperatorsForDataType_offers (dataType : string) :
  let offered := map OperatorOption.value (getOperatorsForDataType dataType) in
  In "=" offered
  /\ List.NoDup offered
  /\ (In ">" offered <-> dataType <> "Boolean" /\ dataType <> "Text")
  /\ (dataType = "Boolean" -> offered = ["="])
  /\ (forall now,
        In (RiskCondition.operator (newCondition now))
          (map OperatorOption.value
             (getOperatorsForDataType
                (RiskCondition.dataType (newCondition now))))).
Proof.
  assert (Hnodup : forall l : list string,
             bool_decide (NoDup l) = true -> List.NoDup l).
  { intros l H. apply NoDup_ListNoDup. apply bool_decide_eq_true in H.
    exact H. }
  assert (Hnew : forall now,
             In (RiskCondition.operator (newCondition now))
               (map OperatorOption.value
                  (getOperatorsForDataType
                     (RiskCondition.dataType (newCondition now)))))
    by (intros now; simpl; auto).
  intros offered. unfold offered, getOperatorsForDataType. clear offered.
  destruct (String.eqb_spec dataType "Boolean") as [->|Hb].
  { simpl. split; [auto|]. split; [apply Hnodup; reflexivity|].
    split; [|auto]. split.
    - intros [H|[]]. discriminate H.
    - intros [H _]. destruct (H eq_refl). }
  destruct (String.eqb_spec dataType "Text") as [->|Ht].
  { simpl. split; [auto|]. split; [apply Hnodup; reflexivity|].
    split; [|split; [discriminate | exact Hnew]]. split.
    - intros [H|[H|[]]]; discriminate H.
    - intros [_ H]. destruct (H eq_refl). }
  destruct (String.eqb dataType "Number" || String.eqb dataType "Percentage");
    simpl; (split; [auto|]); (split; [apply Hnodup; reflexivity|]);
    (split; [|split; [intros E; destruct (Hb E) | exact Hnew]]);
    split; auto.
Qed.

(** ** Loading, again *)

Lemma transformCategories_by_names (fo : FieldOptions)
    (xs ys : list RiskCategory.t) (data : list ApiConfigItem.t) :
  map (fun cat => (RiskCategory.id cat, RiskCategory.name cat)) xs
  = map (fun cat => (RiskCategory.id cat, RiskCategory.name cat)) ys ->
  transformCategories fo xs data = transformCategories fo ys data.
Proof.
  revert ys. induction xs as [|x xs IH]; intros [|y ys] H; simpl in H;
    try discriminate; [reflexivity|].
  injection H as Hid Hname Hrest. simpl.
  rewrite (IH ys Hrest). f_equal.
  unfold withTotals. rewrite Hid, Hname. reflexivity.
Qed.

Lemma api_reachable_named (w : World) :
  Api.reachable w ->
  map (fun cat => (RiskCategory.id cat, RiskCategory.name cat)) (categories w)
  = map (fun cat => (RiskCategory.id cat, RiskCategory.name cat))
      Api.initialCategories.
Proof.
  induction 1 as [|w p e _ IH]; [reflexivity|].
  destruct (api_event_categories e p w) as [->|[[ed ->]|[data ->]]];
    rewrite ?categoryNames_applyEdit, ?categoryNames_transformCategories;
    exact IH.
Qed.

(** X16. A load that succeeds discards every edit and every earlier load: the
    categories it leaves are those the same response gives in the initial
    state. *)
Theorem load_discards_edits (p : Platform) (w : World) (o : bool)
    (data : list ApiConfigItem.t) :
  Api.reachable w ->
  network p Api.getConfigRequest = resolved (mkResponse o (Some data)) ->
  categories (exec Api.fetchConfigurations p w)
  = categories (exec Api.fetchConfigurations p Api.initialWorld).
Proof.
  intros Hw Hnet. unfold exec. rewrite !fetchConfigurations_run, Hnet.
  cbn [snd categories].
  change (categories Api.initialWorld) with Api.initialCategories.
  apply transformCategories_by_names, api_reachable_named, Hw.
Qed.

Lemma load_discards_edits_witness :
  let data :=
    [ ApiConfigItem.mk 11 1 ">" "5000" 60 "2024-01-01T00:00:00" true
        "LoanAmount" "Loan Amount" ] in
  let edited :=
    exec (Api.handle (Api.UpdateCondition "1730000000000" (set_weight 70)))
      offline (exec (Api.handle Api.AddCondition) offline Api.initialWorld) in
  map RiskCategory.totalWeight (categories edited) = [70; 0; 0; 0; 0]
  /\ categories (exec Api.fetchConfigurations (serving data) edited)
     = categories (exec Api.fetchConfigurations (serving data) Api.initialWorld).
Proof.
  intros data edited. split; [reflexivity|].
  apply (load_discards_edits (serving data) edited true data).
  - apply Api.reach_event, Api.reach_event, Api.reach_initial.
  - reflexivity.
Defined.

(** An item belongs to the category of the one table entry with its name. *)
Lemma belongs_to_one (item : ApiConfigItem.t) :
  ((if belongsTo Api.fieldOptions "financial" item then 1 else 0)
   + (if belongsTo Api.fieldOptions "identity" item then 1 else 0)
   + (if belongsTo Api.fieldOptions "property" item then 1 else 0)
   + (if belongsTo Api.fieldOptions "contactability" item then 1 else 0)
   + (if belongsTo Api.fieldOptions "risk" item then 1 else 0))%nat
  = if bool_decide
         (ApiConfigItem.DisplayName item
          ∈ map FieldOption.name (flatOptions Api.fieldOptions))
    then 1%nat else 0%nat.
Proof.
  unfold belongsTo, findField.
  destruct (find _ (flatOptions Api.fieldOptions)) as [fi|] eqn:Hfind.
  - apply find_some in Hfind as [Hin Hname]. apply String.eqb_eq in Hname.
    rewrite bool_decide_eq_true_2
      by (rewrite <- Hname; apply list_elem_of_In, in_map, Hin).
    clear Hname.
    unfold flatOptions in Hin. simpl in Hin.
    repeat (destruct Hin as [<-|Hin]; [vm_compute; reflexivity|]).
    destruct Hin.
  - rewrite bool_decide_eq_false_2; [reflexivity|].
    intros Hin. apply list_elem_of_In, in_map_iff in Hin as [f [Hname Hin]].
    rewrite find_none_all in Hfind. specialize (Hfind f Hin). simpl in Hfind.
    rewrite Hname, String.eqb_refl in Hfind. discriminate.
Qed.

(** The five filters of a load split the items with a known name. *)
Lemma belonging_partition (data : list ApiConfigItem.t) :
  List.filter (belongsTo Api.fieldOptions "financial") data
  ++ List.filter (belongsTo Api.fieldOptions "identity") data
  ++ List.filter (belongsTo Api.fieldOptions "property") data
  ++ List.filter (belongsTo Api.fieldOptions "contactability") data
  ++ List.filter (belongsTo Api.fieldOptions "risk") data
  ≡ₚ filter
       (fun item =>
          ApiConfigItem.DisplayName item
          ∈ map FieldOption.name (flatOptions Api.fieldOptions))
       data.
Proof.
  induction data as [|item data IH]; [reflexivity|].
  rewrite filter_cons. pose proof (belongs_to_one item) as Hone.
  cbn [List.filter].
  set (F := List.filter (belongsTo Api.fieldOptions "financial") data) in *.
  set (I := List.filter (belongsTo Api.fieldOptions "identity") data) in *.
  set (P := List.filter (belongsTo Api.fieldOptions "property") data) in *.
  set (C := List.filter (belongsTo Api.fieldOptions "contactability") data) in *.
  set (R := List.filter (belongsTo Api.fieldOptions "risk") data) in *.
  destruct (decide (ApiConfigItem.DisplayName item
                    ∈ map FieldOption.name (flatOptions Api.fieldOptions)))
    as [Hin|Hout].
  - rewrite bool_decide_eq_true_2 in Hone by exact Hin.
    destruct (belongsTo Api.fieldOptions "financial" item),
      (belongsTo Api.fieldOptions "identity" item),
      (belongsTo Api.fieldOptions "property" item),
      (belongsTo Api.fieldOptions "contactability" item),
      (belongsTo Api.fieldOptions "risk" item);
      try discriminate Hone; rewrite <- IH; cbn [app]; symmetry.
    + reflexivity.
    + apply Permutation_middle.
    + rewrite !(app_assoc F I). apply Permutation_middle.
    + rewrite !(app_assoc I P), !(app_assoc F (I ++ P)).
      apply Permutation_middle.
    + rewrite !(app_assoc P C), !(app_assoc I (P ++ C)),
        !(app_assoc F (I ++ P ++ C)).
      apply Permutation_middle.
  - rewrite bool_decide_eq_false_2 in Hone by exact Hout.
    destruct (belongsTo Api.fieldOptions "financial" item),
      (belongsTo Api.fieldOptions "identity" item),
      (belongsTo Api.fieldOptions "property" item),
      (belongsTo Api.fieldOptions "contactability" item),
      (belongsTo Api.fieldOptions "risk" item);
      try discriminate Hone; exact IH.
Qed.

Lemma conditionFor_incl (entries entries' : list FieldOption.t)
    (item : ApiConfigItem.t) (c : RiskCondition.t) :
  (forall f, In f entries -> In f entries') ->
  conditionFor entries item c -> conditionFor entries' item c.
Proof.
  unfold conditionFor.
  intros Hincl (H1 & H2 & H3 & H4 & H5 & H6 & H7 & f & Hf & Hname & Htype).
  repeat split; auto. exists f. auto.
Qed.

(** An item with a known name becomes the condition the item describes. *)
Lemma known_conditionFor (item : ApiConfigItem.t) :
  ApiConfigItem.DisplayName item
  ∈ map FieldOption.name (flatOptions Api.fieldOptions) ->
  conditionFor (flatOptions Api.fieldOptions) item
    (toCondition Api.fieldOptions item).
Proof.
  intros Hin. pose proof (belongs_to_one item) as Hone.
  rewrite bool_decide_eq_true_2 in Hone by exact Hin.
  assert (Hsome : exists key, belongsTo Api.fieldOptions key item = true).
  { destruct (belongsTo Api.fieldOptions "financial" item) eqn:E1; [eauto|].
    destruct (belongsTo Api.fieldOptions "identity" item) eqn:E2; [eauto|].
    destruct (belongsTo Api.fieldOptions "property" item) eqn:E3; [eauto|].
    destruct (belongsTo Api.fieldOptions "contactability" item) eqn:E4;
      [eauto|].
    destruct (belongsTo Api.fieldOptions "risk" item) eqn:E5; [eauto|].
    discriminate Hone. }
  destruct Hsome as [key Hkey].
  apply (conditionFor_incl (entriesOf Api.fieldOptions key)).
  - apply entriesOf_incl.
  - apply toCondition_conditionFor, Hkey.
Qed.

(** X17. A load neither loses nor doubles a known item: after it, whatever
    the state before, the conditions of the five categories, taken together,
    are up to their order the conditions made from the items of the response
    whose [DisplayName] is the name of a field option, one condition for each
    such item, with the item's ConfigId, DisplayName, Operator, Value,
    WeightPercentage and RiskFieldId and the data type of the field option;
    so there are as many of them as there are such items. *)
Theorem load_keeps_known_items (p : Platform) (w : World) (o : bool)
    (data : list ApiConfigItem.t) :
  Api.reachable w ->
  network p Api.getConfigRequest = resolved (mkResponse o (Some data)) ->
  let loaded :=
    concat
      (map RiskCategory.conditions
         (categories (exec Api.fetchConfigurations p w))) in
  let known :=
    filter
      (fun item =>
         ApiConfigItem.DisplayName item
         ∈ map FieldOption.name (flatOptions Api.fieldOptions))
      data in
  (exists conds,
      loaded ≡ₚ conds
      /\ Forall2 (conditionFor (flatOptions Api.fieldOptions)) known conds)
  /\ length loaded = length known.
Proof.
  intros Hw Hnet loaded known.
  assert (Hperm : loaded ≡ₚ map (toCondition Api.fieldOptions) known).
  { unfold loaded, known. rewrite <- belonging_partition.
    unfold exec. rewrite fetchConfigurations_run, Hnet.
    cbn [snd categories].
    rewrite (transformCategories_by_names _ _ Api.initialCategories)
      by (apply api_reachable_named, Hw).
    unfold transformCategories, Api.initialCategories.
    cbn [map concat RiskCategory.conditions RiskCategory.id withTotals].
    rewrite !map_app, app_nil_r. reflexivity. }
  split; [|rewrite Hperm; apply length_map].
  exists (map (toCondition Api.fieldOptions) known). split; [exact Hperm|].
  assert (Hknown : Forall
            (fun item =>
               ApiConfigItem.DisplayName item
               ∈ map FieldOption.name (flatOptions Api.fieldOptions))
            known).
  { unfold known. apply List.Forall_forall. intros item Hin.
    apply list_elem_of_In, list_elem_of_filter in Hin as [Hin _]. exact Hin. }
  clearbody known. clear Hperm loaded.
  induction Hknown as [|item rest Hitem _ IH]; simpl; constructor;
    auto using known_conditionFor.
Qed.

(** Three items, one of them unknown: the two known ones become the only
    conditions, one in the financial and one in the identity category. *)
Lemma load_keeps_known_items_witness :
  let data :=
    [ ApiConfigItem.mk 11 1 ">" "5000" 60 "2024-01-01T00:00:00" false
        "LoanAmount" "Loan Amount";
      ApiConfigItem.mk 13 99 ">" "1" 40 "2024-01-01T00:00:00" true
        "ShoeSize" "Shoe Size";
      ApiConfigItem.mk 12 9 "=" "Yes" 100 "2024-01-01T00:00:00" true
        "NameMatch" "Name Match %" ] in
  let w := exec Api.fetchConfigurations (serving data) Api.initialWorld in
  (exists conds,
      concat (map RiskCategory.conditions (categories w)) ≡ₚ conds
      /\ Forall2 (conditionFor (flatOptions Api.fieldOptions))
           [ ApiConfigItem.mk 11 1 ">" "5000" 60 "2024-01-01T00:00:00" false
               "LoanAmount" "Loan Amount";
             ApiConfigItem.mk 12 9 "=" "Yes" 100 "2024-01-01T00:00:00" true
               "NameMatch" "Name Match %" ]
           conds)
  /\ map RiskCategory.conditions (categories w)
     = [ [ RiskCondition.mk "11" "Loan Amount" ">" "5000" 60 "Number"
             (Some 11) (Some 1) ];
         [ RiskCondition.mk "12" "Name Match %" "=" "Yes" 100 "Percentage"
             (Some 12) (Some 9) ];
         []; []; [] ].
Proof.
  intros data w. split; [|reflexivity].
  destruct (load_keeps_known_items (serving data) Api.initialWorld true data
              Api.reach_initial eq_refl) as [Hconds _].
  exact Hconds.
Defined.

(** X18. What was loaded is saved back: when no item of the response has
    [RiskFieldId] 0, the payload built from the loaded categories lists, for
    the categories in order, the items that went to each, in the order of the
    response, each with its own [RiskFieldId], [Operator], [Value] and
    [WeightPercentage]. *)
Theorem loaded_items_are_saved_back (cats : list RiskCategory.t)
    (data : list ApiConfigItem.t) :
  Forall (fun item => ApiConfigItem.RiskFieldId item <> 0) data ->
  allConditions Api.fieldOptions
    (transformCategories Api.fieldOptions cats data)
  = flat_map
      (fun cat =>
         map (fun item =>
                JObject
                  [("RiskFieldId", JNumber (ApiConfigItem.RiskFieldId item));
                   ("Operator", JString (ApiConfigItem.Operator item));
                   ("Value", JString (ApiConfigItem.Value item));
                   ("WeightPercentage",
                    JNumber (ApiConfigItem.WeightPercentage item))])
           (filter
              (fun item =>
                 ApiConfigItem.DisplayName item
                 ∈ map FieldOption.name
                     (entriesOf Api.fieldOptions (RiskCategory.id cat)))
              data))
      cats.
Proof.
  intros Hids. unfold allConditions, transformCategories.
  induction cats as [|cat cats IH]; [reflexivity|].
  simpl. rewrite IH. f_equal.
  rewrite <- (filter_decide (belongsTo Api.fieldOptions (RiskCategory.id cat)))
    by (intros item; rewrite list_elem_of_In;
        apply belongsTo_iff, api_names_distinct).
  rewrite map_map. apply map_ext_in. intros item Hin.
  apply filter_In in Hin as [Hin _].
  rewrite List.Forall_forall in Hids. specialize (Hids item Hin).
  unfold saveItem, riskFieldIdOf, toCondition. simpl.
  apply Z.eqb_neq in Hids. rewrite Hids. simpl. rewrite Hids. reflexivity.
Qed.

Lemma loaded_items_are_saved_back_witness :
  allConditions Api.fieldOptions
    (transformCategories Api.fieldOptions Api.initialCategories
       [ ApiConfigItem.mk 12 9 "=" "Yes" 100 "2024-01-01T00:00:00" true
           "NameMatch" "Name Match %";
         ApiConfigItem.mk 11 1 ">" "5000" 60 "2024-01-01T00:00:00" false
           "LoanAmount" "Loan Amount" ])
  = [ JObject [("RiskFieldId", JNumber 1); ("Operator", JString ">");
               ("Value", JString "5000"); ("WeightPercentage", JNumber 60)];
      JObject [("RiskFieldId", JNumber 9); ("Operator", JString "=");
               ("Value", JString "Yes"); ("WeightPercentage", JNumber 100)] ].
Proof.
  rewrite loaded_items_are_saved_back.
  - reflexivity.
  - repeat constructor; discriminate.
Defined.

(** ** Saving, again *)

(** X19. Every run of [saveRules] in the API-backed editor shows exactly one
    toast, and that toast is not destructive exactly when the POST was sent,
    that is, every category with conditions has a total of 100, and was
    answered with an ok response. *)
Theorem saveRules_one_toast (p : Platform) (w : World) :
  let post :=
    Api.saveConfigRequest
      (JSON_stringify p
         (JArray (allConditions Api.fieldOptions (categories w)))) in
  exists t,
    toasts (exec Api.saveRules p w) = toasts w ++ [t]
    /\ (variant t = plain
        <-> (forall cat, In cat (categories w) ->
               RiskCategory.conditions cat <> [] ->
               RiskCategory.totalWeight cat = 100)
            /\ exists body, network p post = resolved (mkResponse true body)).
Proof.
  intros post. pose proof (forallb_savable (categories w)) as Hsav.
  unfold exec. rewrite saveRules_run.
  destruct (forallb savable (categories w)).
  - pose proof (saveConfigurations_run p w) as Hrun. simpl in Hrun.
    rewrite Hrun. simpl. fold post. eexists. split; [reflexivity|].
    destruct (network p post) as [|[[|] body]]; simpl.
    + split; [discriminate | intros [_ [body H]]; discriminate].
    + split; [|reflexivity].
      intros _. split; [apply Hsav; reflexivity | eauto].
    + split; [discriminate | intros [_ [body' H]]; discriminate].
  - simpl. eexists. split; [reflexivity|].
    split; [discriminate|]. intros [H _]. apply Hsav in H. discriminate.
Qed.

Lemma api_reachable_consistent (w : World) :
  Api.reachable w -> Forall statusConsistent (categories w).
Proof.
  induction 1 as [|w p e _ IH].
  - apply initial_categories_consistent.
  - apply api_event_consistent, IH.
Qed.

(** X20. In every state the API-backed editor reaches, [saveRules] sends the
    POST exactly when every category that has conditions is shown
    complete. *)
Theorem save_needs_complete_categories (p : Platform) (w : World) :
  Api.reachable w ->
  let sent :=
    requests (exec Api.saveRules p w)
    = requests w ++
      [Api.saveConfigRequest
         (JSON_stringify p
            (JArray (allConditions Api.fieldOptions (categories w))))] in
  sent <-> forall cat, In cat (categories w) ->
             RiskCategory.conditions cat <> [] ->
             RiskCategory.status cat = complete.
Proof.
  intros Hw sent.
  pose proof (api_reachable_consistent w Hw) as Hst.
  rewrite List.Forall_forall in Hst.
  assert (Hsent : sent <-> forallb savable (categories w) = true).
  { unfold sent, exec. rewrite saveRules_run.
    destruct (forallb savable (categories w)).
    - pose proof (saveConfigurations_run p w) as Hrun. simpl in Hrun.
      rewrite Hrun. simpl. tauto.
    - simpl. split; [|discriminate]. intros E. symmetry in E.
      destruct (app_one_neq _ _ E). }
  rewrite Hsent, forallb_savable. split; intros H cat Hin Hne.
  - apply (Hst cat Hin), (H cat Hin Hne).
  - apply (Hst cat Hin), (H cat Hin Hne).
Qed.

(** After a load of a single complete category the POST is sent. *)
Lemma save_needs_complete_categories_witness :
  let data :=
    [ ApiConfigItem.mk 12 9 "=" "Yes" 100 "2024-01-01T00:00:00" true
        "NameMatch" "Name Match %" ] in
  let w := exec (Api.handle Api.Mount) (serving data) Api.initialWorld in
  map method (requests (exec Api.saveRules (serving data) w)) = ["GET"; "POST"]
  /\ forall cat, In cat (categories w) ->
       RiskCategory.conditions cat <> [] ->
       RiskCategory.status cat = complete.
Proof.
  intros data w. split; [reflexivity|].
  destruct (save_needs_complete_categories (serving data) w) as [Hst _].
  - apply Api.reach_event, Api.reach_initial.
  - apply Hst. reflexivity.
Defined.
